(** * ReactiGIF: the API routes and the client code that calls them

    A shallow embedding of the route handlers of the repository:
    - [POST], the multi-perspective generation pipeline
      (quota gate, strategy derivation, three searches, three selections,
      aggregation, grouped persistence, response shaping);
    - [GET], the history read that rebuilds generation groups from the
      flat record list;
    - [Stats.GET], the usage figures of a profile;
    and of the client code around them: the pager and the fetch of the
    history page, the submit handler of the generator form with its
    free-trial flag, and the share action.

    Every external collaborator (Clerk, Upstash, the reasoning service,
    Giphy, Prisma) is an oracle of the environment; every call made to one
    is appended to a log kept in the world, next to the rows written to the
    [generations] table. *)

From Stdlib Require Import ZArith List Lia Bool Sorting.Sorted Sorting.Permutation.
From Stdlib Require Import Strings.String Strings.Ascii DecimalString DecimalPos DecimalZ.
From stdpp Require Import base list strings gmap sorting.

Import ListNotations.
Local Open Scope string_scope.
Local Open Scope list_scope.

(** ** Awaited values *)

(** What an [await] yields: the promise fulfils with a value or rejects. *)
Inductive outcome (A : Type) : Type :=
| Returns (a : A)
| Throws.
Arguments Returns {A} a.
Arguments Throws {A}.

(** ** JavaScript values and coercions used by the handlers *)

(** The [text] property read off the parsed request body. *)
Inductive JsVal : Type :=
| JsUndefined
| JsNull
| JsBoolean (b : bool)
| JsNumber (n : Z)
| JsString (s : string)
| JsObject.

(** [!v] *)
Definition js_not (v : JsVal) : bool :=
  match v with
  | JsUndefined | JsNull => true
  | JsBoolean b => negb b
  | JsNumber n => Z.eqb n 0
  | JsString s => String.eqb s ""
  | JsObject => false
  end.

Definition typeof (v : JsVal) : string :=
  match v with
  | JsUndefined => "undefined"
  | JsNull => "object"
  | JsBoolean _ => "boolean"
  | JsNumber _ => "number"
  | JsString _ => "string"
  | JsObject => "object"
  end.

(** Truthiness of a [string | null | undefined]: the value when it is a
    non-empty string. *)
Definition truthy (o : option string) : option string :=
  match o with
  | Some s => if String.eqb s "" then None else Some s
  | None => None
  end.

(** [a || b] on strings. *)
Definition or_else (o : option string) (d : string) : string :=
  match truthy o with
  | Some s => s
  | None => d
  end.

(** [n.toString()] for an integer-valued number. *)
Definition Number_toString (n : Z) : string :=
  NilZero.string_of_int (Z.to_int n).

(** ** Data model *)

(** One element of [strategiesResult.strategies]. *)
Record Strategy : Type := {
  keywords : list string;
  topic : option string;
  perspective : string;
  strategy_reasoning : string
}.

(** A Giphy search hit; [url] stands for [images.original.url]. *)
Record Gif : Type := {
  title : string;
  alt_text : string;
  url : string
}.

Record GifOption : Type := {
  index : nat;
  option_title : string;
  altText : string
}.

(** What each search task resolves to. *)
Record SearchResult : Type := {
  search_strategy : Strategy;
  gifs : list Gif;
  search_error : option string
}.

(** What each selection task resolves to. *)
Record Selection : Type := {
  strategy : Strategy;
  selectedGif : option Gif;
  reasoning : string;
  error : bool
}.

(** The object of the selection call before schema validation. *)
Record RawSelection : Type := {
  selectedIndex : Z;
  raw_reasoning : string
}.

Record RateLimitResult : Type := {
  success : bool;
  limit : Z;
  remaining : Z;
  reset : Z
}.

Record ClerkUser : Type := {
  emailAddress : option string;
  firstName : option string;
  lastName : option string;
  imageUrl : option string
}.

Record DbUser : Type := { user_id : string }.

(** The [data] argument of [prisma.generation.create]. *)
Record GenerationData : Type := {
  data_userId : string;
  data_inputText : string;
  data_keywords : list string;
  data_topic : option string;
  data_reasoning : string;
  data_gifUrl : string;
  data_gifTitle : string;
  data_perspective : string;
  data_generationGroupId : string
}.

(** ** Responses *)

Record ResultEntry : Type := {
  result_url : string;
  result_keywords : list string;
  result_topic : option string;
  result_reasoning : string;
  result_title : string;
  result_perspective : string
}.

(** [reset] is kept as epoch milliseconds; its ISO rendering is not
    modelled. *)
Record RateLimitInfo : Type := {
  info_remaining : Z;
  info_limit : Z;
  info_reset : Z
}.

Record ResponseData : Type := {
  results : list ResultEntry;
  totalFound : Z;
  requestedPerspectives : Z;
  rateLimit : option RateLimitInfo
}.

Inductive Body : Type :=
| ErrorBody (msg : string)
| RateLimitBody (msg : string) (lim rem rst : Z)
| DataBody (d : ResponseData).

Record Response : Type := {
  status : Z;
  body : Body;
  headers : list (string * string)
}.

Definition Response_json (b : Body) (st : Z) (hs : list (string * string)) : Response :=
  {| status := st; body := b; headers := hs |}.

(** ** The world: call log and the [generations] table *)

Inductive call : Type :=
| Call_auth
| Call_ratelimit (userId : string)
| Call_currentUser
| Call_user_upsert (clerkUserId : string) (profile : option ClerkUser)
| Call_request_json
| Call_generateStrategies (text : string)
| Call_fetch (searchQuery : string)
| Call_generateSelection (persp : string) (options : list GifOption)
| Call_user_findUnique (clerkUserId : string)
| Call_generation_create (data : GenerationData)
| Call_generation_findMany (userId : string)
| Call_console_error (msg : string).

Record World : Type := {
  calls : list call;
  generations : list GenerationData
}.

Definition log (c : call) (w : World) : World :=
  {| calls := calls w ++ [c]; generations := generations w |}.

(** ** A state-and-exception monad for the handler bodies *)

Definition M (A : Type) : Type := World -> outcome A * World.

Definition ret {A} (a : A) : M A := fun w => (Returns a, w).

Definition throw {A} : M A := fun w => (Throws, w).

Definition bind {A B} (m : M A) (k : A -> M B) : M B :=
  fun w =>
    match m w with
    | (Returns a, w') => k a w'
    | (Throws, w') => (Throws, w')
    end.

Notation "'let*' x ':=' m 'in' k" := (bind m (fun x => k))
  (at level 10, x name, m at level 100, k at level 200).

(** [await] of an external call: the call is logged, then its outcome is
    delivered. *)
Definition perform {A} (c : call) (o : outcome A) : M A :=
  fun w => (o, log c w).

(** [try { m } catch { h }] *)
Definition try_catch {A} (m : M A) (h : M A) : M A :=
  fun w =>
    match m w with
    | (Returns a, w') => (Returns a, w')
    | (Throws, w') => h w'
    end.

(** ** [Promise.all] *)

(** Starts one task per element. A task that rejects does not stop its
    siblings. Inside one fan-out the log lists the calls by task index. *)
Fixpoint fire {A B} (task : A -> M B) (l : list A) (w : World)
  : list (outcome B) * World :=
  match l with
  | [] => ([], w)
  | a :: l' =>
      let '(o, w1) := task a w in
      let '(os, w2) := fire task l' w1 in
      (o :: os, w2)
  end.

(** The tasks settle in some order; each fulfilled value goes to the slot
    of its task, the first rejection met rejects the whole. *)
Fixpoint settle {B} (order : list nat) (outs : list (outcome B))
  (slots : list (option B)) : outcome (list (option B)) :=
  match order with
  | [] => Returns slots
  | i :: order' =>
      match outs !! i with
      | Some (Returns v) => settle order' outs (<[i := Some v]> slots)
      | Some Throws => Throws
      | None => settle order' outs slots
      end
  end.

(** [sched] names the tasks that settle first, in their completion order;
    the tasks it leaves out settle afterwards. *)
Definition Promise_all {B} (sched : list nat) (outs : list (outcome B))
  : outcome (list B) :=
  match settle (sched ++ seq 0 (length outs)) outs
               (replicate (length outs) None) with
  | Returns slots => Returns (omap id slots)
  | Throws => Throws
  end.

Definition Promise_all_map {A B} (sched : list nat) (task : A -> M B)
  (l : list A) : M (list B) :=
  fun w => let '(outs, w') := fire task l w in (Promise_all sched outs, w').

(** * The generation route *)

Module Generate.

(** ** Environment of the generation route *)

Inductive FetchResult : Type :=
| FetchRejects
| FetchResponse (ok : bool) (json : outcome (option (list Gif))).

(** [search_order], [selection_order] and [write_order] are the orders in
    which the promises of the three fan-outs settle; [store_order] is the
    order in which the store inserts the rows of the concurrent writes. *)
Record Env : Type := {
  auth : outcome (option string);
  ratelimit_limit : string -> outcome RateLimitResult;
  currentUser : outcome (option ClerkUser);
  user_upsert : string -> option ClerkUser -> outcome unit;
  request_json : outcome JsVal;
  generateStrategies : string -> outcome (list Strategy);
  GIPHY_API_KEY : option string;
  fetch : string -> FetchResult;
  generateSelection :
    string -> string -> list string -> list GifOption -> outcome RawSelection;
  user_findUnique : string -> outcome (option DbUser);
  generation_create : GenerationData -> outcome unit;
  Date_now_start : Z;
  Date_now : Z;
  Math_random_suffix : string;
  search_order : list nat;
  selection_order : list nat;
  write_order : list nat;
  store_order : list nat
}.

(** ** Schemas handed to [generateObject] *)

Definition perspective_enum : list string := ["emotional"; "literal"; "sarcastic"].

Definition in_enum (p : string) : bool :=
  existsb (String.eqb p) perspective_enum.

Definition strategy_ok (s : Strategy) : bool :=
  (1 <=? length (keywords s))%nat && (length (keywords s) <=? 3)%nat
  && in_enum (perspective s).

Definition strategiesSchema (l : list Strategy) : bool :=
  (length l =? 3)%nat && forallb strategy_ok l.

(** [Number.MAX_SAFE_INTEGER] *)
Definition MAX_SAFE_INTEGER : Z := 9007199254740991.

(** [selectedIndex: z.number().int().min(0)]: [int()] admits the safe
    integers only, [min(0)] none below 0. *)
Definition selectionSchema (r : RawSelection) : bool :=
  (selectedIndex r <=? MAX_SAFE_INTEGER)%Z && (0 <=? selectedIndex r)%Z.

(** [generateObject] rejects when the service fails or when its object
    does not validate against the schema. *)
Definition generateObject {A} (schema : A -> bool) (o : outcome A) : outcome A :=
  match o with
  | Returns a => if schema a then Returns a else Throws
  | Throws => Throws
  end.

(** ** The generation route, stage by stage *)

(** Step 2 and step 3: rate limiting and user upsert, authenticated
    callers only. [inl] is the early 429 response. *)
Definition quota_gate (e : Env) (userId : option string)
  : M (Response + (Z * Z * Z)) :=
  match truthy userId with
  | Some uid =>
      let* rateLimitResult := perform (Call_ratelimit uid) (ratelimit_limit e uid) in
      if negb (success rateLimitResult) then
        ret (inl (Response_json
          (RateLimitBody
             "Rate limit exceeded. You've used all 10 generations for today."
             (limit rateLimitResult) 0 (reset rateLimitResult))
          429
          [("X-RateLimit-Limit", Number_toString (limit rateLimitResult));
           ("X-RateLimit-Remaining", "0");
           ("X-RateLimit-Reset", Number_toString (reset rateLimitResult))]))
      else
        let* user := perform Call_currentUser (currentUser e) in
        let* _ := perform (Call_user_upsert uid user) (user_upsert e uid user) in
        ret (inr (limit rateLimitResult, reset rateLimitResult,
                  remaining rateLimitResult))
  | None => ret (inr (10, Date_now_start e + 24 * 60 * 60 * 1000, 0)%Z)
  end.

(** The query of one strategy: its keywords, then its topic if it has one. *)
Definition searchQuery (s : Strategy) : string :=
  let reactionKeywords := String.concat " " (keywords s) in
  match truthy (topic s) with
  | Some t => reactionKeywords +:+ " " +:+ t
  | None => reactionKeywords
  end.

(** Step 5, one task: the Giphy search of one strategy. *)
Definition searchTask (e : Env) (s : Strategy) : M SearchResult :=
  let searchQuery := searchQuery s in
  let failed why msg :=
    let* _ := perform (Call_console_error why) (Returns tt) in
    ret {| search_strategy := s; gifs := []; search_error := Some msg |} in
  let* response := perform (Call_fetch searchQuery) (Returns (fetch e searchQuery)) in
  match response with
  | FetchResponse false _ => failed "Giphy search failed:" "Search failed"
  | FetchResponse true (Returns data) =>
      ret {| search_strategy := s; gifs := default [] data; search_error := None |}
  | FetchResponse true Throws => failed "Giphy error:" "Network error"
  | FetchRejects => failed "Giphy error:" "Network error"
  end.

Definition gifOptions (l : list Gif) : list GifOption :=
  imap (fun i gif =>
          {| index := i; option_title := title gif;
             altText := or_else (Some (alt_text gif)) "" |}) l.

(** Step 6, one task: the choice of one GIF among a strategy's hits. *)
Definition selectionTask (e : Env) (text : string) (result : SearchResult)
  : M Selection :=
  match gifs result with
  | [] =>
      ret {| strategy := search_strategy result;
             selectedGif := None;
             reasoning := or_else (search_error result)
                                  "No GIFs found for this perspective";
             error := true |}
  | gif0 :: _ =>
      let opts := gifOptions (gifs result) in
      try_catch
        (let* selection :=
           perform (Call_generateSelection (perspective (search_strategy result)) opts)
             (generateObject selectionSchema
                (generateSelection e (perspective (search_strategy result)) text
                   (keywords (search_strategy result)) opts)) in
         ret {| strategy := search_strategy result;
                selectedGif :=
                  Some (default gif0 (gifs result !! Z.to_nat (selectedIndex selection)));
                reasoning := raw_reasoning selection;
                error := false |})
        (let* _ := perform (Call_console_error "Selection error:") (Returns tt) in
         ret {| strategy := search_strategy result;
                selectedGif := Some gif0;
                reasoning := "AI selection failed, using top result";
                error := true |})
  end.

Definition isSome {A} (o : option A) : bool :=
  match o with Some _ => true | None => false end.

(** [selections.filter(s => s.selectedGif !== null)] *)
Definition successfulSelections (selections : list Selection) : list Selection :=
  List.filter (fun s => isSome (selectedGif s)) selections.

(** [selection.selectedGif] about to be dereferenced: a property read
    off [null] throws. *)
Definition deref (selection : Selection) : M Gif :=
  match selectedGif selection with
  | Some gif => ret gif
  | None => throw
  end.

Definition generationGroupId (now : Z) (suffix : string) : string :=
  "group_" +:+ Number_toString now +:+ "_" +:+ suffix.

(** The [data] of one [prisma.generation.create]. *)
Definition generationData (dbUser : DbUser) (text groupId : string)
  (selection : Selection) (gif : Gif) : GenerationData :=
  {| data_userId := user_id dbUser;
     data_inputText := text;
     data_keywords := keywords (strategy selection);
     data_topic := topic (strategy selection);
     data_reasoning := reasoning selection;
     data_gifUrl := url gif;
     data_gifTitle := title gif;
     data_perspective := perspective (strategy selection);
     data_generationGroupId := groupId |}.

(** One [prisma.generation.create]: the call is made and its promise
    settles; the row itself is the store's to insert. *)
Definition createTask (e : Env) (d : GenerationData) : M unit :=
  perform (Call_generation_create d) (generation_create e d).

(** The elements of [l], each at its first occurrence. *)
Fixpoint each_once (l : list nat) : list nat :=
  match l with
  | [] => []
  | i :: l' => i :: List.filter (fun j => negb (j =? i)%nat) (each_once l')
  end.

(** The order in which the store inserts the rows of [n] concurrent
    writes: the writes that [sched] names, in that order, then the
    others. *)
Definition insertion_order (sched : list nat) (n : nat) : list nat :=
  each_once (List.filter (fun i => (i <? n)%nat) sched ++ seq 0 n).

(** The rows of the writes that fulfil, in the order the store inserts
    them. *)
Definition inserted (e : Env) (rows : list GenerationData) : list GenerationData :=
  omap (fun i =>
          match rows !! i with
          | Some d =>
              match generation_create e d with
              | Returns _ => Some d
              | Throws => None
              end
          | None => None
          end)
       (insertion_order (store_order e) (length rows)).

(** [await Promise.all(rows.map((d) => prisma.generation.create(d)))]:
    the calls are made in the order of the rows and run concurrently;
    the rows of the writes that fulfil are in the table afterwards, in
    the store's order, whether or not another write rejects. *)
Definition createAll (e : Env) (rows : list GenerationData) : M (list unit) :=
  fun w =>
    let '(o, w1) := Promise_all_map (write_order e) (createTask e) rows w in
    (o, {| calls := calls w1;
           generations := generations w1 ++ inserted e rows |}).

Fixpoint mapM {A B} (f : A -> M B) (l : list A) : M (list B) :=
  match l with
  | [] => ret []
  | a :: l' =>
      let* b := f a in
      let* bs := mapM f l' in
      ret (b :: bs)
  end.

(** Step 7: grouped persistence, authenticated callers only. *)
Definition persist (e : Env) (userId : option string) (text : string)
  (successful : list Selection) : M unit :=
  match truthy userId with
  | Some uid =>
      let* dbUser := perform (Call_user_findUnique uid) (user_findUnique e uid) in
      match dbUser with
      | Some dbUser =>
          let groupId := generationGroupId (Date_now e) (Math_random_suffix e) in
          let* rows :=
            mapM (fun selection =>
                    let* gif := deref selection in
                    ret (generationData dbUser text groupId selection gif))
                 successful in
          let* _ := createAll e rows in
          ret tt
      | None => ret tt
      end
  | None => ret tt
  end.

Definition resultEntry (selection : Selection) (gif : Gif) : ResultEntry :=
  {| result_url := url gif;
     result_keywords := keywords (strategy selection);
     result_topic := topic (strategy selection);
     result_reasoning := reasoning selection;
     result_title := title gif;
     result_perspective := perspective (strategy selection) |}.

(** The response built from the successful selections. *)
Definition respond (userId : option string) (rl : Z * Z * Z)
  (successful : list Selection) : M Response :=
  let '(limit, reset, remaining) := rl in
  let* entries :=
    mapM (fun selection =>
            let* gif := deref selection in
            ret (resultEntry selection gif))
         successful in
  let responseData rateLimit :=
    {| results := entries;
       totalFound := Z.of_nat (length successful);
       requestedPerspectives := 3;
       rateLimit := rateLimit |} in
  match truthy userId with
  | Some _ =>
      ret (Response_json
             (DataBody (responseData
                (Some {| info_remaining := remaining; info_limit := limit;
                         info_reset := reset |})))
             200
             [("X-RateLimit-Limit", Number_toString limit);
              ("X-RateLimit-Remaining", Number_toString remaining);
              ("X-RateLimit-Reset", Number_toString reset)])
  | None => ret (Response_json (DataBody (responseData None)) 200 [])
  end.

(** Steps 5 and 6: the two fan-outs, each joined by [Promise.all]. *)
Definition selectAll (e : Env) (text : string) (strategies : list Strategy)
  : M (list Selection) :=
  let* searchResults := Promise_all_map (search_order e) (searchTask e) strategies in
  Promise_all_map (selection_order e) (selectionTask e text) searchResults.

(** Everything after the selections are in: filter, 404 or persist and
    respond. *)
Definition aggregate (e : Env) (userId : option string) (rl : Z * Z * Z)
  (text : string) (selections : list Selection) : M Response :=
  let successful := successfulSelections selections in
  if (length successful =? 0)%nat then
    ret (Response_json
           (ErrorBody "No GIFs found for any perspective. Please try a different description.")
           404 [])
  else
    let* _ := persist e userId text successful in
    respond userId rl successful.

(** The part of the handler that follows the quota gate. *)
Definition generate (e : Env) (userId : option string) (rl : Z * Z * Z)
  : M Response :=
  let* text := perform Call_request_json (request_json e) in
  match text with
  | JsString t =>
      if js_not text || negb (String.eqb (typeof text) "string") then
        ret (Response_json (ErrorBody "Text input is required") 400 [])
      else
        let* strategies :=
          perform (Call_generateStrategies t)
            (generateObject strategiesSchema (generateStrategies e t)) in
        match truthy (GIPHY_API_KEY e) with
        | None =>
            ret (Response_json (ErrorBody "Giphy API key not configured") 500 [])
        | Some _ =>
            let* selections := selectAll e t strategies in
            aggregate e userId rl t selections
        end
  | _ =>
      (* typeof text !== "string" *)
      ret (Response_json (ErrorBody "Text input is required") 400 [])
  end.

(** The [catch] block around the whole handler. *)
Definition on_error : M Response :=
  let* _ := perform (Call_console_error "Error generating GIF:") (Returns tt) in
  ret (Response_json (ErrorBody "Failed to generate GIF recommendation") 500 []).

Definition POST (e : Env) : M Response :=
  try_catch
    (let* userId := perform Call_auth (auth e) in
     let* gate := quota_gate e userId in
     match gate with
     | inl rejected => ret rejected
     | inr rl => generate e userId rl
     end)
    on_error.

End Generate.

(** * The history route *)

Module History.

Record Generation : Type := {
  id : string;
  inputText : string;
  keywords : list string;
  topic : option string;
  gifUrl : string;
  gifTitle : string;
  createdAt : Z;
  perspective : option string;
  generationGroupId : option string
}.

Record Group : Type := {
  groupId : string;
  group_inputText : string;
  group_createdAt : Z;
  gifs : list Generation
}.

(** A number that may be [NaN] ([None]); [JSON.stringify] writes [NaN] and
    the infinities as [null]. *)
Definition number : Type := option Z.

Record Pagination : Type := {
  total : Z;
  page : number;
  limit : number;
  totalPages : number
}.

Inductive Body : Type :=
| ErrorBody (msg : string)
| HistoryBody (generations : list Group) (pagination : option Pagination).

Record Response : Type := {
  status : Z;
  body : Body
}.

(** [page_param] and [limit_param] are what [parseInt] makes of the query
    parameters after their defaults ["1"] and ["12"] are applied. *)
Record Env : Type := {
  auth : outcome (option string);
  user_findUnique : string -> outcome (option DbUser);
  page_param : number;
  limit_param : number;
  generation_findMany : string -> outcome (list Generation)
}.

(** [gen.generationGroupId || gen.id] *)
Definition groupKey (gen : Generation) : string :=
  or_else (generationGroupId gen) (id gen).

(** The [Map<string, Generation[]>], entries in insertion order. *)
Definition GroupMap : Type := list (string * list Generation).

Fixpoint has (grouped : GroupMap) (k : string) : bool :=
  match grouped with
  | [] => false
  | (k', _) :: rest => String.eqb k k' || has rest k
  end.

(** [grouped.set(k, v)]: a key already present keeps its place. *)
Fixpoint set (grouped : GroupMap) (k : string) (v : list Generation) : GroupMap :=
  match grouped with
  | [] => [(k, v)]
  | (k', v') :: rest =>
      if String.eqb k k' then (k', v) :: rest else (k', v') :: set rest k v
  end.

(** [grouped.get(k)!.push(gen)] *)
Fixpoint push (grouped : GroupMap) (k : string) (gen : Generation) : GroupMap :=
  match grouped with
  | [] => []
  | (k', v') :: rest =>
      if String.eqb k k' then (k', (v' ++ [gen])%list) :: rest
      else (k', v') :: push rest k gen
  end.

(** The body of [allGenerations.forEach]. *)
Definition addGeneration (grouped : GroupMap) (gen : Generation) : GroupMap :=
  let groupKey := groupKey gen in
  let grouped := if negb (has grouped groupKey) then set grouped groupKey [] else grouped in
  push grouped groupKey gen.

Definition grouped (allGenerations : list Generation) : GroupMap :=
  fold_left addGeneration allGenerations [].

(** What reading a property off an object literal finds: a number the
    object holds itself, a member it inherits from [Object.prototype] (a
    function, or the prototype object itself), or nothing. *)
Inductive Property : Type :=
| Own (n : Z)
| Inherited
| Undefined.

(** The names every object inherits from [Object.prototype]. *)
Definition Object_prototype : list string :=
  ["constructor"; "hasOwnProperty"; "isPrototypeOf"; "propertyIsEnumerable";
   "toLocaleString"; "toString"; "valueOf"; "__proto__";
   "__defineGetter__"; "__defineSetter__"; "__lookupGetter__";
   "__lookupSetter__"].

(** [order[p]] for [const order = { emotional: 0, literal: 1, sarcastic: 2 }] *)
Definition order (p : string) : Property :=
  if String.eqb p "emotional" then Own 0%Z
  else if String.eqb p "literal" then Own 1%Z
  else if String.eqb p "sarcastic" then Own 2%Z
  else if existsb (String.eqb p) Object_prototype then Inherited
  else Undefined.

(** [order[g.perspective] ?? 999] as the subtraction reads it: a null
    perspective reads the key ["null"]; [??] replaces nothing but
    [undefined]; an inherited member is not a number ([None]). *)
Definition rank (g : Generation) : number :=
  match order (default "null" (perspective g)) with
  | Own n => Some n
  | Inherited => None
  | Undefined => Some 999%Z
  end.

(** [aOrder - bOrder], not a number as soon as one side is not. *)
Definition compare (a b : Generation) : number :=
  match rank a, rank b with
  | Some x, Some y => Some (x - y)%Z
  | _, _ => None
  end.

(** [Array.prototype.sort] takes a comparator's NaN for +0. It is stable,
    and every stable sort returns the same array for a consistent
    comparator; insertion sort is the one written out. Where a rank is
    not a number the comparator is not consistent and the order of the
    array is the engine's own. *)
Fixpoint sort_insert (cmp : Generation -> Generation -> number) (x : Generation)
  (l : list Generation) : list Generation :=
  match l with
  | [] => [x]
  | y :: l' =>
      if (default 0 (cmp x y) <=? 0)%Z then x :: y :: l'
      else y :: sort_insert cmp x l'
  end.

Fixpoint sort (cmp : Generation -> Generation -> number) (l : list Generation)
  : list Generation :=
  match l with
  | [] => []
  | x :: l' => sort_insert cmp x (sort cmp l')
  end.

(** One element of [groupedArray]; [gifs[0]] of an empty array is
    [undefined], and reading [inputText] off it throws. *)
Definition groupEntry (entry : string * list Generation) : outcome Group :=
  let '(groupId, gifs) := entry in
  match gifs with
  | [] => Throws
  | gif0 :: _ =>
      Returns {| groupId := groupId;
                 group_inputText := inputText gif0;
                 group_createdAt := createdAt gif0;
                 gifs := sort compare gifs |}
  end.

Fixpoint mapO {A B} (f : A -> outcome B) (l : list A) : outcome (list B) :=
  match l with
  | [] => Returns []
  | a :: l' =>
      match f a, mapO f l' with
      | Returns b, Returns bs => Returns (b :: bs)
      | _, _ => Throws
      end
  end.

Definition groupedArray (allGenerations : list Generation) : outcome (list Group) :=
  mapO groupEntry (grouped allGenerations).

(** Arithmetic on numbers that may be [NaN]. *)
Definition num2 (f : Z -> Z -> Z) (a b : number) : number :=
  match a, b with
  | Some x, Some y => Some (f x y)
  | _, _ => None
  end.

(** [Math.ceil(n / d)], [None] when the quotient is not finite. *)
Definition ceil_div (n : Z) (d : number) : number :=
  match d with
  | Some d => if (d =? 0)%Z then None else Some (- ((- n) / d))%Z
  | None => None
  end.

(** [l.slice(start, end)] *)
Definition slice {A} (l : list A) (start finish : number) : list A :=
  let len := Z.of_nat (length l) in
  let clamp (r : number) :=
    let r := default 0%Z r in
    if (r <? 0)%Z then Z.max (len + r) 0 else Z.min r len in
  let k := clamp start in
  take (Z.to_nat (clamp finish - k)) (drop (Z.to_nat k) l).

Definition Response_json (b : Body) (st : Z) : Response :=
  {| status := st; body := b |}.

Definition GET (e : Env) : M Response :=
  try_catch
    (let* userId := perform Call_auth (auth e) in
     match truthy userId with
     | None => ret (Response_json (ErrorBody "Unauthorized") 401)
     | Some userId =>
         let* user := perform (Call_user_findUnique userId) (user_findUnique e userId) in
         match user with
         | None => ret (Response_json (HistoryBody [] None) 200)
         | Some user =>
             let page := page_param e in
             let limit := limit_param e in
             let skip := num2 Z.mul (num2 Z.sub page (Some 1%Z)) limit in
             let* allGenerations :=
               perform (Call_generation_findMany (user_id user))
                 (generation_findMany e (user_id user)) in
             let* groupedArray := fun w => (groupedArray allGenerations, w) in
             let paginatedGroups := slice groupedArray skip (num2 Z.add skip limit) in
             ret (Response_json
                    (HistoryBody paginatedGroups
                       (Some {| total := Z.of_nat (length groupedArray);
                                page := page;
                                limit := limit;
                                totalPages :=
                                  ceil_div (Z.of_nat (length groupedArray)) limit |}))
                    200)
         end
     end)
    (let* _ := perform (Call_console_error "Error fetching history:") (Returns tt) in
     ret (Response_json (ErrorBody "Failed to fetch history") 500)).

End History.


(** * Concrete requests *)

Module Samples.
Import Generate.

Definition strat (p kw : string) : Strategy :=
  {| keywords := [kw]; topic := None; perspective := p;
     strategy_reasoning := "keywords for " +:+ p |}.

Definition gif (t : string) : Gif :=
  {| title := t; alt_text := ""; url := "https://media.giphy.com/" +:+ t |}.

(** Strategies in the order the prompt asks for, and in another order
    that the schema accepts as well. *)
Definition ranked : list Strategy :=
  [strat "emotional" "relieved"; strat "literal" "typing"; strat "sarcastic" "sure jan"].

Definition unranked : list Strategy :=
  [strat "literal" "typing"; strat "emotional" "relieved"; strat "sarcastic" "sure jan"].

Definition two_hits (q : string) : FetchResult :=
  FetchResponse true (Returns (Some [gif (q +:+ " 0"); gif (q +:+ " 1")])).

Definition only_relieved (q : string) : FetchResult :=
  if String.eqb q "relieved" then two_hits q
  else if String.eqb q "typing" then FetchResponse false Throws
  else FetchRejects.

Definition no_hits (q : string) : FetchResult :=
  FetchResponse true (Returns (Some [])).

Definition pick (i : Z) : outcome RawSelection :=
  Returns {| selectedIndex := i; raw_reasoning := "fits the mood" |}.

Definition writes_ok (d : GenerationData) : outcome unit := Returns tt.

Definition literal_write_fails (d : GenerationData) : outcome unit :=
  if String.eqb (data_perspective d) "literal" then Throws else Returns tt.

Definition writes_fail (d : GenerationData) : outcome unit := Throws.

(** Three strategies of one perspective, which the schema accepts. *)
Definition all_emotional : list Strategy :=
  [strat "emotional" "relieved"; strat "emotional" "typing";
   strat "emotional" "sure jan"].

Definition env (userId : option string) (admitted : bool) (text : JsVal)
  (strategies : list Strategy) (search : string -> FetchResult)
  (selection : outcome RawSelection)
  (create : GenerationData -> outcome unit) : Env :=
  {| auth := Returns userId;
     ratelimit_limit := fun _ =>
       Returns {| success := admitted; limit := 10;
                  remaining := if admitted then 2%Z else 0%Z;
                  reset := 1764410000000 |};
     currentUser := Returns None;
     user_upsert := fun _ _ => Returns tt;
     request_json := Returns text;
     generateStrategies := fun _ => Returns strategies;
     GIPHY_API_KEY := Some "giphy-key";
     fetch := search;
     generateSelection := fun _ _ _ _ => selection;
     user_findUnique := fun uid => Returns (Some {| user_id := "db-" +:+ uid |});
     generation_create := create;
     Date_now_start := 1764323600000;
     Date_now := 1764323600123;
     Math_random_suffix := "k3j9x0q1z";
     search_order := [2; 0]%nat;
     selection_order := [1]%nat;
     write_order := [];
     store_order := [] |}.

Definition fresh : World := {| calls := []; generations := [] |}.

Definition compiled : JsVal := JsString "my code finally compiled".

(** Three stored records: two of one group, one legacy record. *)
Definition record (i text : string) (at_ : Z) (p g : option string)
  : History.Generation :=
  {| History.id := i; History.inputText := text;
     History.keywords := ["deploy"]; History.topic := None;
     History.gifUrl := "https://media.giphy.com/" +:+ i;
     History.gifTitle := i; History.createdAt := at_;
     History.perspective := p; History.generationGroupId := g |}.

Definition a : History.Generation :=
  record "a" "deploy on friday" 1764323600200 (Some "literal") (Some "g").

Definition b : History.Generation :=
  record "b" "deploy on friday" 1764323600100 (Some "emotional") (Some "g").

Definition c : History.Generation :=
  record "c" "it works" 1700000000000 None None.

Definition history_env (profile : option DbUser) : History.Env :=
  {| History.auth := Returns (Some "user_2a");
     History.user_findUnique := fun _ => Returns profile;
     History.page_param := Some 1%Z;
     History.limit_param := Some 12%Z;
     History.generation_findMany := fun _ => Returns [a; b; c] |}.

End Samples.

(** * The stats route *)

Module Stats.

(** The profile row with its records, as [findUnique] with
    [include: { generations }] returns it. *)
Record User : Type := {
  createdAt : Z;
  generations : list History.Generation
}.

Inductive Body : Type :=
| ErrorBody (msg : string)
| StatsBody (totalGenerations todayGenerations daysActive : Z).

Record Response : Type := {
  status : Z;
  body : Body
}.

(** [today] is local midnight of the day of the request, what
    [setHours(0, 0, 0, 0)] leaves in [today]; [now] is the later
    [new Date().getTime()]. *)
Record Env : Type := {
  auth : outcome (option string);
  user_findUnique : string -> outcome (option User);
  today : Z;
  now : Z
}.

Definition Response_json (b : Body) (st : Z) : Response :=
  {| status := st; body := b |}.

(** [new Set(gens.map(g => g.generationGroupId || g.id))] *)
Definition groupSet (gens : list History.Generation) : gset string :=
  list_to_set (History.groupKey <$> gens).

Definition GET (e : Env) : M Response :=
  try_catch
    (let* userId := perform Call_auth (auth e) in
     match truthy userId with
     | None => ret (Response_json (ErrorBody "Unauthorized") 401)
     | Some userId =>
         let* user := perform (Call_user_findUnique userId) (user_findUnique e userId) in
         match user with
         | None => ret (Response_json (StatsBody 0 0 0) 200)
         | Some user =>
             let today := today e in
             let allGroups := groupSet (generations user) in
             let todayGenerations :=
               List.filter (fun g => (today <=? History.createdAt g)%Z)
                           (generations user) in
             let todayGroups := groupSet todayGenerations in
             let daysActive := ((now e - createdAt user) / (1000 * 60 * 60 * 24))%Z in
             ret (Response_json
                    (StatsBody (Z.of_nat (size allGroups))
                               (Z.of_nat (size todayGroups))
                               (Z.max 1 daysActive))
                    200)
         end
     end)
    (let* _ := perform (Call_console_error "Error fetching stats:") (Returns tt) in
     ret (Response_json (ErrorBody "Failed to fetch stats") 500)).

End Stats.

(** * The history page (client) *)

Module HistoryPage.

Record State : Type := {
  generations : list History.Group;
  isLoading : bool;
  page : Z;
  totalPages : Z
}.

(** [setPage((p) => Math.max(1, p - 1))] *)
Definition previous (s : State) : State :=
  {| generations := generations s;
     isLoading := isLoading s;
     page := Z.max 1 (page s - 1);
     totalPages := totalPages s |}.

(** [setPage((p) => Math.min(totalPages, p + 1))] *)
Definition next (s : State) : State :=
  {| generations := generations s;
     isLoading := isLoading s;
     page := Z.min (totalPages s) (page s + 1);
     totalPages := totalPages s |}.

(** [n || 1] on a number that may be missing, [null] or 0. *)
Definition or_one (n : option Z) : Z :=
  match n with
  | Some n => if (n =? 0)%Z then 1%Z else n
  | None => 1%Z
  end.

(** [fetchHistory] from the state it starts in to the state it leaves:
    [answer] is the parsed body, or a rejection of [fetch] or of
    [response.json()]. A body without [generations] or [pagination]
    (the error bodies) falls to the defaults [[]] and 1. *)
Definition fetchHistory (answer : outcome History.Body) (s : State) : State :=
  match answer with
  | Returns (History.HistoryBody gens pagination) =>
      {| generations := gens;
         isLoading := false;
         page := page s;
         totalPages :=
           or_one (match pagination with
                   | Some p => History.totalPages p
                   | None => None
                   end) |}
  | Returns (History.ErrorBody _) =>
      {| generations := []; isLoading := false; page := page s; totalPages := 1 |}
  | Throws =>
      {| generations := generations s; isLoading := false; page := page s;
         totalPages := totalPages s |}
  end.

End HistoryPage.

(** * The generator form (client) *)

Module GifGenerator.

(** A value caught by [catch (err)]: an [Error] with its message, or
    anything else. *)
Inductive Thrown : Type :=
| ErrorObject (message : string)
| NotAnError.

(** What the request to [/api/generate] comes back with. *)
Inductive Answer : Type :=
| FetchRejects (err : Thrown)
| JsonRejects (status : Z) (err : Thrown)
| Answered (status : Z) (data : Body).

Record State : Type := {
  input : string;
  result : option Body;
  error : option string;
  isPending : bool;
  trialUsed : bool
}.

(** The browser side: the [trial_used] entry of [localStorage] and the
    texts posted to the server. *)
Record Browser : Type := {
  trial_used : option string;
  posted : list string
}.

(** [blank] is [!input.trim()]; [toLocaleTimeString] renders
    [new Date(data.reset)], [None] standing for a body without [reset];
    [setItem] is the outcome of [localStorage.setItem]. *)
Record Env : Type := {
  user : bool;
  blank : string -> bool;
  toLocaleTimeString : option Z -> string;
  answer : Answer;
  setItem : option Thrown
}.

(** [response.ok] *)
Definition ok (status : Z) : bool := (200 <=? status)%Z && (status <=? 299)%Z.

(** [data.reset] *)
Definition data_reset (data : Body) : option Z :=
  match data with
  | RateLimitBody _ _ _ rst => Some rst
  | _ => None
  end.

(** [data.error] *)
Definition data_error (data : Body) : option string :=
  match data with
  | ErrorBody msg => Some msg
  | RateLimitBody msg _ _ _ => Some msg
  | DataBody _ => None
  end.

(** [err instanceof Error ? err.message : "Something went wrong"] *)
Definition message_of (err : Thrown) : string :=
  match err with
  | ErrorObject message => message
  | NotAnError => "Something went wrong"
  end.

(** The effect on mount: read the trial flag back from [localStorage]. *)
Definition mount (b : Browser) (s : State) : State :=
  match b with
  | {| trial_used := Some used |} =>
      if String.eqb used "true" then
        {| input := input s; result := result s; error := error s;
           isPending := isPending s; trialUsed := true |}
      else s
  | _ => s
  end.

Definition handleSubmit (e : Env) (s : State) (b : Browser) : State * Browser :=
  if blank e (input s) || isPending s then (s, b)
  else
    (* setError(null); setResult(null); setIsPending(true); fetch *)
    let b := {| trial_used := trial_used b; posted := posted b ++ [input s] |} in
    match answer e with
    | FetchRejects err | JsonRejects _ err =>
        ({| input := input s; result := None; error := Some (message_of err);
            isPending := false; trialUsed := trialUsed s |}, b)
    | Answered status data =>
        if negb (ok status) then
          let msg :=
            if (status =? 429)%Z then
              "Rate limit exceeded. Resets at "
              +:+ toLocaleTimeString e (data_reset data)
            else or_else (data_error data) "Something went wrong" in
          ({| input := input s; result := None; error := Some msg;
              isPending := false; trialUsed := trialUsed s |}, b)
        else if negb (user e) then
          match setItem e with
          | None =>
              ({| input := input s; result := Some data; error := None;
                  isPending := false; trialUsed := true |},
               {| trial_used := Some "true"; posted := posted b |})
          | Some err =>
              ({| input := input s; result := Some data;
                  error := Some (message_of err);
                  isPending := false; trialUsed := trialUsed s |}, b)
          end
        else
          ({| input := input s; result := Some data; error := None;
              isPending := false; trialUsed := trialUsed s |}, b)
    end.

(** [user || (!user && !trialUsed)] *)
Definition canGenerate (e : Env) (s : State) : bool :=
  user e || (negb (user e) && negb (trialUsed s)).

(** [!user && trialUsed && isLoaded] *)
Definition showTrialPrompt (e : Env) (isLoaded : bool) (s : State) : bool :=
  negb (user e) && trialUsed s && isLoaded.

End GifGenerator.

(** * Sharing a GIF (client) *)

Module GifActions.

(** A value caught by [catch (err)]: whether it is an [Error], and its
    [name]. *)
Record Thrown : Type := {
  instanceofError : bool;
  name : string
}.

Inductive settled (A : Type) : Type :=
| Fulfils (a : A)
| Rejects (err : Thrown).
Arguments Fulfils {A} a.
Arguments Rejects {A} err.

(** What [shareGif] does to the page and the device. *)
Inductive effect : Type :=
| Fetch (url : string)
| ShareFiles (fileName title text : string)
| ShareUrl (title text url : string)
| WriteText (text : string)
| ToastSuccess (msg : string)
| ToastError (msg : string).

(** [fetch] fulfils when both [fetch] and [response.blob()] do, and
    yields a handle on the blob; [share] is [None] when
    [navigator.share] is missing, [canShare] is [None] when
    [navigator.canShare] is missing. The [File] constructor and
    [navigator.canShare] are taken not to throw. *)
Record Env : Type := {
  fetch : string -> settled string;
  Date_now : Z;
  share : option (settled unit);
  canShare : option bool;
  writeText : settled unit
}.

Definition fileName (perspective : string) (now : Z) : string :=
  "reaction-" +:+ perspective +:+ "-" +:+ Number_toString now +:+ ".gif".

(** The [catch] block of [shareGif]. *)
Definition share_failed (err : Thrown) : list effect :=
  if instanceofError err && negb (String.eqb (name err) "AbortError")
  then [ToastError "Share failed"]
  else [].

Definition shareGif (e : Env) (url title perspective : string) : list effect :=
  let shareTitle := perspective +:+ " Reaction GIF" in
  let shareText :=
    or_else (Some title) ("Check out this " +:+ perspective +:+ " reaction GIF!") in
  match share e with
  | Some shared =>
      match fetch e url with
      | Rejects err => Fetch url :: share_failed err
      | Fulfils _ =>
          if match canShare e with Some true => true | _ => false end then
            match shared with
            | Fulfils _ =>
                [Fetch url;
                 ShareFiles (fileName perspective (Date_now e)) shareTitle shareText;
                 ToastSuccess "Shared successfully!"]
            | Rejects err =>
                Fetch url
                :: ShareFiles (fileName perspective (Date_now e)) shareTitle shareText
                :: share_failed err
            end
          else
            match shared with
            | Fulfils _ =>
                [Fetch url; ShareUrl shareTitle shareText url;
                 ToastSuccess "Link shared!"]
            | Rejects err =>
                Fetch url :: ShareUrl shareTitle shareText url :: share_failed err
            end
      end
  | None =>
      match writeText e with
      | Fulfils _ => [WriteText url; ToastSuccess "Link copied!"]
      | Rejects err => WriteText url :: share_failed err
      end
  end.

End GifActions.

(** * Specification-level notions *)

(** What [Promise.all] yields, told without the settling order: the
    values in task order, or a rejection when some task rejects. *)
Fixpoint join {B} (outs : list (outcome B)) : outcome (list B) :=
  match outs with
  | [] => Returns []
  | Returns v :: rest =>
      match join rest with
      | Returns vs => Returns (v :: vs)
      | Throws => Throws
      end
  | Throws :: _ => Throws
  end.

Definition is_create (c : call) : bool :=
  match c with
  | Call_generation_create _ => true
  | _ => false
  end.

(** Calls that spend reasoning-service or search budget, or write to the
    [generations] table. *)
Definition costly (c : call) : bool :=
  match c with
  | Call_generateStrategies _ | Call_fetch _ | Call_generateSelection _ _
  | Call_generation_create _ => true
  | _ => false
  end.

(** From [w] to [w'] the [generations] table is untouched and none of the
    calls made is one that [P] marks. *)
Definition adds (P : call -> bool) (w w' : World) : Prop :=
  generations w' = generations w /\
  exists new, calls w' = calls w ++ new /\ Forall (fun c => P c = false) new.

(** Nothing written, no create call attempted. *)
Abbreviation quiet := (adds is_create).

(** Filling the slot of task [i] with its value. *)
Definition fill {B} (vs : list B) (slots : list (option B)) (i : nat)
  : list (option B) :=
  match vs !! i with
  | Some v => <[i := Some v]> slots
  | None => slots
  end.

(** Slots hold nothing but the value of their own task. *)
Definition sound {B} (vs : list B) (slots : list (option B)) : Prop :=
  length slots = length vs /\
  forall i x, slots !! i = Some (Some x) -> vs !! i = Some x.

(** The run of the generation route from world [w0] gets as far as the
    aggregation: the caller is [userId], the quota gate lets the request
    through with rate-limit figures [rl], the body carries the non-empty
    string [text], the reasoning service derives [strategies], the Giphy
    key is configured, and the two fan-outs hand over [selections],
    leaving the world at [w]. *)
Definition reaches (e : Generate.Env) (w0 : World) (userId : option string)
  (rl : Z * Z * Z) (text : string) (strategies : list Strategy)
  (selections : list Selection) (w : World) : Prop :=
  Generate.auth e = Returns userId /\
  Generate.request_json e = Returns (JsString text) /\
  text <> "" /\
  Generate.generateObject Generate.strategiesSchema
    (Generate.generateStrategies e text) = Returns strategies /\
  truthy (Generate.GIPHY_API_KEY e) <> None /\
  exists w1,
    Generate.quota_gate e userId (log Call_auth w0) = (Returns (inr rl), w1) /\
    Generate.selectAll e text strategies
      (log (Call_generateStrategies text) (log Call_request_json w1))
    = (Returns selections, w).

(** The candidates the search of strategy [s] comes back with: the hits
    of an answer that is ok and parses, none otherwise. *)
Definition candidates (e : Generate.Env) (s : Strategy) : list Gif :=
  match Generate.fetch e (Generate.searchQuery s) with
  | Generate.FetchResponse true (Returns data) => default [] data
  | _ => []
  end.

Definition has_candidates (e : Generate.Env) (s : Strategy) : bool :=
  match candidates e s with
  | [] => false
  | _ :: _ => true
  end.

(** Selection [v] is the one of strategy [s]: it carries [s], and it has
    a chosen GIF exactly when the search of [s] had candidates. *)
Definition selection_of (e : Generate.Env) (s : Strategy) (v : Selection) : Prop :=
  strategy v = s /\ (selectedGif v = None <-> candidates e s = []).

(** The entries of the response, read off the selections. *)
Definition entriesOf (selections : list Selection) : list ResultEntry :=
  omap (fun s => Generate.resultEntry s <$> selectedGif s) selections.

(** The response that [respond] builds. *)
Definition responseOf (userId : option string) (rl : Z * Z * Z)
  (selections : list Selection) : Response :=
  let '(limit, reset, remaining) := rl in
  let d rateLimit :=
    {| results := entriesOf selections;
       totalFound := Z.of_nat (length (Generate.successfulSelections selections));
       requestedPerspectives := 3;
       rateLimit := rateLimit |} in
  match truthy userId with
  | Some _ =>
      Response_json
        (DataBody (d (Some {| info_remaining := remaining; info_limit := limit;
                              info_reset := reset |})))
        200
        [("X-RateLimit-Limit", Number_toString limit);
         ("X-RateLimit-Remaining", Number_toString remaining);
         ("X-RateLimit-Reset", Number_toString reset)]
  | None => Response_json (DataBody (d None)) 200 []
  end.

(** The rank the history route gives a perspective. *)
Definition rankOf (p : string) : Z :=
  match History.order p with
  | History.Own n => n
  | _ => 999%Z
  end.

(** No character of [s] is [c]. *)
Fixpoint free_of (c : ascii) (s : string) : bool :=
  match s with
  | EmptyString => true
  | String a s' => negb (Ascii.eqb a c) && free_of c s'
  end.

(** The records of [l] that the history route files under key [k]. *)
Definition keyed (k : string) (l : list History.Generation)
  : list History.Generation :=
  List.filter (fun gen => String.eqb (History.groupKey gen) k) l.

(** What the [Map] holds once the records of [l] are in. *)
Definition grouped_inv (l : list History.Generation) (m : History.GroupMap)
  : Prop :=
  NoDup m.*1
  /\ (forall k v, In (k, v) m -> v = keyed k l /\ v <> [])
  /\ (forall x, In x l -> In (History.groupKey x) m.*1).


(** The rank of the record is a number. *)
Definition ranked (g : History.Generation) : Prop := History.rank g <> None.


(** The same environment with other settling orders. *)
Definition with_orders (e : Generate.Env) (s1 s2 s3 : list nat) : Generate.Env :=
  {| Generate.auth := Generate.auth e;
     Generate.ratelimit_limit := Generate.ratelimit_limit e;
     Generate.currentUser := Generate.currentUser e;
     Generate.user_upsert := Generate.user_upsert e;
     Generate.request_json := Generate.request_json e;
     Generate.generateStrategies := Generate.generateStrategies e;
     Generate.GIPHY_API_KEY := Generate.GIPHY_API_KEY e;
     Generate.fetch := Generate.fetch e;
     Generate.generateSelection := Generate.generateSelection e;
     Generate.user_findUnique := Generate.user_findUnique e;
     Generate.generation_create := Generate.generation_create e;
     Generate.Date_now_start := Generate.Date_now_start e;
     Generate.Date_now := Generate.Date_now e;
     Generate.Math_random_suffix := Generate.Math_random_suffix e;
     Generate.search_order := s1;
     Generate.selection_order := s2;
     Generate.write_order := s3;
     Generate.store_order := Generate.store_order e |}.

(** The first record filed under each key of the [Map], in the order of
    the entries. *)
Definition firsts (m : History.GroupMap) : list History.Generation :=
  omap (fun kv => head kv.2) m.

(** Newest first. *)
Definition newer (a b : History.Generation) : Prop :=
  (History.createdAt b <= History.createdAt a)%Z.

(** [Math.ceil(n / d)] for [d >= 1]. *)
Definition pages (n d : Z) : Z := ((n + d - 1) / d)%Z.

(** Calls that only an identified caller's request makes: the limiter,
    the Clerk profile, the upsert, the profile lookup and the writes. *)
Definition identity_call (c : call) : bool :=
  match c with
  | Call_ratelimit _ | Call_currentUser | Call_user_upsert _ _
  | Call_user_findUnique _ | Call_generation_create _ => true
  | _ => false
  end.

(** Calls outside the two fan-outs. *)
Definition off_stage (c : call) : bool :=
  match c with
  | Call_fetch _ | Call_generateSelection _ _ | Call_console_error _ => false
  | _ => true
  end.


(** Calls that come after the strategies are derived. *)
Definition after_strategies (c : call) : bool :=
  match c with
  | Call_fetch _ | Call_generateSelection _ _ | Call_user_findUnique _
  | Call_generation_create _ => true
  | _ => false
  end.


(** The perspectives of the writes attempted in a log, in order. *)
Definition creates (cs : list call) : list string :=
  omap (fun c => match c with
                 | Call_generation_create d => Some (data_perspective d)
                 | _ => None
                 end) cs.

(** The rows of one group, read off the selections. *)
Definition rowsOf (dbUser : DbUser) (text groupId : string)
  (selections : list Selection) : list GenerationData :=
  omap (fun s => Generate.generationData dbUser text groupId s <$> selectedGif s)
       selections.

(** The rows whose write fulfils. *)
Definition written (e : Generate.Env) (rows : list GenerationData)
  : list GenerationData :=
  List.filter (fun d => match Generate.generation_create e d with
                        | Returns _ => true
                        | Throws => false
                        end) rows.

(** The bodies the generation route answers with. *)
Definition rejected_429 (rr : RateLimitResult) : Response :=
  Response_json
    (RateLimitBody "Rate limit exceeded. You've used all 10 generations for today."
       (limit rr) 0 (reset rr))
    429
    [("X-RateLimit-Limit", Number_toString (limit rr));
     ("X-RateLimit-Remaining", "0");
     ("X-RateLimit-Reset", Number_toString (reset rr))].

Definition text_required_400 : Response :=
  Response_json (ErrorBody "Text input is required") 400 [].

Definition no_key_500 : Response :=
  Response_json (ErrorBody "Giphy API key not configured") 500 [].

Definition not_found_404 : Response :=
  Response_json
    (ErrorBody "No GIFs found for any perspective. Please try a different description.")
    404 [].

Definition failed_500 : Response :=
  Response_json (ErrorBody "Failed to generate GIF recommendation") 500 [].

(** Selection [v] is the one of strategy [s] and its GIF, if any, is one
    of the candidates of the search of [s]. *)
Definition chosen_of (e : Generate.Env) (s : Strategy) (v : Selection) : Prop :=
  strategy v = s /\ forall g, selectedGif v = Some g -> In g (candidates e s).

(** Row and entry tell of the same GIF. *)
Definition same_gif (row : GenerationData) (entry : ResultEntry) : Prop :=
  data_gifUrl row = result_url entry
  /\ data_gifTitle row = result_title entry
  /\ data_perspective row = result_perspective entry
  /\ data_reasoning row = result_reasoning entry
  /\ data_keywords row = result_keywords entry
  /\ data_topic row = result_topic entry.

(** The same environment with no profile row behind any Clerk id. *)
Definition without_profile (e : Generate.Env) : Generate.Env :=
  {| Generate.auth := Generate.auth e;
     Generate.ratelimit_limit := Generate.ratelimit_limit e;
     Generate.currentUser := Generate.currentUser e;
     Generate.user_upsert := Generate.user_upsert e;
     Generate.request_json := Generate.request_json e;
     Generate.generateStrategies := Generate.generateStrategies e;
     Generate.GIPHY_API_KEY := Generate.GIPHY_API_KEY e;
     Generate.fetch := Generate.fetch e;
     Generate.generateSelection := Generate.generateSelection e;
     Generate.user_findUnique := fun _ => Returns None;
     Generate.generation_create := Generate.generation_create e;
     Generate.Date_now_start := Generate.Date_now_start e;
     Generate.Date_now := Generate.Date_now e;
     Generate.Math_random_suffix := Generate.Math_random_suffix e;
     Generate.search_order := Generate.search_order e;
     Generate.selection_order := Generate.selection_order e;
     Generate.write_order := Generate.write_order e;
     Generate.store_order := Generate.store_order e |}.

(** The same environment with a store that inserts concurrent rows in
    the order [sched]. *)
Definition with_store_order (e : Generate.Env) (sched : list nat) : Generate.Env :=
  {| Generate.auth := Generate.auth e;
     Generate.ratelimit_limit := Generate.ratelimit_limit e;
     Generate.currentUser := Generate.currentUser e;
     Generate.user_upsert := Generate.user_upsert e;
     Generate.request_json := Generate.request_json e;
     Generate.generateStrategies := Generate.generateStrategies e;
     Generate.GIPHY_API_KEY := Generate.GIPHY_API_KEY e;
     Generate.fetch := Generate.fetch e;
     Generate.generateSelection := Generate.generateSelection e;
     Generate.user_findUnique := Generate.user_findUnique e;
     Generate.generation_create := Generate.generation_create e;
     Generate.Date_now_start := Generate.Date_now_start e;
     Generate.Date_now := Generate.Date_now e;
     Generate.Math_random_suffix := Generate.Math_random_suffix e;
     Generate.search_order := Generate.search_order e;
     Generate.selection_order := Generate.selection_order e;
     Generate.write_order := Generate.write_order e;
     Generate.store_order := sched |}.

(** The same environment with [GIPHY_API_KEY] set to [key]. *)
Definition with_key (e : Generate.Env) (key : option string) : Generate.Env :=
  {| Generate.auth := Generate.auth e;
     Generate.ratelimit_limit := Generate.ratelimit_limit e;
     Generate.currentUser := Generate.currentUser e;
     Generate.user_upsert := Generate.user_upsert e;
     Generate.request_json := Generate.request_json e;
     Generate.generateStrategies := Generate.generateStrategies e;
     Generate.GIPHY_API_KEY := key;
     Generate.fetch := Generate.fetch e;
     Generate.generateSelection := Generate.generateSelection e;
     Generate.user_findUnique := Generate.user_findUnique e;
     Generate.generation_create := Generate.generation_create e;
     Generate.Date_now_start := Generate.Date_now_start e;
     Generate.Date_now := Generate.Date_now e;
     Generate.Math_random_suffix := Generate.Math_random_suffix e;
     Generate.search_order := Generate.search_order e;
     Generate.selection_order := Generate.selection_order e;
     Generate.write_order := Generate.write_order e;
     Generate.store_order := Generate.store_order e |}.

(** The toasts among the effects of a share. *)
Definition toasts (effs : list GifActions.effect) : list GifActions.effect :=
  List.filter (fun f => match f with
                        | GifActions.ToastSuccess _ | GifActions.ToastError _ => true
                        | _ => false
                        end) effs.

(** * Lemmas on [Promise.all] *)

Section PromiseAll.
Context {B : Type}.
Implicit Types (outs : list (outcome B)) (vs : list B)
  (slots : list (option B)) (order : list nat).

Lemma settle_rejects order outs slots i :
  i ∈ order -> outs !! i = Some Throws -> settle order outs slots = Throws.
Proof.
  intros Hin Hi. revert slots.
  induction order as [|j order IH]; intros slots; [by apply elem_of_nil in Hin|].
  simpl. destruct (outs !! j) as [[v|]|] eqn:Hj; try done.
  - apply IH. apply elem_of_cons in Hin as [->|]; [congruence|done].
  - apply IH. apply elem_of_cons in Hin as [->|]; [congruence|done].
Qed.

Lemma settle_fulfils order vs slots :
  settle order (Returns <$> vs) slots = Returns (foldl (fill vs) slots order).
Proof.
  revert slots. induction order as [|j order IH]; intros slots; [done|].
  simpl. rewrite list_lookup_fmap. unfold fill at 2.
  destruct (vs !! j); simpl; apply IH.
Qed.

Lemma fill_sound vs slots j : sound vs slots -> sound vs (fill vs slots j).
Proof.
  intros [Hlen Hs]. unfold fill.
  destruct (vs !! j) as [v|] eqn:Hj; [|done].
  split; [by rewrite length_insert|].
  intros i x. destruct (decide (j = i)) as [->|Hne].
  - rewrite list_lookup_insert_eq; [congruence|].
    rewrite Hlen. by eapply lookup_lt_Some.
  - rewrite list_lookup_insert_ne; [apply Hs|done].
Qed.

Lemma foldl_fill_sound vs order slots :
  sound vs slots -> sound vs (foldl (fill vs) slots order).
Proof.
  revert slots. induction order as [|j order IH]; intros slots H; [done|].
  simpl. by apply IH, fill_sound.
Qed.

Lemma fill_keeps vs slots i j v :
  sound vs slots -> slots !! i = Some (Some v) ->
  fill vs slots j !! i = Some (Some v).
Proof.
  intros [Hlen Hs] Hi. unfold fill.
  destruct (vs !! j) as [x|] eqn:Hj; [|done].
  destruct (decide (j = i)) as [->|Hne].
  - rewrite list_lookup_insert_eq; [|by eapply lookup_lt_Some].
    apply Hs in Hi. congruence.
  - by rewrite list_lookup_insert_ne.
Qed.

Lemma foldl_fill_keeps vs order slots i v :
  sound vs slots -> slots !! i = Some (Some v) ->
  foldl (fill vs) slots order !! i = Some (Some v).
Proof.
  revert slots. induction order as [|j order IH]; intros slots H Hi; [done|].
  simpl. apply IH; [by apply fill_sound|by apply fill_keeps].
Qed.

Lemma foldl_fill_reaches vs order slots i v :
  sound vs slots -> i ∈ order -> vs !! i = Some v ->
  foldl (fill vs) slots order !! i = Some (Some v).
Proof.
  revert slots. induction order as [|j order IH]; intros slots H Hin Hv;
    [by apply elem_of_nil in Hin|].
  simpl. destruct (decide (j = i)) as [->|Hne].
  - apply foldl_fill_keeps; [by apply fill_sound|].
    unfold fill. rewrite Hv. apply list_lookup_insert_eq.
    destruct H as [-> _]. by eapply lookup_lt_Some.
  - apply IH; [by apply fill_sound| |done].
    apply elem_of_cons in Hin as [?|?]; [congruence|done].
Qed.

Lemma omap_id_Some vs : omap id (Some <$> vs) = vs.
Proof. induction vs as [|v vs IH]; [done|]. csimpl. by rewrite IH. Qed.

Lemma join_fulfils vs : join (Returns <$> vs) = Returns vs.
Proof. induction vs as [|v vs IH]; [done|]. rewrite fmap_cons. simpl. by rewrite IH. Qed.

Lemma join_cases outs :
  (exists vs, outs = Returns <$> vs) \/ (exists i, outs !! i = Some Throws).
Proof.
  induction outs as [|[v|] outs [[vs ->]|[i Hi]]].
  - left. by exists [].
  - left. by exists (v :: vs).
  - right. by exists (S i).
  - right. by exists 0%nat.
  - right. by exists 0%nat.
Qed.

Lemma join_rejects outs i : outs !! i = Some Throws -> join outs = Throws.
Proof.
  revert i. induction outs as [|[v|] outs IH]; intros [|i] Hi; try done.
  simpl in *. by rewrite (IH i Hi).
Qed.

(** The settling order has no say in what [Promise.all] yields. *)
Lemma Promise_all_join sched outs : Promise_all sched outs = join outs.
Proof.
  unfold Promise_all.
  destruct (join_cases outs) as [[vs ->]|[i Hi]].
  - rewrite settle_fulfils, join_fulfils, length_fmap. f_equal.
    transitivity (omap id (Some <$> vs)); [f_equal|apply omap_id_Some].
    assert (Hs : sound vs (foldl (fill vs) (replicate (length vs) None)
                            (sched ++ seq 0 (length vs)))).
    { apply foldl_fill_sound. split; [by rewrite length_replicate|].
      intros j x Hj. apply lookup_replicate in Hj as [? _]. done. }
    apply list_eq. intros j. rewrite list_lookup_fmap.
    destruct (vs !! j) as [v|] eqn:Hj; simpl.
    + apply foldl_fill_reaches; [|  |done].
      * split; [by rewrite length_replicate|].
        intros k x Hk. apply lookup_replicate in Hk as [? _]. done.
      * apply elem_of_app. right. apply elem_of_seq.
        apply lookup_lt_Some in Hj. lia.
    + apply lookup_ge_None. destruct Hs as [-> _]. by apply lookup_ge_None.
  - rewrite (join_rejects _ _ Hi).
    rewrite (settle_rejects _ _ _ i); [done| |done].
    apply elem_of_app. right. apply elem_of_seq.
    apply lookup_lt_Some in Hi. lia.
Qed.

End PromiseAll.

(** * Lemmas on the fan-out stages *)

Section Adds.
Variable P : call -> bool.

Lemma adds_refl w : adds P w w.
Proof. split; [done|]. exists []. by rewrite app_nil_r. Qed.

Lemma adds_trans w1 w2 w3 : adds P w1 w2 -> adds P w2 w3 -> adds P w1 w3.
Proof.
  intros [Hg1 (n1 & Hc1 & Hn1)] [Hg2 (n2 & Hc2 & Hn2)].
  split; [congruence|]. exists (n1 ++ n2).
  split; [by rewrite Hc2, Hc1, app_assoc|by apply Forall_app].
Qed.

Lemma adds_log c w : P c = false -> adds P w (log c w).
Proof. intros Hc. split; [done|]. exists [c]. split; [done|]. by constructor. Qed.

End Adds.

Lemma adds_weaken (P Q : call -> bool) w w' :
  (forall c, P c = false -> Q c = false) -> adds P w w' -> adds Q w w'.
Proof.
  intros HPQ [Hg (new & Hc & Hn)]. split; [done|]. exists new. split; [done|].
  eapply Forall_impl; [exact Hn|]. exact HPQ.
Qed.

Lemma costly_quiet w w' : adds costly w w' -> quiet w w'.
Proof. apply adds_weaken. by intros []. Qed.

Ltac adds_steps :=
  repeat first
    [ apply adds_refl
    | apply adds_log; reflexivity
    | eapply adds_trans; [|apply adds_log; reflexivity] ].

Lemma bind_ext {A B} (m1 m2 : M A) (k1 k2 : A -> M B) w :
  m1 w = m2 w -> (forall a w', k1 a w' = k2 a w') -> bind m1 k1 w = bind m2 k2 w.
Proof. intros Hm Hk. unfold bind. rewrite Hm. destruct (m2 w) as [[a|] w']; [apply Hk|done]. Qed.

Lemma try_catch_ext {A} (m1 m2 h1 h2 : M A) w :
  m1 w = m2 w -> (forall w', h1 w' = h2 w') -> try_catch m1 h1 w = try_catch m2 h2 w.
Proof. intros Hm Hh. unfold try_catch. rewrite Hm. destruct (m2 w) as [[a|] w']; [done|apply Hh]. Qed.

Section FanOut.
Context {A B : Type} (task : A -> M B) (R : A -> B -> Prop).

(** A task that always fulfils, relates its input to its value by [R]
    and writes no row. *)
Hypothesis task_run :
  forall a w, exists b w', task a w = (Returns b, w') /\ R a b /\ quiet w w'.

Lemma fire_run l w :
  exists bs w',
    fire task l w = (Returns <$> bs, w') /\ Forall2 R l bs /\ quiet w w'.
Proof.
  revert w. induction l as [|a l IH]; intros w.
  - exists [], w. split; [done|]. split; [constructor|apply adds_refl].
  - destruct (task_run a w) as (b & w1 & Ht & HR & Hq1).
    destruct (IH w1) as (bs & w2 & Hf & HF & Hq2).
    exists (b :: bs), w2. simpl. rewrite Ht, Hf.
    split; [done|]. split; [by constructor|by eapply adds_trans].
Qed.

Lemma Promise_all_map_run sched l w :
  exists bs w',
    Promise_all_map sched task l w = (Returns bs, w') /\ Forall2 R l bs
    /\ quiet w w'.
Proof.
  destruct (fire_run l w) as (bs & w' & Hf & HF & Hq).
  exists bs, w'. unfold Promise_all_map. rewrite Hf.
  by rewrite Promise_all_join, join_fulfils.
Qed.

End FanOut.

Lemma Promise_all_map_sched {A B} s1 s2 (task : A -> M B) l w :
  Promise_all_map s1 task l w = Promise_all_map s2 task l w.
Proof.
  unfold Promise_all_map. destruct (fire task l w). by rewrite !Promise_all_join.
Qed.

Section Stages.
Import Generate.
Variable e : Env.

Lemma searchTask_run s w :
  exists r w',
    searchTask e s w = (Returns r, w')
    /\ (search_strategy r = s /\ gifs r = candidates e s)
    /\ quiet w w'.
Proof.
  unfold searchTask, candidates, bind, perform, ret.
  destruct (fetch e _) as [|[] [data|]]; simpl;
    eexists _, _; (split; [reflexivity|]); (split; [by split|]);
    adds_steps.
Qed.

Lemma selectionTask_run text r w :
  exists v w',
    selectionTask e text r w = (Returns v, w')
    /\ (strategy v = search_strategy r
        /\ (selectedGif v = None <-> gifs r = []))
    /\ quiet w w'.
Proof.
  unfold selectionTask.
  destruct (gifs r) as [|gif0 rest] eqn:Hg.
  - eexists _, w. unfold ret. split; [reflexivity|]. simpl.
    split; [by split|apply adds_refl].
  - unfold try_catch, bind, perform, ret.
    destruct (generateObject _ _) as [sel|]; simpl; eexists _, _;
      (split; [reflexivity|]); simpl; (split; [repeat split; intros; done|]);
      adds_steps.
Qed.

Lemma selectAll_run text strategies w :
  exists selections w',
    selectAll e text strategies w = (Returns selections, w')
    /\ Forall2 (selection_of e) strategies selections
    /\ quiet w w'.
Proof.
  unfold selectAll, bind.
  destruct (Promise_all_map_run (searchTask e)
              (fun s r => search_strategy r = s /\ gifs r = candidates e s)
              (searchTask_run) (search_order e) strategies w)
    as (rs & w1 & -> & Hrs & Hq1).
  destruct (Promise_all_map_run (selectionTask e text)
              (fun r v => strategy v = search_strategy r
                          /\ (selectedGif v = None <-> gifs r = []))
              (selectionTask_run text) (selection_order e) rs w1)
    as (vs & w2 & -> & Hvs & Hq2).
  exists vs, w2. split; [done|]. split; [|by eapply adds_trans].
  clear -Hrs Hvs. revert vs Hvs.
  induction Hrs as [|s r strategies rs [Hs Hc] _ IH]; intros vs Hvs;
    inversion Hvs as [|? v ? vs' [Hv Hn] Hvs']; subst; constructor.
  - split; [done|]. by rewrite Hn, Hc.
  - by apply IH.
Qed.

Lemma selection_of_strategies strategies selections :
  Forall2 (selection_of e) strategies selections ->
  strategy <$> selections = strategies.
Proof.
  induction 1 as [|s v strategies selections [Hs _] _ IH]; [done|].
  rewrite fmap_cons. by rewrite Hs, IH.
Qed.

(** The successful selections are those of the strategies whose search
    had candidates, in the order of the strategies. *)
Lemma selection_of_successful strategies selections :
  Forall2 (selection_of e) strategies selections ->
  strategy <$> successfulSelections selections
  = List.filter (has_candidates e) strategies.
Proof.
  unfold successfulSelections, has_candidates.
  induction 1 as [|s v strategies selections [Hs Hc] _ IH]; [done|].
  simpl. destruct (selectedGif v) as [g|] eqn:Hv; simpl.
  - destruct (candidates e s) eqn:Hcs.
    + pose proof (proj2 Hc eq_refl). discriminate.
    + f_equal; [exact Hs|exact IH].
  - rewrite (proj1 Hc eq_refl). exact IH.
Qed.

End Stages.

(** * Lemmas on the generation route *)

Section Route.
Import Generate.
Variable e : Env.

Lemma mapM_deref {C} (f : Selection -> Gif -> C) selections w :
  mapM (fun s => let* gif := deref s in ret (f s gif))
       (successfulSelections selections) w
  = (Returns (omap (fun s => f s <$> selectedGif s) selections), w).
Proof.
  unfold successfulSelections.
  induction selections as [|s selections IH]; [done|].
  simpl. csimpl. destruct (selectedGif s) as [g|] eqn:Hs; simpl.
  - unfold bind at 1 2. unfold deref at 1. rewrite Hs. unfold ret at 1 2.
    unfold bind at 1. rewrite IH. done.
  - apply IH.
Qed.

Lemma successful_length selections :
  length (successfulSelections selections) = length (entriesOf selections).
Proof.
  unfold successfulSelections, entriesOf.
  induction selections as [|s selections IH]; [done|].
  simpl. csimpl. destruct (selectedGif s); simpl; [f_equal|]; exact IH.
Qed.

Lemma respond_run userId rl selections w :
  respond userId rl (successfulSelections selections) w
  = (Returns (responseOf userId rl selections), w).
Proof.
  unfold respond, responseOf. destruct rl as [[lim rst] rem].
  unfold bind at 1. rewrite mapM_deref. fold (entriesOf selections).
  by destruct (truthy userId).
Qed.

Lemma POST_reaches w0 userId rl text strategies selections w :
  reaches e w0 userId rl text strategies selections w ->
  POST e w0 = try_catch (aggregate e userId rl text selections) on_error w.
Proof.
  intros (Hauth & Hjson & Htext & Hstr & Hkey & w1 & Hgate & Hsel).
  unfold POST, try_catch at 1. unfold bind at 1. unfold perform at 1.
  rewrite Hauth. unfold bind at 1. rewrite Hgate.
  unfold generate, bind at 1, perform at 1. rewrite Hjson. simpl.
  apply String.eqb_neq in Htext. rewrite Htext. simpl.
  unfold bind at 1, perform at 1. rewrite Hstr.
  destruct (truthy (GIPHY_API_KEY e)); [|done].
  unfold bind at 1. rewrite Hsel. done.
Qed.

Lemma quota_gate_frugal userId w r w' :
  quota_gate e userId w = (r, w') -> adds costly w w'.
Proof.
  unfold quota_gate. destruct (truthy userId) as [uid|].
  - unfold bind, perform, ret.
    destruct (ratelimit_limit e uid) as [rr|]; [|intros [= _ <-]; adds_steps].
    destruct (success rr); simpl.
    + destruct (currentUser e); [|intros [= _ <-]; adds_steps].
      destruct (user_upsert e uid _); intros [= _ <-]; adds_steps.
    + intros [= _ <-]; adds_steps.
  - intros [= _ <-]; adds_steps.
Qed.

Lemma reaches_quiet w0 userId rl text strategies selections w :
  reaches e w0 userId rl text strategies selections w -> quiet w0 w.
Proof.
  intros (_ & _ & _ & _ & _ & w1 & Hgate & Hsel).
  apply quota_gate_frugal, costly_quiet in Hgate.
  destruct (selectAll_run e text strategies
              (log (Call_generateStrategies text) (log Call_request_json w1)))
    as (vs & w2 & Hrun & _ & Hq).
  rewrite Hsel in Hrun. injection Hrun as <- <-.
  eapply adds_trans; [|exact Hq].
  eapply adds_trans; [|apply adds_log; reflexivity].
  eapply adds_trans; [|apply adds_log; reflexivity].
  eapply adds_trans; [|exact Hgate]. adds_steps.
Qed.

Lemma reaches_selections w0 userId rl text strategies selections w :
  reaches e w0 userId rl text strategies selections w ->
  Forall2 (selection_of e) strategies selections.
Proof.
  intros (_ & _ & _ & _ & _ & w1 & _ & Hsel).
  destruct (selectAll_run e text strategies
              (log (Call_generateStrategies text) (log Call_request_json w1)))
    as (vs & w2 & Hrun & Hvs & _).
  rewrite Hsel in Hrun. by injection Hrun as <- <-.
Qed.

Lemma reaches_strategies w0 userId rl text strategies selections w :
  reaches e w0 userId rl text strategies selections w ->
  strategy <$> selections = strategies /\ length strategies = 3%nat.
Proof.
  intros Hreach. split.
  { eapply selection_of_strategies, reaches_selections, Hreach. }
  destruct Hreach as (_ & _ & _ & Hstr & _).
  unfold generateObject in Hstr.
  destruct (generateStrategies e text) as [l|]; [|done].
  destruct (strategiesSchema l) eqn:Hs; [|done].
  injection Hstr as ->. unfold strategiesSchema in Hs.
  apply andb_prop in Hs as [Hlen _]. by apply Nat.eqb_eq in Hlen.
Qed.

Lemma successful_strategies w0 userId rl text strategies selections w :
  reaches e w0 userId rl text strategies selections w ->
  strategy <$> successfulSelections selections
  = List.filter (has_candidates e) strategies.
Proof. intros Hreach. eapply selection_of_successful, reaches_selections, Hreach. Qed.

Lemma no_candidates_no_success w0 userId rl text strategies selections w :
  reaches e w0 userId rl text strategies selections w ->
  (forall s, In s strategies -> candidates e s = []) ->
  length (successfulSelections selections) = 0%nat.
Proof.
  intros Hreach Hnone.
  rewrite <- (length_fmap strategy), (successful_strategies _ _ _ _ _ _ _ Hreach).
  clear Hreach. induction strategies as [|s l IH]; [done|].
  simpl. unfold has_candidates at 1. rewrite (Hnone s (or_introl eq_refl)).
  apply IH. intros s' Hs'. apply Hnone. by right.
Qed.

Lemma fire_createTask_rejects rows i d w :
  rows !! i = Some d -> generation_create e d = Throws ->
  (fire (createTask e) rows w).1 !! i = Some Throws.
Proof.
  revert i w. induction rows as [|a rows IH]; intros i w Hi Hd; [done|].
  cbn [fire]. unfold createTask at 1, perform at 1.
  specialize (IH (pred i) (log (Call_generation_create a) w)).
  destruct (fire (createTask e) rows (log (Call_generation_create a) w))
    as [os w2].
  destruct i as [|i]; simpl in *.
  - injection Hi as ->. by rewrite Hd.
  - by apply IH.
Qed.

Lemma persist_rejects userId uid dbUser text selections s gif w :
  truthy userId = Some uid ->
  user_findUnique e uid = Returns (Some dbUser) ->
  In s selections -> selectedGif s = Some gif ->
  generation_create e
    (generationData dbUser text
       (generationGroupId (Date_now e) (Math_random_suffix e)) s gif) = Throws ->
  exists w', persist e userId text (successfulSelections selections) w = (Throws, w').
Proof.
  intros Huid Hdb Hin Hgif Hfail. unfold persist. rewrite Huid.
  unfold bind at 1, perform at 1. rewrite Hdb.
  unfold bind at 1. rewrite mapM_deref.
  unfold bind at 1, createAll, Promise_all_map.
  match goal with |- context [fire ?t ?rows ?w] =>
    pose proof (fun i d => fire_createTask_rejects rows i d w) as Hrej;
    destruct (fire t rows w) as [outs w1] end.
  assert (Hrow : generationData dbUser text
            (generationGroupId (Date_now e) (Math_random_suffix e)) s gif
          ∈ omap (fun s => generationData dbUser text
                    (generationGroupId (Date_now e) (Math_random_suffix e)) s
                    <$> selectedGif s) selections).
  { apply list_elem_of_omap. exists s. split; [by apply list_elem_of_In|].
    by rewrite Hgif. }
  apply list_elem_of_lookup in Hrow as [i Hi].
  rewrite Promise_all_join, (join_rejects _ i); [by eexists|].
  by eapply Hrej.
Qed.

Lemma entries_perspectives selections :
  result_perspective <$> entriesOf selections
  = (fun s => perspective (strategy s)) <$> successfulSelections selections.
Proof.
  unfold entriesOf, successfulSelections.
  induction selections as [|s selections IH]; [done|].
  simpl. csimpl. destruct (selectedGif s); simpl; [|exact IH].
  f_equal. exact IH.
Qed.

Lemma failed_perspective_absent selections s :
  NoDup ((fun s => perspective (strategy s)) <$> selections) ->
  In s selections -> selectedGif s = None ->
  ~ In (perspective (strategy s))
       ((fun s => perspective (strategy s)) <$> successfulSelections selections).
Proof.
  unfold successfulSelections.
  induction selections as [|a selections IH]; intros Hnd Hin Hs; [done|].
  rewrite fmap_cons in Hnd. apply NoDup_cons in Hnd as [Ha Hnd].
  assert (Hsub : forall p,
             In p ((fun s => perspective (strategy s))
                     <$> List.filter (fun s => isSome (selectedGif s)) selections) ->
             p ∈ (fun s => perspective (strategy s)) <$> selections).
  { intros p Hp. apply list_elem_of_In in Hp.
    apply list_elem_of_fmap in Hp as (x & -> & Hx).
    apply list_elem_of_fmap. exists x. split; [done|].
    apply list_elem_of_In. apply list_elem_of_In in Hx.
    by apply List.filter_In in Hx as [? _]. }
  destruct Hin as [->|Hin].
  - simpl. rewrite Hs. simpl. intros Hp. by apply Ha, Hsub.
  - simpl. destruct (isSome (selectedGif a)); [|by apply IH].
    rewrite fmap_cons. intros [Heq|Hp]; [|by apply IH in Hp].
    apply Ha. rewrite Heq. apply list_elem_of_fmap. exists s.
    split; [done|by apply list_elem_of_In].
Qed.

Lemma aggregate_some userId rl text selections w :
  length (successfulSelections selections) <> 0%nat ->
  aggregate e userId rl text selections w
  = match persist e userId text (successfulSelections selections) w with
    | (Returns _, w') => (Returns (responseOf userId rl selections), w')
    | (Throws, w') => (Throws, w')
    end.
Proof.
  intros Hk. unfold aggregate. apply Nat.eqb_neq in Hk. rewrite Hk.
  unfold bind. destruct (persist _ _ _ _ _) as [[[]|] w']; [|done].
  apply respond_run.
Qed.

Lemma generate_invalid userId rl v w :
  request_json e = Returns v ->
  js_not v || negb (String.eqb (typeof v) "string") = true ->
  generate e userId rl w
  = (Returns (Response_json (ErrorBody "Text input is required") 400 []),
     log Call_request_json w).
Proof.
  intros Hjson Hbad. unfold generate, bind at 1, perform at 1.
  rewrite Hjson. destruct v; try done. by rewrite Hbad.
Qed.

(** The settling orders have no say in the run. *)
Lemma selectAll_orders s1 s2 s3 text strategies w :
  selectAll (with_orders e s1 s2 s3) text strategies w
  = selectAll e text strategies w.
Proof.
  unfold selectAll. apply bind_ext; [apply Promise_all_map_sched|].
  intros rs w1. apply Promise_all_map_sched.
Qed.

Lemma persist_orders s1 s2 s3 userId text successful w :
  persist (with_orders e s1 s2 s3) userId text successful w
  = persist e userId text successful w.
Proof.
  unfold persist. destruct (truthy userId) as [uid|]; [|done].
  apply bind_ext; [done|]. intros [dbUser|] w1; [|done].
  apply bind_ext; [done|]. intros rows w2.
  apply bind_ext; [|done]. unfold createAll.
  by rewrite (Promise_all_map_sched s3 (write_order e)).
Qed.

Lemma POST_orders s1 s2 s3 w0 :
  POST (with_orders e s1 s2 s3) w0 = POST e w0.
Proof.
  unfold POST. apply try_catch_ext; [|done].
  apply bind_ext; [done|]. intros userId w1.
  apply bind_ext; [done|]. intros [rejected|rl] w2; [done|].
  unfold generate. apply bind_ext; [done|]. intros text w3.
  destruct text as [| | | |t|]; try done.
  destruct (js_not _ || _); [done|].
  apply bind_ext; [done|]. intros strategies w4.
  change (GIPHY_API_KEY (with_orders e s1 s2 s3)) with (GIPHY_API_KEY e).
  destruct (truthy (GIPHY_API_KEY e)); [|done].
  apply bind_ext; [apply selectAll_orders|]. intros selections w5.
  unfold aggregate. destruct (_ =? _)%nat; [done|].
  apply bind_ext; [apply persist_orders|done].
Qed.

(** Whatever result set the request returns is the one read off the
    selections. *)
Lemma POST_data w0 userId rl text strategies selections w r w' d :
  reaches e w0 userId rl text strategies selections w ->
  POST e w0 = (Returns r, w') -> body r = DataBody d ->
  results d = entriesOf selections
  /\ totalFound d = Z.of_nat (length (successfulSelections selections))
  /\ requestedPerspectives d = 3%Z.
Proof.
  intros Hreach. rewrite (POST_reaches _ _ _ _ _ _ _ Hreach).
  unfold try_catch.
  destruct (decide (length (successfulSelections selections) = 0%nat)) as [Hz|Hnz].
  - unfold aggregate. rewrite Hz. simpl. unfold ret. by intros [= <- <-].
  - rewrite aggregate_some by done.
    destruct (persist _ _ _ _ _) as [[[]|] w1].
    + intros [= <- <-]. unfold responseOf. destruct rl as [[lim rst] rem].
      destruct (truthy userId); simpl; intros [= <-]; done.
    + unfold on_error, bind, perform, ret. by intros [= <- <-].
Qed.

Lemma successful_sublist selections :
  sublist (successfulSelections selections) selections.
Proof.
  unfold successfulSelections.
  induction selections as [|s selections IH]; [constructor|].
  simpl. destruct (isSome _); by constructor.
Qed.

End Route.

(** * The generation route: gate, aggregation, persistence *)

Section GenerationClaims.
Import Generate.

(** C8. An identified caller whose quota check rejects is answered 429
    with the limiter's reset time, [remaining] 0 and the three rate-limit
    headers. The handler has then called the identity lookup and the
    limiter and nothing else: no upsert, no reasoning-service call, no
    search, no write; the [generations] table is as it was. *)
Theorem quota_rejection_does_no_work (e : Env) (w0 : World) (uid : string)
  (r : RateLimitResult) :
  auth e = Returns (Some uid) -> uid <> "" ->
  ratelimit_limit e uid = Returns r -> success r = false ->
  exists w',
    POST e w0 =
      (Returns
         {| status := 429;
            body := RateLimitBody
                      "Rate limit exceeded. You've used all 10 generations for today."
                      (limit r) 0 (reset r);
            headers := [("X-RateLimit-Limit", Number_toString (limit r));
                        ("X-RateLimit-Remaining", "0");
                        ("X-RateLimit-Reset", Number_toString (reset r))] |},
       w')
    /\ calls w' = calls w0 ++ [Call_auth; Call_ratelimit uid]
    /\ generations w' = generations w0.
Proof.
  intros Hauth Huid Hrl Hrej.
  exists (log (Call_ratelimit uid) (log Call_auth w0)).
  split; [|split; [simpl; by rewrite <- app_assoc|done]].
  unfold POST, try_catch, bind at 1, perform at 1. rewrite Hauth.
  unfold bind at 1, quota_gate. simpl.
  apply String.eqb_neq in Huid. rewrite Huid.
  unfold bind at 1, perform at 1. rewrite Hrl, Hrej. done.
Qed.

Lemma quota_rejection_does_no_work_witness :
  exists w',
    POST (Samples.env (Some "user_2a") false Samples.compiled Samples.ranked
            Samples.two_hits (Samples.pick 0) Samples.writes_ok)
         Samples.fresh
    = (Returns
         {| status := 429;
            body := RateLimitBody
                      "Rate limit exceeded. You've used all 10 generations for today."
                      10 0 1764410000000;
            headers := [("X-RateLimit-Limit", "10");
                        ("X-RateLimit-Remaining", "0");
                        ("X-RateLimit-Reset", "1764410000000")] |},
       w')
    /\ calls w' = [Call_auth; Call_ratelimit "user_2a"]
    /\ generations w' = [].
Proof.
  destruct (quota_rejection_does_no_work
              (Samples.env (Some "user_2a") false Samples.compiled Samples.ranked
                 Samples.two_hits (Samples.pick 0) Samples.writes_ok)
              Samples.fresh "user_2a"
              {| success := false; limit := 10; remaining := 0;
                 reset := 1764410000000 |}
              eq_refl ltac:(discriminate) eq_refl eq_refl)
    as (w' & HP & Hc & Hg).
  exists w'. split; [exact HP|]. split; assumption.
Defined.

(** C6. When no branch yields a chosen GIF (the count of successful
    selections is 0, which is the case in particular when the search of
    every strategy had no candidates), the request is answered 404 with
    the not-found message, that body carries no result at all, and
    nothing is persisted: the [generations] table is untouched and no
    create call has even been made. *)
Theorem no_selection_is_not_found (e : Env) (w0 : World)
  (userId : option string) (rl : Z * Z * Z) (text : string)
  (strategies : list Strategy) (selections : list Selection) (w : World) :
  reaches e w0 userId rl text strategies selections w ->
  length (successfulSelections selections) = 0%nat
  \/ (forall s, In s strategies -> candidates e s = []) ->
  POST e w0 =
    (Returns
       {| status := 404;
          body := ErrorBody
            "No GIFs found for any perspective. Please try a different description.";
          headers := [] |},
     w)
  /\ generations w = generations w0
  /\ exists new, calls w = calls w0 ++ new
                 /\ Forall (fun c => is_create c = false) new.
Proof.
  intros Hreach Hnone. split; [|exact (reaches_quiet e _ _ _ _ _ _ _ Hreach)].
  assert (Hzero : length (successfulSelections selections) = 0%nat).
  { destruct Hnone as [Hz|Hc]; [done|].
    by apply (no_candidates_no_success e _ _ _ _ _ _ _ Hreach). }
  clear Hnone. rename Hzero into Hnone.
  rewrite (POST_reaches e _ _ _ _ _ _ _ Hreach).
  unfold try_catch, aggregate. rewrite Hnone. done.
Qed.

Lemma no_selection_is_not_found_witness :
  exists w,
    POST (Samples.env (Some "user_2a") true Samples.compiled Samples.ranked
            Samples.no_hits (Samples.pick 0) Samples.writes_ok)
         Samples.fresh
    = (Returns
         {| status := 404;
            body := ErrorBody
              "No GIFs found for any perspective. Please try a different description.";
            headers := [] |},
       w)
    /\ generations w = [].
Proof.
  eexists.
  refine (let H := no_selection_is_not_found
            (Samples.env (Some "user_2a") true Samples.compiled Samples.ranked
               Samples.no_hits (Samples.pick 0) Samples.writes_ok)
            Samples.fresh (Some "user_2a") (10, 1764410000000, 2)%Z
            "my code finally compiled" Samples.ranked _ _ _ _ in
          conj (proj1 H) (proj1 (proj2 H))).
  - unfold reaches. repeat (split; [first [reflexivity | discriminate]|]).
    eexists. split; vm_compute; reflexivity.
  - right. intros s [<-|[<-|[<-|[]]]]; reflexivity.
Defined.

(** C7 (amended). With [k >= 1] successful selections, [k] is at most 3
    and is the number of strategies whose search had candidates. The
    result set is returned when the persistence step does not fail, and
    the generic 500 body when it does. Every result set the request
    returns lists exactly the successful selections, in order, one entry
    each, with [totalFound] equal to [k] and [requestedPerspectives]
    equal to 3. Where the three perspectives are pairwise distinct, which
    the schema does not demand, the perspective of a branch without a
    chosen GIF is absent from [results]. *)
Theorem partial_results_shape (e : Env) (w0 : World)
  (userId : option string) (rl : Z * Z * Z) (text : string)
  (strategies : list Strategy) (selections : list Selection) (w : World) :
  reaches e w0 userId rl text strategies selections w ->
  (1 <= length (successfulSelections selections))%nat ->
  (length (successfulSelections selections) <= 3)%nat
  /\ length (successfulSelections selections)
     = length (List.filter (has_candidates e) strategies)
  /\ (forall w',
        persist e userId text (successfulSelections selections) w = (Returns tt, w') ->
        exists r d,
          POST e w0 = (Returns r, w') /\ status r = 200%Z /\ body r = DataBody d)
  /\ (forall w',
        persist e userId text (successfulSelections selections) w = (Throws, w') ->
        exists w'',
          POST e w0
          = (Returns {| status := 500;
                        body := ErrorBody "Failed to generate GIF recommendation";
                        headers := [] |},
             w''))
  /\ (forall r w' d,
        POST e w0 = (Returns r, w') -> body r = DataBody d ->
        results d = entriesOf selections
        /\ length (results d) = length (successfulSelections selections)
        /\ result_perspective <$> results d
           = (fun s => perspective (strategy s)) <$> successfulSelections selections
        /\ totalFound d = Z.of_nat (length (successfulSelections selections))
        /\ requestedPerspectives d = 3%Z
        /\ (NoDup (perspective <$> strategies) ->
            forall s, In s selections -> selectedGif s = None ->
              ~ In (perspective (strategy s)) (result_perspective <$> results d))).
Proof.
  intros Hreach Hk.
  destruct (reaches_strategies e _ _ _ _ _ _ _ Hreach) as [Hstr Hlen].
  assert (Hshape : forall d, body (responseOf userId rl selections) = DataBody d ->
            results d = entriesOf selections
            /\ totalFound d = Z.of_nat (length (successfulSelections selections))
            /\ requestedPerspectives d = 3%Z).
  { unfold responseOf. destruct rl as [[lim rst] rem].
    destruct (truthy userId); simpl; intros d [= <-]; done. }
  rewrite (POST_reaches e _ _ _ _ _ _ _ Hreach).
  unfold try_catch. rewrite aggregate_some by lia.
  split; [|split; [|split; [|split]]].
  - unfold successfulSelections.
    etransitivity; [apply List.filter_length_le|].
    rewrite <- Hlen, <- Hstr. by rewrite length_fmap.
  - by rewrite <- (successful_strategies e _ _ _ _ _ _ _ Hreach), length_fmap.
  - intros w' ->. exists (responseOf userId rl selections).
    unfold responseOf. destruct rl as [[lim rst] rem].
    destruct (truthy userId); simpl; eauto.
  - intros w' ->. unfold on_error, bind, perform, ret. by eexists.
  - intros r w' d. destruct (persist _ _ _ _ _) as [[[]|] w1].
    + intros [= <- <-] Hd. apply Hshape in Hd as (Hres & Htot & Hreq).
      rewrite Hres. repeat split; try done.
      * symmetry. apply successful_length.
      * apply entries_perspectives.
      * intros Hnd s Hin Hs. rewrite entries_perspectives.
        apply failed_perspective_absent; try done.
        rewrite <- Hstr, <- list_fmap_compose in Hnd. exact Hnd.
    + unfold on_error, bind, perform, ret. intros [= <- <-]. done.
Qed.

Lemma partial_results_shape_witness :
  exists r w' d,
    POST (Samples.env (Some "user_2a") true Samples.compiled Samples.ranked
            Samples.only_relieved (Samples.pick 1) Samples.writes_ok)
         Samples.fresh = (Returns r, w')
    /\ body r = DataBody d
    /\ length (results d) = 1%nat
    /\ result_perspective <$> results d = ["emotional"]
    /\ totalFound d = 1%Z
    /\ requestedPerspectives d = 3%Z.
Proof.
  eassert (Hreach : reaches
             (Samples.env (Some "user_2a") true Samples.compiled Samples.ranked
                Samples.only_relieved (Samples.pick 1) Samples.writes_ok)
             Samples.fresh (Some "user_2a") (10, 1764410000000, 2)%Z
             "my code finally compiled" Samples.ranked _ _).
  { unfold reaches. repeat (split; [first [reflexivity | discriminate]|]).
    eexists. split; vm_compute; reflexivity. }
  destruct (partial_results_shape _ _ _ _ _ _ _ _ Hreach)
    as (_ & _ & Hret & _ & Hshape); [vm_compute; lia|].
  edestruct Hret as (r & d & HP & _ & Hd); [vm_compute; reflexivity|].
  destruct (Hshape r _ d HP Hd) as (_ & Hl & Hp & Ht & Hq & _).
  eexists _, _, _. split; [exact HP|].
  repeat split;
    [exact Hd | rewrite Hl; reflexivity | rewrite Hp; reflexivity
    | rewrite Ht; reflexivity | exact Hq].
Defined.

(** C7, counterexample to the sentence of the specification. One branch
    out of three succeeds and the write of its row fails: the caller is
    answered the generic 500 body, not a result list of one. And with
    three strategies of the one perspective emotional, which the schema
    accepts, two branches fail and the result list still names their
    perspective. *)
Lemma partial_results_are_not_always_returned :
  (exists selections w w',
     reaches (Samples.env (Some "user_2a") true Samples.compiled Samples.ranked
                Samples.only_relieved (Samples.pick 1) Samples.writes_fail)
             Samples.fresh (Some "user_2a") (10, 1764410000000, 2)%Z
             "my code finally compiled" Samples.ranked selections w
     /\ length (successfulSelections selections) = 1%nat
     /\ POST (Samples.env (Some "user_2a") true Samples.compiled Samples.ranked
                Samples.only_relieved (Samples.pick 1) Samples.writes_fail)
             Samples.fresh
        = (Returns {| status := 500;
                      body := ErrorBody "Failed to generate GIF recommendation";
                      headers := [] |},
           w'))
  /\ (exists selections w s r w' d,
        reaches (Samples.env None true Samples.compiled Samples.all_emotional
                   Samples.only_relieved (Samples.pick 1) Samples.writes_ok)
                Samples.fresh None (10, 1764323600000 + 24 * 60 * 60 * 1000, 0)%Z
                "my code finally compiled" Samples.all_emotional selections w
        /\ In s selections /\ selectedGif s = None
        /\ perspective (strategy s) = "emotional"
        /\ POST (Samples.env None true Samples.compiled Samples.all_emotional
                   Samples.only_relieved (Samples.pick 1) Samples.writes_ok)
                Samples.fresh = (Returns r, w')
        /\ body r = DataBody d
        /\ result_perspective <$> results d = ["emotional"]).
Proof.
  split.
  - eexists _, _, _. split; [|split].
    + unfold reaches. repeat (split; [first [reflexivity | discriminate]|]).
      eexists. split; vm_compute; reflexivity.
    + reflexivity.
    + vm_compute. reflexivity.
  - eexists _, _, _, _, _, _. split; [|split; [|split; [|split; [|split; [|split]]]]].
    + unfold reaches. repeat (split; [first [reflexivity | discriminate]|]).
      eexists. split; vm_compute; reflexivity.
    + right. left. reflexivity.
    + reflexivity.
    + reflexivity.
    + vm_compute. reflexivity.
    + reflexivity.
    + reflexivity.
Qed.

(** C1 (amended). With at least one successful selection, an identified
    caller and a profile row, a persistence write that fails rejects the
    awaited [Promise.all]; the handler's catch-all logs the error and
    answers the generic 500 body, so the result set that was already
    computed is not returned. *)
Theorem persistence_failure_is_fatal (e : Env) (w0 : World) (uid : string)
  (rl : Z * Z * Z) (text : string) (strategies : list Strategy)
  (selections : list Selection) (w : World) (dbUser : DbUser)
  (s : Selection) (gif : Gif) :
  reaches e w0 (Some uid) rl text strategies selections w ->
  uid <> "" ->
  user_findUnique e uid = Returns (Some dbUser) ->
  In s selections -> selectedGif s = Some gif ->
  generation_create e
    (generationData dbUser text
       (generationGroupId (Date_now e) (Math_random_suffix e)) s gif) = Throws ->
  exists w',
    POST e w0 =
      (Returns {| status := 500;
                  body := ErrorBody "Failed to generate GIF recommendation";
                  headers := [] |},
       w')
    /\ last (calls w') = Some (Call_console_error "Error generating GIF:").
Proof.
  intros Hreach Huid Hdb Hin Hgif Hfail.
  rewrite (POST_reaches e _ _ _ _ _ _ _ Hreach).
  unfold try_catch. rewrite aggregate_some.
  - destruct (persist_rejects e (Some uid) uid dbUser text selections s gif w)
      as [w1 ->]; try done.
    { simpl. apply String.eqb_neq in Huid. by rewrite Huid. }
    eexists. split; [reflexivity|]. simpl. apply last_snoc.
  - assert (Hs : In s (successfulSelections selections)).
    { apply List.filter_In. split; [done|]. by rewrite Hgif. }
    destruct (successfulSelections selections); [done|]. done.
Qed.

Lemma persistence_failure_is_fatal_witness :
  exists w',
    POST (Samples.env (Some "user_2a") true Samples.compiled Samples.ranked
            Samples.two_hits (Samples.pick 1) Samples.literal_write_fails)
         Samples.fresh
    = (Returns {| status := 500;
                  body := ErrorBody "Failed to generate GIF recommendation";
                  headers := [] |},
       w')
    /\ last (calls w') = Some (Call_console_error "Error generating GIF:").
Proof.
  refine (persistence_failure_is_fatal
            (Samples.env (Some "user_2a") true Samples.compiled Samples.ranked
               Samples.two_hits (Samples.pick 1) Samples.literal_write_fails)
            Samples.fresh "user_2a" (10, 1764410000000, 2)%Z
            "my code finally compiled" Samples.ranked _ _
            {| user_id := "db-user_2a" |}
            {| strategy := Samples.strat "literal" "typing";
               selectedGif := Some (Samples.gif "typing 1");
               reasoning := "fits the mood";
               error := false |}
            (Samples.gif "typing 1") _ _ _ _ _ _).
  - unfold reaches. repeat (split; [first [reflexivity | discriminate]|]).
    eexists. split; vm_compute; reflexivity.
  - discriminate.
  - reflexivity.
  - simpl. right. left. reflexivity.
  - reflexivity.
  - reflexivity.
Defined.

(** C1, counterexample to the sentence of the specification: three
    selections succeed, the write of the literal row fails, and the caller
    gets the 500 body, not the result set; the two other rows stay in the
    table. *)
Lemma persistence_failure_revokes_response :
  exists selections w w',
    reaches (Samples.env (Some "user_2a") true Samples.compiled Samples.ranked
               Samples.two_hits (Samples.pick 1) Samples.literal_write_fails)
            Samples.fresh (Some "user_2a") (10, 1764410000000, 2)%Z
            "my code finally compiled" Samples.ranked selections w
    /\ length (successfulSelections selections) = 3%nat
    /\ POST (Samples.env (Some "user_2a") true Samples.compiled Samples.ranked
               Samples.two_hits (Samples.pick 1) Samples.literal_write_fails)
            Samples.fresh
       = (Returns {| status := 500;
                     body := ErrorBody "Failed to generate GIF recommendation";
                     headers := [] |},
          w')
    /\ data_perspective <$> generations w' = ["emotional"; "sarcastic"].
Proof.
  eexists _, _, _. split; [|split; [|split]].
  - unfold reaches. repeat (split; [first [reflexivity | discriminate]|]).
    eexists. split; vm_compute; reflexivity.
  - reflexivity.
  - vm_compute. reflexivity.
  - reflexivity.
Qed.

(** C2 (amended). On a branch with at least one candidate the selector
    falls back to [candidates[0]] in two ways. When the reasoning-service
    call fails (it rejects, or its answer carries an index the schema
    refuses: a negative one, or one above the largest safe integer), the
    selection is [candidates[0]], marked degraded, with the fixed
    reasoning string. When the answer carries an index that the schema
    accepts and that is past the end of the list, the selection is
    [candidates[0]] too, but it is not marked degraded and it keeps the
    reasoning the service gave. *)
Theorem selection_fallback (e : Env) (text : string) (result : SearchResult)
  (gif0 : Gif) (rest : list Gif) (w : World) :
  gifs result = gif0 :: rest ->
  let answer :=
    generateSelection e (perspective (search_strategy result)) text
      (keywords (search_strategy result)) (gifOptions (gifs result)) in
  (answer = Throws
   \/ (exists r, answer = Returns r
         /\ (selectedIndex r < 0 \/ MAX_SAFE_INTEGER < selectedIndex r)%Z) ->
   (selectionTask e text result w).1
   = Returns {| strategy := search_strategy result;
                selectedGif := Some gif0;
                reasoning := "AI selection failed, using top result";
                error := true |})
  /\ (forall r,
        answer = Returns r ->
        (Z.of_nat (length (gifs result)) <= selectedIndex r)%Z ->
        (selectedIndex r <= MAX_SAFE_INTEGER)%Z ->
        (selectionTask e text result w).1
        = Returns {| strategy := search_strategy result;
                     selectedGif := Some gif0;
                     reasoning := raw_reasoning r;
                     error := false |}).
Proof.
  intros Hg answer. subst answer. unfold selectionTask. rewrite Hg.
  unfold try_catch, bind, perform, ret, generateObject, selectionSchema.
  split.
  - intros [->|(r & -> & [Hneg|Hbig])]; [done| |].
    + apply Z.leb_gt in Hneg. by rewrite Hneg, andb_false_r.
    + apply Z.leb_gt in Hbig. by rewrite Hbig.
  - intros r -> Hout Hsafe.
    assert (Hpos : (0 <=? selectedIndex r)%Z = true) by (apply Z.leb_le; lia).
    apply Z.leb_le in Hsafe. rewrite Hpos, Hsafe. simpl. do 3 f_equal.
    rewrite (proj2 (lookup_ge_None (gif0 :: rest) _)); [done|].
    simpl in *. lia.
Qed.

Lemma selection_fallback_witness :
  (selectionTask
     (Samples.env None true Samples.compiled Samples.ranked Samples.two_hits
        (Samples.pick 9007199254740992) Samples.writes_ok)
     "my code finally compiled"
     {| search_strategy := Samples.strat "emotional" "relieved";
        gifs := [Samples.gif "relieved 0"; Samples.gif "relieved 1"];
        search_error := None |}
     Samples.fresh).1
  = Returns {| strategy := Samples.strat "emotional" "relieved";
               selectedGif := Some (Samples.gif "relieved 0");
               reasoning := "AI selection failed, using top result";
               error := true |}.
Proof.
  refine (proj1 (selection_fallback
            (Samples.env None true Samples.compiled Samples.ranked Samples.two_hits
               (Samples.pick 9007199254740992) Samples.writes_ok)
            "my code finally compiled"
            {| search_strategy := Samples.strat "emotional" "relieved";
               gifs := [Samples.gif "relieved 0"; Samples.gif "relieved 1"];
               search_error := None |}
            (Samples.gif "relieved 0") [Samples.gif "relieved 1"]
            Samples.fresh eq_refl) _).
  right. eexists. split; [reflexivity|]. right. reflexivity.
Defined.

(** C2, counterexample to the sentence of the specification: two
    candidates, the service answers index 7; the selection is
    [candidates[0]] but it is not marked degraded and its reasoning is the
    service's, not the fixed string. *)
Lemma out_of_range_is_not_degraded :
  exists v,
    (selectionTask
       (Samples.env None true Samples.compiled Samples.ranked Samples.two_hits
          (Samples.pick 7) Samples.writes_ok)
       "my code finally compiled"
       {| search_strategy := Samples.strat "emotional" "relieved";
          gifs := [Samples.gif "relieved 0"; Samples.gif "relieved 1"];
          search_error := None |}
       Samples.fresh).1 = Returns v
    /\ selectedGif v = Some (Samples.gif "relieved 0")
    /\ error v = false
    /\ reasoning v = "fits the mood"
    /\ ~ (error v = true
          /\ reasoning v = "AI selection failed, using top result").
Proof.
  eexists. split; [vm_compute; reflexivity|]. simpl.
  repeat split; try reflexivity. intros [? _]. discriminate.
Qed.

(** C3 (amended). When the [text] of the body is empty or not a string,
    the request makes no reasoning-service call, no search call and no
    write, whoever the caller is and whatever the gate says. An anonymous
    caller is answered 400 after the identity lookup and the body read
    only. An identified caller is answered 400 only after the quota check
    has admitted the request and the upsert of the profile has run. *)
Theorem invalid_text_is_rejected (e : Env) (w0 : World) (v : JsVal) :
  request_json e = Returns v ->
  js_not v || negb (String.eqb (typeof v) "string") = true ->
  (forall r w',
      POST e w0 = (r, w') ->
      generations w' = generations w0
      /\ exists new, calls w' = calls w0 ++ new
                     /\ Forall (fun c => costly c = false) new)
  /\ (forall userId,
        auth e = Returns userId -> truthy userId = None ->
        POST e w0
        = (Returns {| status := 400; body := ErrorBody "Text input is required";
                      headers := [] |},
           {| calls := calls w0 ++ [Call_auth; Call_request_json];
              generations := generations w0 |}))
  /\ (forall uid rr u,
        auth e = Returns (Some uid) -> uid <> "" ->
        ratelimit_limit e uid = Returns rr -> success rr = true ->
        currentUser e = Returns u -> user_upsert e uid u = Returns tt ->
        POST e w0
        = (Returns {| status := 400; body := ErrorBody "Text input is required";
                      headers := [] |},
           {| calls := calls w0 ++ [Call_auth; Call_ratelimit uid; Call_currentUser;
                                    Call_user_upsert uid u; Call_request_json];
              generations := generations w0 |})).
Proof.
  intros Hjson Hbad. split; [|split].
  - intros r w'. unfold POST, try_catch, bind at 1, perform at 1.
    destruct (auth e) as [userId|].
    + unfold bind at 1.
      destruct (quota_gate e userId (log Call_auth w0)) as [[[rej|rl]|] w1] eqn:Hgate;
        apply quota_gate_frugal in Hgate.
      * intros [= <- <-]. eapply adds_trans; [|exact Hgate]. adds_steps.
      * rewrite (generate_invalid e userId rl v w1 Hjson Hbad).
        intros [= <- <-].
        eapply adds_trans; [|apply adds_log; reflexivity].
        eapply adds_trans; [|exact Hgate]. adds_steps.
      * intros [= <- <-].
        eapply adds_trans; [|apply adds_log; reflexivity].
        eapply adds_trans; [|exact Hgate]. adds_steps.
    + intros [= <- <-]. adds_steps.
  - intros userId Hauth Hanon.
    unfold POST, try_catch, bind at 1, perform at 1. rewrite Hauth.
    unfold bind at 1, quota_gate. rewrite Hanon. unfold ret at 1.
    rewrite (generate_invalid e userId _ v _ Hjson Hbad).
    unfold ret, log. simpl. by rewrite <- app_assoc.
  - intros uid rr u Hauth Huid Hrl Hok Hcu Hup.
    unfold POST, try_catch, bind at 1, perform at 1. rewrite Hauth.
    unfold bind at 1, quota_gate. simpl.
    apply String.eqb_neq in Huid. rewrite Huid.
    unfold bind at 1, perform at 1. rewrite Hrl, Hok. simpl.
    unfold bind at 1, perform at 1. rewrite Hcu.
    unfold bind at 1, perform at 1. rewrite Hup. unfold ret at 1.
    rewrite (generate_invalid e (Some uid) _ v _ Hjson Hbad).
    unfold ret, log. simpl. by rewrite <- !app_assoc.
Qed.

Lemma invalid_text_is_rejected_witness :
  POST (Samples.env None true JsUndefined Samples.ranked Samples.two_hits
          (Samples.pick 0) Samples.writes_ok)
       Samples.fresh
  = (Returns {| status := 400; body := ErrorBody "Text input is required";
                headers := [] |},
     {| calls := [Call_auth; Call_request_json]; generations := [] |}).
Proof.
  exact (proj1 (proj2 (invalid_text_is_rejected
                         (Samples.env None true JsUndefined Samples.ranked
                            Samples.two_hits (Samples.pick 0) Samples.writes_ok)
                         Samples.fresh JsUndefined eq_refl eq_refl))
           None eq_refl eq_refl).
Defined.

(** C3, counterexample to the sentence of the specification: an identified
    caller sends an empty text; the 400 answer comes after the quota check
    (which has counted the request) and after the upsert of the profile. *)
Lemma invalid_text_after_quota_and_upsert :
  exists w',
    POST (Samples.env (Some "user_2a") true (JsString "") Samples.ranked
            Samples.two_hits (Samples.pick 0) Samples.writes_ok)
         Samples.fresh
    = (Returns {| status := 400; body := ErrorBody "Text input is required";
                  headers := [] |},
       w')
    /\ calls w' = [Call_auth; Call_ratelimit "user_2a"; Call_currentUser;
                   Call_user_upsert "user_2a" None; Call_request_json].
Proof. eexists. split; vm_compute; reflexivity. Qed.

(** C4 (amended). The run does not depend on the order in which the
    concurrent branches settle: with any other settling orders the handler
    returns the same response and leaves the same world. Selection [i]
    belongs to strategy [i] of the list the reasoning service returned,
    and the entries of a result set are the successful selections in that
    order, that is, the strategies whose search had candidates, in the
    order of the derived strategies, which the schema does not tie to
    perspective rank. *)
Theorem results_follow_strategy_order (e : Env) (w0 : World)
  (userId : option string) (rl : Z * Z * Z) (text : string)
  (strategies : list Strategy) (selections : list Selection) (w : World) :
  reaches e w0 userId rl text strategies selections w ->
  (forall s1 s2 s3, POST (with_orders e s1 s2 s3) w0 = POST e w0)
  /\ strategy <$> selections = strategies
  /\ (forall r w' d,
        POST e w0 = (Returns r, w') -> body r = DataBody d ->
        result_perspective <$> results d
        = perspective <$> (strategy <$> successfulSelections selections)
        /\ result_perspective <$> results d
           = perspective <$> List.filter (has_candidates e) strategies
        /\ sublist (result_perspective <$> results d) (perspective <$> strategies)).
Proof.
  intros Hreach.
  destruct (reaches_strategies e _ _ _ _ _ _ _ Hreach) as [Hstr _].
  split; [intros; apply POST_orders|]. split; [done|].
  intros r w' d HP Hd.
  destruct (POST_data e _ _ _ _ _ _ _ _ _ _ Hreach HP Hd) as (-> & _ & _).
  rewrite entries_perspectives, <- list_fmap_compose.
  split; [done|]. split.
  - rewrite <- (successful_strategies e _ _ _ _ _ _ _ Hreach).
    by rewrite <- list_fmap_compose.
  - rewrite <- Hstr, <- list_fmap_compose.
    apply fmap_sublist, successful_sublist.
Qed.

Lemma results_follow_strategy_order_witness :
  exists r w' d,
    POST (Samples.env (Some "user_2a") true Samples.compiled Samples.unranked
            Samples.two_hits (Samples.pick 0) Samples.writes_ok)
         Samples.fresh = (Returns r, w')
    /\ body r = DataBody d
    /\ sublist (result_perspective <$> results d)
               (perspective <$> Samples.unranked).
Proof.
  eassert (Hreach : reaches
             (Samples.env (Some "user_2a") true Samples.compiled Samples.unranked
                Samples.two_hits (Samples.pick 0) Samples.writes_ok)
             Samples.fresh (Some "user_2a") (10, 1764410000000, 2)%Z
             "my code finally compiled" Samples.unranked _ _).
  { unfold reaches. repeat (split; [first [reflexivity | discriminate]|]).
    eexists. split; vm_compute; reflexivity. }
  destruct (results_follow_strategy_order _ _ _ _ _ _ _ _ Hreach)
    as (_ & _ & Horder).
  eexists _, _, _. split; [vm_compute; reflexivity|]. split; [reflexivity|].
  eapply Horder; [vm_compute; reflexivity|reflexivity].
Defined.

(** C4, counterexample to the sentence of the specification: the reasoning
    service returns the strategies as literal, emotional, sarcastic, which
    the schema accepts; all three branches succeed and the result list is
    in that order, literal before emotional, not in rank order. *)
Lemma results_not_in_rank_order :
  exists r w' d,
    POST (Samples.env (Some "user_2a") true Samples.compiled Samples.unranked
            Samples.two_hits (Samples.pick 0) Samples.writes_ok)
         Samples.fresh = (Returns r, w')
    /\ body r = DataBody d
    /\ result_perspective <$> results d = ["literal"; "emotional"; "sarcastic"]
    /\ ~ StronglySorted (fun p q => (rankOf p <= rankOf q)%Z)
           (result_perspective <$> results d).
Proof.
  eexists _, _, _. split; [vm_compute; reflexivity|].
  split; [reflexivity|]. split; [reflexivity|].
  simpl. intros H. apply StronglySorted_inv in H as [_ H].
  apply Forall_inv in H. vm_compute in H. by apply H.
Qed.

(** C5, evaluated: two different requests, from two callers with two
    texts, that read the same millisecond off the clock and draw the same
    random suffix. Each persists its three rows, and all six rows carry
    one and the same group id. *)
Theorem group_id_collision :
  let first :=
    POST (Samples.env (Some "user_2a") true (JsString "my code finally compiled")
            Samples.ranked Samples.two_hits (Samples.pick 0) Samples.writes_ok)
         Samples.fresh in
  let second :=
    POST (Samples.env (Some "user_7b") true (JsString "monday again")
            Samples.ranked Samples.two_hits (Samples.pick 1) Samples.writes_ok)
         first.2 in
  (fun d => (data_userId d, data_inputText d, data_generationGroupId d))
    <$> generations second.2
  = [("db-user_2a", "my code finally compiled", "group_1764323600123_k3j9x0q1z");
     ("db-user_2a", "my code finally compiled", "group_1764323600123_k3j9x0q1z");
     ("db-user_2a", "my code finally compiled", "group_1764323600123_k3j9x0q1z");
     ("db-user_7b", "monday again", "group_1764323600123_k3j9x0q1z");
     ("db-user_7b", "monday again", "group_1764323600123_k3j9x0q1z");
     ("db-user_7b", "monday again", "group_1764323600123_k3j9x0q1z")].
Proof. vm_compute. reflexivity. Qed.

(** The extent of C5: the group id determines the clock reading and the
    suffix, so two requests share a group id exactly when they share
    both. *)
Lemma string_of_uint_free d : free_of "_" (NilEmpty.string_of_uint d) = true.
Proof. induction d; simpl; done. Qed.

Lemma Number_toString_free n : free_of "_" (Number_toString n) = true.
Proof.
  unfold Number_toString, NilZero.string_of_int, NilZero.string_of_uint.
  destruct (Z.to_int n) as [d|d]; destruct d; simpl;
    try done; apply string_of_uint_free.
Qed.

Lemma Number_toString_inj n1 n2 :
  Number_toString n1 = Number_toString n2 -> n1 = n2.
Proof.
  unfold Number_toString. intros Heq.
  assert (Hisi : forall n, NilZero.int_of_string (NilZero.string_of_int (Z.to_int n))
                           = Some (Z.to_int n)).
  { intros n. apply NilZero.isi; destruct n; simpl; try done;
      intros [= H]; by apply DecimalPos.Unsigned.to_uint_nonnil in H. }
  apply DecimalZ.to_int_inj.
  pose proof (Hisi n1) as H1. rewrite Heq, Hisi in H1. congruence.
Qed.

Lemma append_cons c s t : String c s +:+ t = String c (s +:+ t).
Proof. reflexivity. Qed.

Lemma append_nil t : "" +:+ t = t.
Proof. reflexivity. Qed.

Lemma split_unique d1 d2 s1 s2 :
  free_of "_" d1 = true -> free_of "_" d2 = true ->
  d1 +:+ "_" +:+ s1 = d2 +:+ "_" +:+ s2 -> d1 = d2 /\ s1 = s2.
Proof.
  revert d2. induction d1 as [|c1 d1 IH]; intros [|c2 d2] H1 H2 Heq;
    rewrite ?append_cons, ?append_nil in Heq; simpl in H1, H2.
  - by injection Heq as ->.
  - injection Heq as <- _. by rewrite Ascii.eqb_refl in H2.
  - injection Heq as -> _. by rewrite Ascii.eqb_refl in H1.
  - injection Heq as -> Heq.
    destruct (Ascii.eqb c2 "_"); [done|].
    destruct (IH d2 H1 H2 Heq) as [-> ->]. done.
Qed.

Lemma generationGroupId_inj now1 suffix1 now2 suffix2 :
  generationGroupId now1 suffix1 = generationGroupId now2 suffix2 <->
  now1 = now2 /\ suffix1 = suffix2.
Proof.
  split; [|by intros [-> ->]].
  unfold generationGroupId. rewrite !append_cons, !append_nil. intros [= Heq].
  apply split_unique in Heq as [Hn ->]; try apply Number_toString_free.
  split; [by apply Number_toString_inj|done].
Qed.

End GenerationClaims.

(** * Lemmas on the history route *)

Section HistoryLemmas.
Import History.

Lemma keyed_snoc k l x :
  keyed k (l ++ [x]) = keyed k l ++ (if String.eqb (groupKey x) k then [x] else []).
Proof. unfold keyed. rewrite List.filter_app. simpl. by destruct (String.eqb _ _). Qed.

Lemma In_fst (m : GroupMap) k v : In (k, v) m -> In k m.*1.
Proof.
  intros Hin. apply list_elem_of_In.
  apply list_elem_of_In, (list_elem_of_fmap_2 fst) in Hin. exact Hin.
Qed.

Lemma has_true m k : has m k = true <-> In k m.*1.
Proof.
  induction m as [|[k' v] m IH]; simpl; [split; [discriminate|tauto]|].
  rewrite orb_true_iff, IH, String.eqb_eq. split; intros [?|?]; auto.
Qed.

Lemma has_false m k : has m k = false <-> ~ In k m.*1.
Proof. rewrite <- has_true. by destruct (has m k). Qed.

Lemma addGeneration_new m x :
  has m (groupKey x) = false ->
  addGeneration m x = m ++ [(groupKey x, [x])].
Proof.
  intros Hno. unfold addGeneration. rewrite Hno. simpl.
  induction m as [|[k' v] m IH]; simpl.
  - by rewrite String.eqb_refl.
  - simpl in Hno. apply orb_false_iff in Hno as [Hk Hm].
    rewrite Hk. simpl. rewrite Hk. f_equal. by apply IH.
Qed.

Lemma addGeneration_old m x :
  has m (groupKey x) = true -> addGeneration m x = push m (groupKey x) x.
Proof. intros Hyes. unfold addGeneration. by rewrite Hyes. Qed.

Lemma push_keys m k x : (push m k x).*1 = m.*1.
Proof.
  induction m as [|[k' v] m IH]; [done|].
  cbn [push]. destruct (String.eqb k k'); [done|].
  rewrite !fmap_cons. by rewrite IH.
Qed.

Lemma push_In m k x k' v' :
  NoDup m.*1 -> In (k', v') (push m k x) ->
  (k' <> k /\ In (k', v') m)
  \/ (k' = k /\ exists v, In (k, v) m /\ v' = v ++ [x]).
Proof.
  induction m as [|[k1 v1] m IH]; intros Hnd Hin; [done|].
  rewrite fmap_cons in Hnd. apply NoDup_cons in Hnd as [Hk1 Hnd].
  simpl in Hin. destruct (String.eqb k k1) eqn:Hk.
  - apply String.eqb_eq in Hk as <-. destruct Hin as [[= <- <-]|Hin].
    + right. split; [done|]. exists v1. split; [by left|done].
    + left. split; [|by right]. intros ->. apply Hk1.
      eapply list_elem_of_In, In_fst, Hin.
  - apply String.eqb_neq in Hk. destruct Hin as [[= <- <-]|Hin].
    + left. split; [done|by left].
    + destruct (IH Hnd Hin) as [[Hne Hm]|[-> (v & Hv & ->)]].
      * left. split; [done|by right].
      * right. split; [done|]. exists v. split; [by right|done].
Qed.

Lemma grouped_snoc l x : grouped (l ++ [x]) = addGeneration (grouped l) x.
Proof. unfold grouped. by rewrite fold_left_app. Qed.

Lemma grouped_spec l : grouped_inv l (grouped l).
Proof.
  induction l as [|x l IH] using rev_ind.
  - split; [constructor|]. split; [intros k v []|intros y []].
  - destruct IH as (Hnd & Hval & Hkey). rewrite grouped_snoc.
    destruct (has (grouped l) (groupKey x)) eqn:Hhas.
    + rewrite addGeneration_old by done. split; [|split].
      * by rewrite push_keys.
      * intros k v Hin.
        apply push_In in Hin as [[Hne Hin]|[-> (v0 & Hin & ->)]]; [|  |done].
        -- rewrite keyed_snoc. apply Hval in Hin as [-> Hnil].
           apply not_eq_sym, String.eqb_neq in Hne. rewrite Hne.
           by rewrite app_nil_r.
        -- rewrite keyed_snoc, String.eqb_refl.
           apply Hval in Hin as [-> _]. split; [done|].
           by destruct (keyed (groupKey x) l).
      * intros y Hy. rewrite push_keys. apply in_app_or in Hy as [Hy|[<-|[]]].
        -- by apply Hkey.
        -- by apply has_true.
    + rewrite addGeneration_new by done. apply has_false in Hhas.
      assert (Hnone : keyed (groupKey x) l = []).
      { unfold keyed. destruct (List.filter _ l) as [|y ys] eqn:Hf; [done|].
        assert (Hy : In y (List.filter
                    (fun gen => String.eqb (groupKey gen) (groupKey x)) l))
          by (rewrite Hf; by left).
        apply List.filter_In in Hy as [Hy Hk]. apply String.eqb_eq in Hk.
        exfalso. apply Hhas. rewrite <- Hk. by apply Hkey. }
      split; [|split].
      * rewrite fmap_app. apply NoDup_app. split; [done|]. split.
        -- intros k Hk Hk2. apply list_elem_of_In in Hk2. simpl in Hk2.
           destruct Hk2 as [<-|[]]. by apply Hhas, list_elem_of_In.
        -- apply NoDup_singleton.
      * intros k v Hin. apply in_app_or in Hin as [Hin|[[= <- <-]|[]]].
        -- rewrite keyed_snoc.
           assert (Hne : String.eqb (groupKey x) k = false).
           { apply String.eqb_neq. intros Heq. apply Hhas. rewrite Heq.
             eapply In_fst, Hin. }
           rewrite Hne, app_nil_r. by apply Hval in Hin.
        -- by rewrite keyed_snoc, Hnone, String.eqb_refl.
      * intros y Hy. rewrite fmap_app. apply in_or_app.
        apply in_app_or in Hy as [Hy|[<-|[]]]; [left; by apply Hkey|right; by left].
Qed.

(** ** The stable sort by rank *)


Lemma sort_insert_perm x l : Permutation (sort_insert compare x l) (x :: l).
Proof.
  induction l as [|z l IH]; simpl; [done|].
  destruct (default 0 (compare x z) <=? 0)%Z; [done|].
  rewrite IH. apply perm_swap.
Qed.

Lemma sort_perm l : Permutation (sort compare l) l.
Proof.
  induction l as [|x l IH]; simpl; [done|].
  rewrite sort_insert_perm. by constructor.
Qed.









(** ** From the [Map] to the array of groups *)

Lemma groupedArray_run l :
  exists groups,
    groupedArray l = Returns groups
    /\ groupId <$> groups = (grouped l).*1
    /\ (forall g, In g groups ->
          In (groupId g, keyed (groupId g) l) (grouped l)
          /\ keyed (groupId g) l <> []
          /\ gifs g = sort compare (keyed (groupId g) l))
    /\ (forall k v, In (k, v) (grouped l) ->
          exists g, In g groups /\ groupId g = k).
Proof.
  destruct (grouped_spec l) as (_ & Hval & _).
  unfold groupedArray. revert Hval. generalize (grouped l) as m.
  induction m as [|[k v] m IH]; intros Hval.
  - exists []. repeat split; done.
  - destruct IH as (groups & Hrun & Hids & Hgroups & Hback).
    { intros k' v' Hin. apply Hval. by right. }
    destruct (Hval k v (or_introl eq_refl)) as [Hv Hne].
    destruct v as [|gif0 v]; [done|].
    eexists (_ :: groups). cbn [mapO groupEntry]. rewrite Hrun.
    split; [reflexivity|]. split; [by rewrite !fmap_cons, Hids|]. split.
    + intros g [<-|Hg]; simpl.
      * rewrite <- Hv. repeat split; [by left|done].
      * destruct (Hgroups g Hg) as (Hin & Hn & Hs). split; [by right|done].
    + intros k' v' [[= <- <-]|Hin].
      * eexists. split; [by left|done].
      * destruct (Hback k' v' Hin) as (g & Hg & Hk). exists g. split; [by right|done].
Qed.


(** ** Legacy records *)







End HistoryLemmas.

(** * The history route: grouping and the missing profile *)

Section HistoryClaims.
Import History.




(** C10. An authenticated caller without a profile row gets status 200
    with [generations] empty and no [pagination] member; the handler has
    only looked the identity and the profile up. *)
Theorem history_without_profile (e : Env) (w0 : World) (uid : string) :
  auth e = Returns (Some uid) -> uid <> "" ->
  user_findUnique e uid = Returns None ->
  GET e w0
  = (Returns {| status := 200; body := HistoryBody [] None |},
     {| calls := calls w0 ++ [Call_auth; Call_user_findUnique uid];
        generations := generations w0 |}).
Proof.
  intros Hauth Huid Hnone.
  unfold GET, try_catch, bind at 1, perform at 1. rewrite Hauth. simpl.
  apply String.eqb_neq in Huid. rewrite Huid.
  unfold bind, perform. rewrite Hnone. unfold ret, log. simpl.
  by rewrite <- app_assoc.
Qed.

Lemma history_without_profile_witness :
  GET (Samples.history_env None) Samples.fresh
  = (Returns {| status := 200; body := HistoryBody [] None |},
     {| calls := [Call_auth; Call_user_findUnique "user_2a"];
        generations := [] |}).
Proof.
  exact (history_without_profile (Samples.history_env None) Samples.fresh
           "user_2a" eq_refl ltac:(discriminate) eq_refl).
Defined.

(** For contrast with C10: with a profile row, and a record read that
    fulfils, the answer always carries the [pagination] member. *)
Lemma history_with_profile_is_paged (e : Env) (w0 : World) (uid : string)
  (user : DbUser) (allGenerations : list Generation) :
  auth e = Returns (Some uid) -> uid <> "" ->
  user_findUnique e uid = Returns (Some user) ->
  generation_findMany e (user_id user) = Returns allGenerations ->
  exists page_groups pagination w',
    GET e w0
    = (Returns {| status := 200;
                  body := HistoryBody page_groups (Some pagination) |}, w').
Proof.
  intros Hauth Huid Huser Hall.
  destruct (groupedArray_run allGenerations) as (groups & Hrun & _).
  unfold GET, try_catch, bind at 1, perform at 1. rewrite Hauth. simpl.
  apply String.eqb_neq in Huid. rewrite Huid.
  unfold bind at 1, perform at 1. rewrite Huser.
  unfold bind at 1, perform at 1. rewrite Hall.
  unfold bind. rewrite Hrun. unfold ret. by eexists _, _, _.
Qed.

End HistoryClaims.

(** * More on the history route: order, headers, pages, failures *)

Section HistoryMore.
Import History.

Lemma mapO_Forall2 {A B} (f : A -> outcome B) l bs :
  mapO f l = Returns bs -> Forall2 (fun a b => f a = Returns b) l bs.
Proof.
  revert bs. induction l as [|a l IH]; intros bs; simpl.
  - intros [= <-]. constructor.
  - destruct (f a) as [b|] eqn:Ha; [|done].
    destruct (mapO f l) as [bs'|]; [|done].
    intros [= <-]. constructor; [done|by apply IH].
Qed.

Lemma groupedArray_entries all groups :
  groupedArray all = Returns groups ->
  Forall2 (fun kv g => groupEntry kv = Returns g) (grouped all) groups.
Proof. apply mapO_Forall2. Qed.

Lemma groupEntry_inv k v g :
  groupEntry (k, v) = Returns g ->
  exists gif0 rest,
    v = gif0 :: rest /\ groupId g = k
    /\ group_inputText g = inputText gif0
    /\ group_createdAt g = createdAt gif0
    /\ gifs g = sort compare v.
Proof.
  simpl. destruct v as [|gif0 rest]; [done|]. intros [= <-]. by exists gif0, rest.
Qed.

(** ** No record is lost or shown twice *)

Lemma push_concat m k x :
  has m k = true ->
  Permutation (concat (push m k x).*2) (x :: concat m.*2).
Proof.
  induction m as [|[k' v] m IH]; [done|]. intros Hhas.
  cbn [push has] in *. destruct (String.eqb k k'); csimpl in *.
  - rewrite <- app_assoc. simpl. symmetry. apply Permutation_middle.
  - rewrite (IH Hhas). symmetry. apply Permutation_middle.
Qed.

Lemma grouped_concat l : Permutation (concat (grouped l).*2) l.
Proof.
  induction l as [|x l IH] using rev_ind; [done|].
  rewrite grouped_snoc.
  destruct (has (grouped l) (groupKey x)) eqn:Hhas.
  - rewrite addGeneration_old by done. rewrite push_concat by done.
    rewrite IH. apply Permutation_cons_append.
  - rewrite addGeneration_new by done.
    rewrite fmap_app, concat_app. csimpl.
    by apply Permutation_app_tail.
Qed.

Lemma groups_concat m groups :
  Forall2 (fun kv g => groupEntry kv = Returns g) m groups ->
  Permutation (concat (gifs <$> groups)) (concat m.*2).
Proof.
  induction 1 as [|[k v] g m groups Hg _ IH]; [done|].
  apply groupEntry_inv in Hg as (gif0 & rest & -> & _ & _ & _ & Hs).
  csimpl. rewrite Hs, IH.
  apply (Permutation_app_tail _ (sort_perm (gif0 :: rest))).
Qed.

(** ** Group order and group headers *)

Lemma push_firsts m k x :
  (forall k' v, In (k', v) m -> v <> []) -> firsts (push m k x) = firsts m.
Proof.
  unfold firsts. induction m as [|[k' v] m IH]; intros Hne; [done|].
  assert (Hv : v <> []) by (apply (Hne k'); by left).
  assert (Hm : forall k'' v', In (k'', v') m -> v' <> [])
    by (intros k'' v' Hin; apply (Hne k''); by right).
  cbn [push]. destruct (String.eqb k k'); csimpl.
  - destruct v as [|gif0 rest]; [done|]. done.
  - by rewrite (IH Hm).
Qed.

Lemma firsts_In l h : In h (firsts (grouped l)) -> In h l.
Proof.
  destruct (grouped_spec l) as (_ & Hval & _).
  unfold firsts. intros Hin. apply list_elem_of_In, list_elem_of_omap in Hin
    as ([k v] & Hkv & Hh).
  apply list_elem_of_In, Hval in Hkv as [-> _]. simpl in Hh.
  assert (Hin : In h (keyed k l)).
  { destruct (keyed k l); [done|]. injection Hh as ->. by left. }
  unfold keyed in Hin. by apply List.filter_In in Hin as [? _].
Qed.

Lemma firsts_sorted l :
  StronglySorted newer l -> StronglySorted newer (firsts (grouped l)).
Proof.
  induction l as [|x l IH] using rev_ind; [constructor|]. intros Hs.
  apply StronglySorted_app in Hs as (Hlx & Hl & _).
  rewrite grouped_snoc.
  destruct (grouped_spec l) as (_ & Hval & _).
  destruct (has (grouped l) (groupKey x)) eqn:Hhas.
  - rewrite addGeneration_old by done. rewrite push_firsts; [by apply IH|].
    intros k' v Hin. by apply Hval in Hin as [_ ?].
  - rewrite addGeneration_new by done. unfold firsts. rewrite omap_app. csimpl.
    apply StronglySorted_app_2; [|by apply IH|repeat constructor].
    intros h y Hh Hy. apply list_elem_of_In in Hy as [<-|[]].
    apply Hlx; [|by left]. apply list_elem_of_In, firsts_In, list_elem_of_In, Hh.
Qed.

Lemma groups_firsts m groups :
  Forall2 (fun kv g => groupEntry kv = Returns g) m groups ->
  group_createdAt <$> groups = createdAt <$> firsts m.
Proof.
  unfold firsts. induction 1 as [|[k v] g m groups Hg _ IH]; [done|].
  apply groupEntry_inv in Hg as (gif0 & rest & -> & _ & _ & Hc & _).
  csimpl. by rewrite Hc, IH.
Qed.

Lemma keyed_sorted k l : StronglySorted newer l -> StronglySorted newer (keyed k l).
Proof.
  unfold keyed. induction 1 as [|x l Hl IH Hx]; [constructor|].
  simpl. destruct (String.eqb _ _); [|done]. constructor; [done|].
  apply List.Forall_forall. intros y Hy. apply List.filter_In in Hy as [Hy _].
  by eapply List.Forall_forall in Hx.
Qed.

Lemma Forall2_In_r {A B} (P : A -> B -> Prop) l k y :
  Forall2 P l k -> In y k -> exists x, In x l /\ P x y.
Proof.
  induction 1 as [|x y' l k HP _ IH]; intros Hin; [done|].
  destruct Hin as [->|Hin].
  - exists x. split; [by left|done].
  - destruct (IH Hin) as (x' & Hx' & HP'). exists x'. split; [by right|done].
Qed.

Lemma group_entry_of all groups g :
  groupedArray all = Returns groups -> In g groups ->
  exists gif0 rest,
    keyed (groupId g) all = gif0 :: rest
    /\ group_inputText g = inputText gif0
    /\ group_createdAt g = createdAt gif0
    /\ gifs g = sort compare (gif0 :: rest).
Proof.
  intros Hrun Hg. apply groupedArray_entries in Hrun.
  destruct (grouped_spec all) as (_ & Hval & _).
  destruct (Forall2_In_r _ _ _ _ Hrun Hg) as ([k v] & Hin & Hentry).
  apply groupEntry_inv in Hentry as (gif0 & rest & -> & <- & Hi & Hc & Hs).
  apply Hval in Hin as [Hk _]. exists gif0, rest. by rewrite <- Hk.
Qed.

Lemma StronglySorted_by {A B} (f : A -> B) (R : B -> B -> Prop) l :
  StronglySorted R (f <$> l) -> StronglySorted (fun a b => R (f a) (f b)) l.
Proof.
  induction l as [|x l IH]; [constructor|]. rewrite fmap_cons.
  intros Hs. apply StronglySorted_inv in Hs as [Hl Hx].
  constructor; [by apply IH|]. by apply (proj1 (Forall_fmap _ _ _)) in Hx.
Qed.

(** X1. When the store hands the records over newest first, the groups
    come out newest first as well, and the timestamp shown for a group is
    the newest among its records. *)
Theorem history_newest_first (all : list Generation) (groups : list Group) :
  groupedArray all = Returns groups ->
  StronglySorted newer all ->
  StronglySorted (fun g h => (group_createdAt h <= group_createdAt g)%Z) groups
  /\ forall g r, In g groups -> In r (gifs g) ->
       (createdAt r <= group_createdAt g)%Z.
Proof.
  intros Hrun Hsorted. split.
  - apply (StronglySorted_by group_createdAt (fun x y => (y <= x)%Z)).
    rewrite (groups_firsts _ _ (groupedArray_entries _ _ Hrun)).
    apply (StronglySorted_fmap createdAt newer); [done|]. by apply firsts_sorted.
  - intros g r Hg Hr.
    destruct (group_entry_of _ _ _ Hrun Hg) as (gif0 & rest & Hk & _ & -> & Hs).
    rewrite Hs in Hr. apply (Permutation_in _ (sort_perm _)) in Hr.
    pose proof (keyed_sorted (groupId g) all Hsorted) as Hks. rewrite Hk in Hks.
    apply StronglySorted_inv in Hks as [_ Hall].
    destruct Hr as [<-|Hr]; [lia|].
    by eapply List.Forall_forall in Hall.
Qed.

Lemma history_newest_first_witness :
  exists groups,
    groupedArray [Samples.a; Samples.b; Samples.c] = Returns groups
    /\ StronglySorted (fun g h => (group_createdAt h <= group_createdAt g)%Z) groups.
Proof.
  eexists. split; [reflexivity|].
  refine (proj1 (history_newest_first [Samples.a; Samples.b; Samples.c] _ eq_refl _)).
  repeat constructor; unfold newer; simpl; lia.
Defined.

(** X2. The text and the timestamp in the header of a group are those of
    the first record of the group in the order of the store, whichever
    record the sort by rank puts first among its GIFs. *)
Theorem history_group_header (all : list Generation) (groups : list Group)
  (g : Group) :
  groupedArray all = Returns groups -> In g groups ->
  exists first,
    head (keyed (groupId g) all) = Some first
    /\ group_inputText g = inputText first
    /\ group_createdAt g = createdAt first.
Proof.
  intros Hrun Hg.
  destruct (group_entry_of _ _ _ Hrun Hg) as (gif0 & rest & Hk & Hi & Hc & _).
  exists gif0. by rewrite Hk.
Qed.

Lemma history_group_header_witness :
  exists first,
    head (keyed "g" [Samples.a; Samples.b; Samples.c]) = Some first
    /\ "deploy on friday" = inputText first
    /\ 1764323600200%Z = createdAt first.
Proof.
  refine (history_group_header [Samples.a; Samples.b; Samples.c] _
            {| groupId := "g"; group_inputText := "deploy on friday";
               group_createdAt := 1764323600200;
               gifs := [Samples.b; Samples.a] |} eq_refl _).
  left. reflexivity.
Defined.

(** X3. Grouping loses no record and shows none twice: the GIFs of all
    groups together are the records of the store, up to order. *)
Theorem history_keeps_every_record (all : list Generation) (groups : list Group) :
  groupedArray all = Returns groups ->
  Permutation (concat (gifs <$> groups)) all.
Proof.
  intros Hrun. rewrite (groups_concat _ _ (groupedArray_entries _ _ Hrun)).
  apply grouped_concat.
Qed.

Lemma history_keeps_every_record_witness :
  exists groups,
    groupedArray [Samples.a; Samples.b; Samples.c] = Returns groups
    /\ Permutation (concat (gifs <$> groups)) [Samples.a; Samples.b; Samples.c].
Proof.
  eexists. split; [reflexivity|].
  exact (history_keeps_every_record [Samples.a; Samples.b; Samples.c] _ eq_refl).
Defined.

(** ** Pages *)

Lemma slice_window {A} (l : list A) (a L : Z) :
  (0 <= a)%Z -> (0 <= L)%Z ->
  slice l (Some a) (Some (a + L)%Z) = take (Z.to_nat L) (drop (Z.to_nat a) l).
Proof.
  intros Ha HL. unfold slice. simpl.
  rewrite (proj2 (Z.ltb_ge a 0)), (proj2 (Z.ltb_ge (a + L) 0)) by lia.
  destruct (decide (Z.of_nat (length l) <= a)%Z) as [Hout|Hin].
  - rewrite !Z.min_r by lia. rewrite Z.sub_diag, Nat2Z.id, drop_all. simpl.
    rewrite drop_ge by lia. by rewrite take_nil.
  - rewrite (Z.min_l a) by lia.
    destruct (decide (a + L <= Z.of_nat (length l))%Z) as [Hfit|Hover].
    + rewrite Z.min_l by lia. f_equal. lia.
    + rewrite Z.min_r by lia.
      rewrite !take_ge; [done|rewrite length_drop; lia..].
Qed.

Lemma ceil_div_pages (n L : Z) :
  (1 <= L)%Z -> ceil_div n (Some L) = Some (pages n L).
Proof.
  intros HL. unfold ceil_div, pages.
  rewrite (proj2 (Z.eqb_neq L 0)) by lia. f_equal.
  assert (Hq : (- n / L = - ((n + L - 1) / L))%Z).
  { symmetry. apply (Z.div_unique_pos _ _ _ (L - 1 - (n + L - 1) mod L)%Z).
    - pose proof (Z.mod_pos_bound (n + L - 1) L). lia.
    - pose proof (Z.div_mod (n + L - 1) L). pose proof (Z.mod_pos_bound (n + L - 1) L). lia. }
  lia.
Qed.

Lemma chunks {A} (L : nat) (k : nat) (l : list A) :
  (length l <= k * L)%nat ->
  concat ((fun i => take L (drop (i * L) l)) <$> seq 0 k) = l.
Proof.
  revert l. induction k as [|k IH]; intros l Hlen.
  - destruct l; [done|simpl in Hlen; lia].
  - cbn [seq]. rewrite fmap_cons. cbn [concat]. rewrite Nat.mul_0_l, drop_0.
    transitivity (take L l ++ drop L l); [|apply take_drop]. f_equal.
    rewrite <- (IH (drop L l)) by (rewrite length_drop; lia).
    f_equal. rewrite <- fmap_S_seq, <- list_fmap_compose.
    apply list_fmap_ext. intros _ i _. simpl.
    by rewrite drop_drop.
Qed.

(** X4. Paging is over groups. For a page number [p >= 1] and a page
    size [L >= 1] the answer carries the groups from position [(p-1)L]
    on, at most [L] of them, and a [pagination] whose [total] is the
    number of groups and whose [totalPages] is that number divided by [L],
    rounded up. The handler has looked the identity and the profile up and
    read the records, and nothing else. *)
Theorem history_page (e : Env) (w0 : World) (uid : string) (user : DbUser)
  (all : list Generation) (p L : Z) :
  auth e = Returns (Some uid) -> uid <> "" ->
  user_findUnique e uid = Returns (Some user) ->
  generation_findMany e (user_id user) = Returns all ->
  page_param e = Some p -> limit_param e = Some L ->
  (1 <= p)%Z -> (1 <= L)%Z ->
  exists groups,
    groupedArray all = Returns groups
    /\ GET e w0
       = (Returns
            {| status := 200;
               body := HistoryBody
                 (take (Z.to_nat L) (drop (Z.to_nat ((p - 1) * L)) groups))
                 (Some {| total := Z.of_nat (length groups);
                          page := Some p;
                          limit := Some L;
                          totalPages := Some (pages (Z.of_nat (length groups)) L) |}) |},
          {| calls := calls w0 ++ [Call_auth; Call_user_findUnique uid;
                                   Call_generation_findMany (user_id user)];
             generations := generations w0 |}).
Proof.
  intros Hauth Huid Huser Hall Hp HL Hp1 HL1.
  destruct (groupedArray_run all) as (groups & Hrun & _).
  exists groups. split; [done|].
  unfold GET, try_catch, bind at 1, perform at 1. rewrite Hauth. simpl.
  apply String.eqb_neq in Huid. rewrite Huid.
  unfold bind at 1, perform at 1. rewrite Huser.
  unfold bind at 1, perform at 1. rewrite Hall.
  unfold bind. rewrite Hrun, Hp, HL. cbn [num2].
  rewrite slice_window by nia. rewrite ceil_div_pages by lia.
  unfold ret, log. simpl. by rewrite <- !app_assoc.
Qed.

Lemma history_page_witness :
  exists groups,
    groupedArray [Samples.a; Samples.b; Samples.c] = Returns groups
    /\ (GET (Samples.history_env (Some {| user_id := "db-user_2a" |}))
            Samples.fresh).1
       = Returns
           {| status := 200;
              body := HistoryBody groups
                (Some {| total := 2; page := Some 1%Z; limit := Some 12%Z;
                         totalPages := Some 1%Z |}) |}.
Proof.
  destruct (history_page
              (Samples.history_env (Some {| user_id := "db-user_2a" |}))
              Samples.fresh "user_2a" {| user_id := "db-user_2a" |}
              [Samples.a; Samples.b; Samples.c] 1 12
              eq_refl ltac:(discriminate) eq_refl eq_refl eq_refl eq_refl
              ltac:(lia) ltac:(lia))
    as (groups & Hrun & HGET).
  exists groups. split; [exact Hrun|]. rewrite HGET.
  vm_compute in Hrun. injection Hrun as <-. reflexivity.
Defined.

Lemma pages_bounds (n L : Z) :
  (0 <= n)%Z -> (1 <= L)%Z ->
  (0 <= pages n L /\ n <= pages n L * L /\ (pages n L - 1) * L < n)%Z.
Proof.
  intros Hn HL. unfold pages.
  pose proof (Z.div_mod (n + L - 1) L ltac:(lia)) as Hdm.
  pose proof (Z.mod_pos_bound (n + L - 1) L ltac:(lia)) as Hmod.
  assert (0 <= (n + L - 1) / L)%Z by (apply Z.div_pos; lia).
  nia.
Qed.

(** X5. The pages partition the groups. With a page size [L >= 1]: the
    pages 1 to [totalPages], one after the other, are the whole list of
    groups; no page holds more than [L] groups; every page up to
    [totalPages] holds at least one group and every later page is
    empty. *)
Theorem history_pages_partition {A} (groups : list A) (L : Z) :
  (1 <= L)%Z ->
  let n := Z.of_nat (length groups) in
  let page_at (p : Z) :=
    slice groups (Some ((p - 1) * L)%Z) (Some ((p - 1) * L + L)%Z) in
  ceil_div n (Some L) = Some (pages n L)
  /\ concat ((fun i => page_at (Z.of_nat i)) <$> seq 1 (Z.to_nat (pages n L)))
     = groups
  /\ (forall p, (1 <= p)%Z -> (length (page_at p) <= Z.to_nat L)%nat)
  /\ (forall p, (1 <= p <= pages n L)%Z -> page_at p <> [])
  /\ (forall p, (pages n L < p)%Z -> page_at p = []).
Proof.
  intros HL n page_at.
  destruct (pages_bounds n L ltac:(lia) HL) as (Hp0 & Hcover & Hlast).
  assert (Hpage : forall p, (1 <= p)%Z ->
            page_at p = take (Z.to_nat L) (drop (Z.to_nat ((p - 1) * L)) groups)).
  { intros p Hp. unfold page_at. apply slice_window; nia. }
  split; [by apply ceil_div_pages|]. split; [|split; [|split]].
  - rewrite <- fmap_S_seq, <- list_fmap_compose.
    etransitivity;
      [|apply (chunks (Z.to_nat L) (Z.to_nat (pages n L)) groups); nia].
    f_equal. apply list_fmap_ext. intros _ i _. simpl.
    rewrite Hpage by lia. do 2 f_equal. nia.
  - intros p Hp. rewrite Hpage by done. rewrite length_take. lia.
  - intros p Hp. rewrite Hpage by lia. intros Hnil.
    apply (f_equal length) in Hnil. rewrite length_take, length_drop in Hnil.
    simpl in Hnil. assert (0 <= (p - 1) * L < n)%Z by nia. lia.
  - intros p Hp. rewrite Hpage by lia.
    assert (n <= (p - 1) * L)%Z by nia.
    rewrite drop_ge by lia. apply take_nil.
Qed.

Lemma history_pages_partition_witness :
  ceil_div 25 (Some 12%Z) = Some 3%Z
  /\ length (slice (seq 0 25) (Some ((3 - 1) * 12)%Z) (Some ((3 - 1) * 12 + 12)%Z))
     = 1%nat.
Proof.
  destruct (history_pages_partition (seq 0 25) 12 ltac:(lia))
    as (Hceil & _ & _ & _ & _).
  split; [exact Hceil|reflexivity].
Defined.

Lemma slice_malformed {A} (l : list A) (page limit : number) :
  page = None \/ limit = None \/ limit = Some 0%Z ->
  slice l (num2 Z.mul (num2 Z.sub page (Some 1%Z)) limit)
          (num2 Z.add (num2 Z.mul (num2 Z.sub page (Some 1%Z)) limit) limit)
  = [].
Proof.
  assert (Hnone : slice l None None = []).
  { unfold slice. simpl. rewrite Z.min_l by lia. reflexivity. }
  intros [ -> | [ -> | -> ]].
  - by destruct limit.
  - by destruct page.
  - destruct page as [p|]; [|done]. cbn [num2]. rewrite Z.mul_0_r.
    exact Hnone.
Qed.

(** X6. A page or a limit that does not parse to a number, or a limit
    of 0, is no error: the answer has status 200 and an empty list of
    groups, and with such a limit [totalPages] is not a number. *)
Theorem history_malformed_paging (e : Env) (w0 : World) (uid : string)
  (user : DbUser) (all : list Generation) :
  auth e = Returns (Some uid) -> uid <> "" ->
  user_findUnique e uid = Returns (Some user) ->
  generation_findMany e (user_id user) = Returns all ->
  page_param e = None \/ limit_param e = None \/ limit_param e = Some 0%Z ->
  exists groups tp w',
    groupedArray all = Returns groups
    /\ GET e w0
       = (Returns
            {| status := 200;
               body := HistoryBody []
                 (Some {| total := Z.of_nat (length groups);
                          page := page_param e;
                          limit := limit_param e;
                          totalPages := tp |}) |}, w')
    /\ (limit_param e = None \/ limit_param e = Some 0%Z -> tp = None).
Proof.
  intros Hauth Huid Huser Hall Hbad.
  destruct (groupedArray_run all) as (groups & Hrun & _).
  exists groups, (ceil_div (Z.of_nat (length groups)) (limit_param e)).
  eexists. split; [done|]. split.
  - unfold GET, try_catch, bind at 1, perform at 1. rewrite Hauth. simpl.
    apply String.eqb_neq in Huid. rewrite Huid.
    unfold bind at 1, perform at 1. rewrite Huser.
    unfold bind at 1, perform at 1. rewrite Hall.
    unfold bind. rewrite Hrun. unfold ret.
    by rewrite (slice_malformed groups _ _ Hbad).
  - intros [H|H]; rewrite H; done.
Qed.

Lemma history_malformed_paging_witness :
  exists w',
    GET {| auth := Returns (Some "user_2a");
           user_findUnique := fun _ => Returns (Some {| user_id := "db-user_2a" |});
           page_param := Some 1%Z;
           limit_param := Some 0%Z;
           generation_findMany := fun _ => Returns [Samples.a; Samples.b; Samples.c] |}
        Samples.fresh
    = (Returns
         {| status := 200;
            body := HistoryBody []
              (Some {| total := 2; page := Some 1%Z; limit := Some 0%Z;
                       totalPages := None |}) |}, w').
Proof.
  destruct (history_malformed_paging
              {| auth := Returns (Some "user_2a");
                 user_findUnique := fun _ => Returns (Some {| user_id := "db-user_2a" |});
                 page_param := Some 1%Z;
                 limit_param := Some 0%Z;
                 generation_findMany := fun _ => Returns [Samples.a; Samples.b; Samples.c] |}
              Samples.fresh "user_2a" {| user_id := "db-user_2a" |}
              [Samples.a; Samples.b; Samples.c]
              eq_refl ltac:(discriminate) eq_refl eq_refl
              (or_intror (or_intror eq_refl)))
    as (groups & tp & w' & Hrun & HGET & Htp).
  exists w'. rewrite HGET.
  vm_compute in Hrun. injection Hrun as <-.
  rewrite (Htp (or_intror eq_refl)). reflexivity.
Defined.

(** X7. Without an identity the history route answers 401 and touches
    nothing: the identity lookup is its only call. *)
Theorem history_unauthorized (e : Env) (w0 : World) (userId : option string) :
  auth e = Returns userId -> truthy userId = None ->
  GET e w0
  = (Returns {| status := 401; body := ErrorBody "Unauthorized" |},
     {| calls := calls w0 ++ [Call_auth]; generations := generations w0 |}).
Proof.
  intros Hauth Hnone.
  unfold GET, try_catch, bind, perform. rewrite Hauth, Hnone. done.
Qed.

Lemma history_unauthorized_witness :
  GET {| auth := Returns None;
         user_findUnique := fun _ => Throws;
         page_param := Some 1%Z;
         limit_param := Some 12%Z;
         generation_findMany := fun _ => Throws |}
      Samples.fresh
  = (Returns {| status := 401; body := ErrorBody "Unauthorized" |},
     {| calls := [Call_auth]; generations := [] |}).
Proof.
  exact (history_unauthorized
           {| auth := Returns None;
              user_findUnique := fun _ => Throws;
              page_param := Some 1%Z;
              limit_param := Some 12%Z;
              generation_findMany := fun _ => Throws |}
           Samples.fresh None eq_refl eq_refl).
Defined.

(** X8. The history route never rejects and never writes. Its status is
    200, 401 or 500, and it is 500 exactly when one of the three awaited
    calls rejects: the identity lookup, the profile lookup or the read of
    the records. Rebuilding the groups itself cannot fail. *)
Theorem history_never_rejects (e : Env) (w0 : World) :
  exists r w',
    GET e w0 = (Returns r, w')
    /\ generations w' = generations w0
    /\ (status r = 200 \/ status r = 401 \/ status r = 500)%Z
    /\ (status r = 500%Z <->
        auth e = Throws
        \/ exists uid,
             auth e = Returns (Some uid) /\ uid <> ""
             /\ (user_findUnique e uid = Throws
                 \/ exists user,
                      user_findUnique e uid = Returns (Some user)
                      /\ generation_findMany e (user_id user) = Throws)).
Proof.
  unfold GET, try_catch, bind at 1, perform at 1.
  destruct (auth e) as [[uid|]|] eqn:Hauth; simpl.
  2:{ eexists _, _. split; [reflexivity|]. split; [done|]. split; [auto|].
      simpl. split; [done|]. intros [?|(uid & ? & _)]; done. }
  2:{ eexists _, _. split; [reflexivity|]. split; [done|]. split; [auto|].
      simpl. split; [auto|done]. }
  destruct (String.eqb uid "") eqn:Huid.
  { eexists _, _. split; [reflexivity|]. split; [done|]. split; [auto|].
    simpl. split; [done|]. intros [?|(uid' & [= <-] & Hne & _)]; [done|].
    by apply String.eqb_neq in Hne; rewrite Hne in Huid. }
  apply String.eqb_neq in Huid.
  unfold bind at 1, perform at 1.
  destruct (user_findUnique e uid) as [[user|]|] eqn:Huser.
  2:{ eexists _, _. split; [reflexivity|]. split; [done|]. split; [auto|].
      simpl. split; [done|].
      intros [?|(uid' & [= <-] & _ & [?|(user & ? & _)])]; congruence. }
  2:{ eexists _, _. split; [reflexivity|]. split; [done|]. split; [auto|].
      simpl. split; [|done]. intros _. right. exists uid. auto. }
  unfold bind at 1, perform at 1.
  destruct (generation_findMany e (user_id user)) as [all|] eqn:Hall.
  2:{ eexists _, _. split; [reflexivity|]. split; [done|]. split; [auto|].
      simpl. split; [|done]. intros _. right. exists uid.
      split; [done|]. split; [done|]. right. by exists user. }
  destruct (groupedArray_run all) as (groups & Hrun & _).
  unfold bind. rewrite Hrun.
  eexists _, _. split; [reflexivity|]. split; [done|]. split; [auto|].
  simpl. split; [done|].
  intros [?|(uid' & [= <-] & _ & [?|(user' & Hu & Hf)])]; congruence.
Qed.

End HistoryMore.

(** * The stats route *)

Section StatsClaims.
Import History.

Lemma groupedArray_ids gens groups :
  groupedArray gens = Returns groups ->
  NoDup (groupId <$> groups)
  /\ forall k, k ∈ groupId <$> groups <-> k ∈ groupKey <$> gens.
Proof.
  intros Hrun.
  destruct (groupedArray_run gens) as (groups' & Hrun' & Hids & _).
  rewrite Hrun in Hrun'. injection Hrun' as <-.
  destruct (grouped_spec gens) as (Hnd & Hval & Hkey).
  rewrite Hids. split; [done|]. intros k. split.
  - intros Hk. apply list_elem_of_fmap in Hk as ([k' v] & -> & Hin). simpl.
    apply list_elem_of_In, Hval in Hin as [-> Hne].
    destruct (keyed k' gens) as [|x rest] eqn:Hx; [done|].
    assert (Hin : In x (keyed k' gens)) by (rewrite Hx; by left).
    unfold keyed in Hin. apply List.filter_In in Hin as [Hin Hk].
    apply String.eqb_eq in Hk as <-.
    by apply list_elem_of_fmap_2, list_elem_of_In.
  - intros Hk. apply list_elem_of_fmap in Hk as (x & -> & Hin).
    by apply list_elem_of_In, Hkey, list_elem_of_In.
Qed.

Lemma groupSet_size gens groups :
  groupedArray gens = Returns groups ->
  size (Stats.groupSet gens) = length groups.
Proof.
  intros Hrun. destruct (groupedArray_ids _ _ Hrun) as [Hnd Hsame].
  rewrite <- (length_fmap groupId), <- (size_list_to_set (C:=gset string)) by done.
  f_equal. apply set_eq. intros k. unfold Stats.groupSet.
  by rewrite !elem_of_list_to_set, Hsame.
Qed.

(** The groups with at least one record for which [P] holds. *)
Lemma groupSet_filter_size (P : Generation -> bool) gens groups :
  groupedArray gens = Returns groups ->
  size (Stats.groupSet (List.filter P gens))
  = length (List.filter (fun g => existsb P (gifs g)) groups).
Proof.
  intros Hrun. destruct (groupedArray_ids _ _ Hrun) as [Hnd Hsame].
  set (hit := List.filter (fun g => existsb P (gifs g)) groups).
  assert (Hsub : sublist hit groups).
  { unfold hit. clear. induction groups as [|g groups IH]; [constructor|].
    simpl. destruct (existsb _ _); by constructor. }
  assert (Hnd' : NoDup (groupId <$> hit)).
  { apply (sublist_NoDup (groupId <$> hit) (groupId <$> groups));
      [exact Hnd|by apply fmap_sublist]. }
  rewrite <- (length_fmap groupId), <- (size_list_to_set (C:=gset string)) by done.
  f_equal. apply set_eq. intros k. unfold Stats.groupSet.
  rewrite !elem_of_list_to_set. split.
  - intros Hk. apply list_elem_of_fmap in Hk as (x & -> & Hin).
    apply list_elem_of_In, List.filter_In in Hin as [Hin HP].
    assert (Hk : groupKey x ∈ groupId <$> groups)
      by (apply Hsame; by apply list_elem_of_fmap_2, list_elem_of_In).
    apply list_elem_of_fmap in Hk as (g & Hg & Hgin).
    apply list_elem_of_fmap. exists g. split; [done|].
    apply list_elem_of_In, List.filter_In. apply list_elem_of_In in Hgin.
    split; [done|]. apply existsb_exists. exists x. split; [|done].
    destruct (group_entry_of _ _ _ Hrun Hgin) as (gif0 & rest & Hk & _ & _ & ->).
    apply (Permutation_in _ (Permutation_sym (sort_perm _))).
    rewrite <- Hk. unfold keyed. apply List.filter_In. split; [done|].
    rewrite Hg. apply String.eqb_refl.
  - intros Hk. apply list_elem_of_fmap in Hk as (g & -> & Hgin).
    apply list_elem_of_In, List.filter_In in Hgin as [Hgin Hex].
    apply existsb_exists in Hex as (x & Hx & HP).
    destruct (group_entry_of _ _ _ Hrun Hgin) as (gif0 & rest & Hk & _ & _ & Hs).
    rewrite Hs in Hx. apply (Permutation_in _ (sort_perm _)) in Hx.
    rewrite <- Hk in Hx. unfold keyed in Hx.
    apply List.filter_In in Hx as [Hx Hkey]. apply String.eqb_eq in Hkey as <-.
    apply list_elem_of_fmap_2, list_elem_of_In, List.filter_In. by split.
Qed.

(** X9. The stats count sessions, not GIFs, and agree with the history:
    [totalGenerations] is the number of groups the history route rebuilds
    from the same records, [todayGenerations] is the number of those
    groups with a record created since local midnight, so never more than
    the total, and [daysActive] is the age of the profile in whole days
    and never less than 1. *)
Theorem stats_count_groups (e : Stats.Env) (w0 : World) (uid : string)
  (user : Stats.User) :
  Stats.auth e = Returns (Some uid) -> uid <> "" ->
  Stats.user_findUnique e uid = Returns (Some user) ->
  exists groups total today days w',
    groupedArray (Stats.generations user) = Returns groups
    /\ Stats.GET e w0
       = (Returns {| Stats.status := 200;
                     Stats.body := Stats.StatsBody total today days |}, w')
    /\ total = Z.of_nat (length groups)
    /\ today
       = Z.of_nat (length (List.filter
           (fun g => existsb (fun r => (Stats.today e <=? createdAt r)%Z) (gifs g))
           groups))
    /\ (0 <= today <= total)%Z
    /\ days = Z.max 1 ((Stats.now e - Stats.createdAt user) / 86400000)
    /\ (1 <= days)%Z.
Proof.
  intros Hauth Huid Huser.
  destruct (groupedArray_run (Stats.generations user)) as (groups & Hrun & _).
  exists groups. eexists _, _, _, _. split; [done|]. split.
  { unfold Stats.GET, try_catch, bind at 1, perform at 1. rewrite Hauth. simpl.
    apply String.eqb_neq in Huid. rewrite Huid.
    unfold bind, perform. rewrite Huser. reflexivity. }
  rewrite (groupSet_size _ _ Hrun), (groupSet_filter_size _ _ _ Hrun).
  split; [done|]. split; [done|]. split; [|split; [done|lia]].
  split; [lia|]. apply inj_le, List.filter_length_le.
Qed.

Lemma stats_count_groups_witness :
  exists w',
    Stats.GET {| Stats.auth := Returns (Some "user_2a");
                 Stats.user_findUnique := fun _ =>
                   Returns (Some {| Stats.createdAt := 1764000000000;
                                    Stats.generations :=
                                      [Samples.a; Samples.b; Samples.c] |});
                 Stats.today := 1764288000000;
                 Stats.now := 1764323700000 |}
              Samples.fresh
    = (Returns {| Stats.status := 200; Stats.body := Stats.StatsBody 2 1 3 |}, w').
Proof.
  destruct (stats_count_groups
              {| Stats.auth := Returns (Some "user_2a");
                 Stats.user_findUnique := fun _ =>
                   Returns (Some {| Stats.createdAt := 1764000000000;
                                    Stats.generations :=
                                      [Samples.a; Samples.b; Samples.c] |});
                 Stats.today := 1764288000000;
                 Stats.now := 1764323700000 |}
              Samples.fresh "user_2a"
              {| Stats.createdAt := 1764000000000;
                 Stats.generations := [Samples.a; Samples.b; Samples.c] |}
              eq_refl ltac:(discriminate) eq_refl)
    as (groups & total & today & days & w' & Hrun & HGET & -> & -> & _ & -> & _).
  exists w'. rewrite HGET.
  vm_compute in Hrun. injection Hrun as <-. reflexivity.
Defined.

(** X10. The stats route never rejects and never writes; its status is
    200, 401 or 500, it is 500 exactly when the identity lookup or the
    profile lookup rejects, and without a profile row the three figures
    are 0. *)
Theorem stats_never_rejects (e : Stats.Env) (w0 : World) :
  exists r w',
    Stats.GET e w0 = (Returns r, w')
    /\ generations w' = generations w0
    /\ (Stats.status r = 200 \/ Stats.status r = 401 \/ Stats.status r = 500)%Z
    /\ (Stats.status r = 500%Z <->
        Stats.auth e = Throws
        \/ exists uid, Stats.auth e = Returns (Some uid) /\ uid <> ""
                       /\ Stats.user_findUnique e uid = Throws)
    /\ (forall uid, Stats.auth e = Returns (Some uid) -> uid <> "" ->
          Stats.user_findUnique e uid = Returns None ->
          Stats.body r = Stats.StatsBody 0 0 0).
Proof.
  unfold Stats.GET, try_catch, bind at 1, perform at 1.
  destruct (Stats.auth e) as [[uid|]|] eqn:Hauth; simpl.
  2:{ eexists _, _. split; [reflexivity|]. split; [done|]. split; [auto|].
      simpl. split; [|done]. split; [done|]. intros [?|(uid & ? & _)]; done. }
  2:{ eexists _, _. split; [reflexivity|]. split; [done|]. split; [auto|].
      simpl. split; [|done]. split; [auto|done]. }
  destruct (String.eqb uid "") eqn:Huid.
  { eexists _, _. split; [reflexivity|]. split; [done|]. split; [auto|].
    simpl. split.
    - split; [done|]. intros [?|(uid' & [= <-] & Hne & _)]; [done|].
      by apply String.eqb_neq in Hne; rewrite Hne in Huid.
    - intros uid' [= <-] Hne. by apply String.eqb_neq in Hne; rewrite Hne in Huid. }
  apply String.eqb_neq in Huid.
  unfold bind, perform.
  destruct (Stats.user_findUnique e uid) as [[user|]|] eqn:Huser.
  - eexists _, _. split; [reflexivity|]. split; [done|]. split; [auto|].
    simpl. split.
    + split; [done|]. intros [?|(uid' & [= <-] & _ & ?)]; congruence.
    + intros uid' [= <-] _ ?. congruence.
  - eexists _, _. split; [reflexivity|]. split; [done|]. split; [auto|].
    simpl. split; [|done].
    split; [done|]. intros [?|(uid' & [= <-] & _ & ?)]; congruence.
  - eexists _, _. split; [reflexivity|]. split; [done|]. split; [auto|].
    simpl. split.
    + split; [|done]. intros _. right. by exists uid.
    + intros uid' [= <-] _ ?. congruence.
Qed.

End StatsClaims.

(** * More on the generation route *)

Section RouteMore.
Import Generate.
Variable e : Env.

Lemma bind_Returns {A B} (m : M A) (k : A -> M B) w b w' :
  bind m k w = (Returns b, w') ->
  exists a w1, m w = (Returns a, w1) /\ k a w1 = (Returns b, w').
Proof.
  unfold bind. destruct (m w) as [[a|] w1]; [|done]. intros Hk. by exists a, w1.
Qed.

Lemma perform_Returns {A} c (o : outcome A) w a w' :
  perform c o w = (Returns a, w') -> o = Returns a /\ w' = log c w.
Proof. unfold perform. by intros [= -> <-]. Qed.

(** ** Calls made by the fan-outs *)

Lemma fire_adds {A B} (P : call -> bool) (task : A -> M B) l w :
  (forall a w, adds P w (task a w).2) -> adds P w (fire task l w).2.
Proof.
  intros Htask. revert w. induction l as [|a l IH]; intros w; [apply adds_refl|].
  simpl. pose proof (Htask a w) as Ha. destruct (task a w) as [o w1].
  pose proof (IH w1) as Hl. destruct (fire task l w1) as [os w2].
  simpl in *. by eapply adds_trans.
Qed.

Lemma Promise_all_map_adds {A B} (P : call -> bool) sched (task : A -> M B) l w :
  (forall a w, adds P w (task a w).2) ->
  adds P w (Promise_all_map sched task l w).2.
Proof.
  intros Htask. pose proof (fire_adds P task l w Htask) as H.
  unfold Promise_all_map. by destruct (fire task l w).
Qed.

Lemma searchTask_stage s w : adds off_stage w (searchTask e s w).2.
Proof.
  unfold searchTask, bind, perform, ret.
  destruct (fetch e _) as [|[] [data|]]; simpl; adds_steps.
Qed.

Lemma selectionTask_stage text r w : adds off_stage w (selectionTask e text r w).2.
Proof.
  unfold selectionTask. destruct (gifs r); [apply adds_refl|].
  unfold try_catch, bind, perform, ret.
  destruct (generateObject _ _); simpl; adds_steps.
Qed.

Lemma selectAll_stage text strategies w :
  adds off_stage w (selectAll e text strategies w).2.
Proof.
  unfold selectAll, bind.
  pose proof (Promise_all_map_adds off_stage (search_order e) (searchTask e)
                strategies w searchTask_stage) as H1.
  destruct (Promise_all_map _ (searchTask e) _ _) as [[rs|] w1]; [|done].
  eapply adds_trans; [exact H1|].
  apply Promise_all_map_adds, selectionTask_stage.
Qed.

Lemma truthy_Some o s : truthy o = Some s -> o = Some s /\ s <> "".
Proof.
  unfold truthy. destruct o as [x|]; [|done].
  destruct (String.eqb x "") eqn:Hx; [done|]. intros [= ->].
  by apply String.eqb_neq in Hx.
Qed.

Lemma truthy_nonempty s : s <> "" -> truthy (Some s) = Some s.
Proof. intros Hs. unfold truthy. apply String.eqb_neq in Hs. by rewrite Hs. Qed.

(** ** What a returned response tells about the run *)

Lemma quota_gate_Returns userId w g w' :
  quota_gate e userId w = (Returns g, w') ->
  match g with
  | inl rej =>
      exists uid rr,
        truthy userId = Some uid /\ ratelimit_limit e uid = Returns rr
        /\ success rr = false /\ rej = rejected_429 rr
        /\ w' = log (Call_ratelimit uid) w
  | inr rl =>
      (truthy userId = None /\ w' = w
       /\ rl = (10, Date_now_start e + 24 * 60 * 60 * 1000, 0)%Z)
      \/ (exists uid rr u,
            truthy userId = Some uid /\ ratelimit_limit e uid = Returns rr
            /\ success rr = true /\ currentUser e = Returns u
            /\ user_upsert e uid u = Returns tt
            /\ rl = (limit rr, reset rr, remaining rr)
            /\ w' = log (Call_user_upsert uid u)
                      (log Call_currentUser (log (Call_ratelimit uid) w)))
  end.
Proof.
  unfold quota_gate. destruct (truthy userId) as [uid|].
  - unfold bind, perform, ret.
    destruct (ratelimit_limit e uid) as [rr|] eqn:Hrr; [|done].
    destruct (success rr) eqn:Hs; simpl.
    + destruct (currentUser e) as [u|] eqn:Hu; [|done].
      destruct (user_upsert e uid u) as [[]|] eqn:Hup; [|done].
      intros [= <- <-]. right. by exists uid, rr, u.
    + intros [= <- <-]. by exists uid, rr.
  - unfold ret. intros [= <- <-]. by left.
Qed.

Lemma generate_Returns userId rl w r w' :
  generate e userId rl w = (Returns r, w') ->
  r = text_required_400 \/ r = no_key_500 \/ r = not_found_404
  \/ exists text strategies selections wa,
       request_json e = Returns (JsString text) /\ text <> ""
       /\ generateObject strategiesSchema (generateStrategies e text)
          = Returns strategies
       /\ truthy (GIPHY_API_KEY e) <> None
       /\ selectAll e text strategies
            (log (Call_generateStrategies text) (log Call_request_json w))
          = (Returns selections, wa)
       /\ length (successfulSelections selections) <> 0%nat
       /\ persist e userId text (successfulSelections selections) wa
          = (Returns tt, w')
       /\ r = responseOf userId rl selections.
Proof.
  unfold generate. intros H.
  apply bind_Returns in H as (v & w1 & Hjson & H).
  apply perform_Returns in Hjson as [Hjson ->].
  destruct v as [| | | |t|]; try (injection H as <- <-; by left).
  destruct (js_not (JsString t) || _) eqn:Hbad; [injection H as <- <-; by left|].
  apply bind_Returns in H as (strategies & w2 & Hstr & H).
  apply perform_Returns in Hstr as [Hstr ->].
  destruct (truthy (GIPHY_API_KEY e)) as [key|] eqn:Hkey;
    [|injection H as <- <-; right; by left].
  apply bind_Returns in H as (selections & wa & Hsel & H).
  unfold aggregate in H.
  destruct (length (successfulSelections selections) =? 0)%nat eqn:Hlen;
    [injection H as <- <-; right; right; by left|].
  apply bind_Returns in H as ([] & w3 & Hper & H).
  rewrite respond_run in H. injection H as <- <-.
  right. right. right. exists t, strategies, selections, wa.
  apply orb_false_elim in Hbad as [Hne _]. simpl in Hne.
  apply String.eqb_neq in Hne. apply Nat.eqb_neq in Hlen.
  repeat (split; [done|]). done.
Qed.

Lemma POST_Returns w0 r w' :
  POST e w0 = (Returns r, w') ->
  r = failed_500
  \/ (exists uid rr,
        auth e = Returns (Some uid) /\ uid <> ""
        /\ ratelimit_limit e uid = Returns rr /\ success rr = false
        /\ r = rejected_429 rr)
  \/ r = text_required_400 \/ r = no_key_500 \/ r = not_found_404
  \/ exists userId rl text strategies selections w,
       reaches e w0 userId rl text strategies selections w
       /\ length (successfulSelections selections) <> 0%nat
       /\ persist e userId text (successfulSelections selections) w
          = (Returns tt, w')
       /\ r = responseOf userId rl selections.
Proof.
  unfold POST, try_catch.
  destruct (bind _ _ w0) as [[r0|] w1] eqn:H.
  - intros [= -> ->].
    apply bind_Returns in H as (userId & wa & Hauth & H).
    apply perform_Returns in Hauth as [Hauth ->].
    apply bind_Returns in H as (gate & wb & Hgate & H).
    pose proof (quota_gate_Returns _ _ _ _ Hgate) as Hg.
    destruct gate as [rej|rl].
    + injection H as <- <-. destruct Hg as (uid & rr & Hu & Hrr & Hs & -> & _).
      right. left. apply truthy_Some in Hu as [-> Hne]. by exists uid, rr.
    + apply generate_Returns in H
        as [->|[->|[->|(t & strategies & selections & wc & H1 & H2 & H3 & H4
                        & H5 & H6 & H7 & ->)]]].
      * right. right. by left.
      * right. right. right. by left.
      * do 4 right. by left.
      * do 5 right. exists userId, rl, t, strategies, selections, wc.
        split; [|done]. unfold reaches. do 5 (split; [done|]). by exists wb.
  - unfold on_error, bind, perform, ret. intros [= <- <-]. by left.
Qed.

Lemma POST_total w0 : exists r w', POST e w0 = (Returns r, w').
Proof.
  unfold POST, try_catch. destruct (bind _ _ w0) as [[r|] w1]; [by eexists _, _|].
  unfold on_error, bind, perform, ret. by eexists _, _.
Qed.

(** ** The entries and the candidates *)

Lemma entriesOf_In entry selections :
  In entry (entriesOf selections) ->
  exists s g, In s selections /\ selectedGif s = Some g /\ entry = resultEntry s g.
Proof.
  intros H. apply list_elem_of_In, list_elem_of_omap in H as (s & Hs & Heq).
  destruct (selectedGif s) as [g|] eqn:Hg; [|done].
  injection Heq as <-. exists s, g. by apply list_elem_of_In in Hs.
Qed.

Lemma selectionTask_chosen text r w :
  exists v w',
    selectionTask e text r w = (Returns v, w')
    /\ (strategy v = search_strategy r
        /\ forall g, selectedGif v = Some g -> In g (gifs r))
    /\ quiet w w'.
Proof.
  unfold selectionTask.
  destruct (gifs r) as [|gif0 rest] eqn:Hg.
  - eexists _, w. unfold ret. split; [reflexivity|]. simpl.
    split; [by split|apply adds_refl].
  - unfold try_catch, bind, perform, ret.
    destruct (generateObject _ _) as [sel|]; simpl; eexists _, _;
      (split; [reflexivity|]); simpl; (split; [split; [done|]|adds_steps]).
    + intros g [= <-].
      destruct ((gif0 :: rest) !! Z.to_nat (selectedIndex sel)) as [x|] eqn:Hx;
        simpl; [|by left].
      change (In x (gif0 :: rest)).
      apply list_elem_of_In. by eapply list_elem_of_lookup_2.
    + intros g [= <-]. by left.
Qed.

Lemma selectAll_chosen text strategies w :
  exists selections w',
    selectAll e text strategies w = (Returns selections, w')
    /\ Forall2 (chosen_of e) strategies selections.
Proof.
  unfold selectAll, bind.
  destruct (Promise_all_map_run (searchTask e)
              (fun s r => search_strategy r = s /\ gifs r = candidates e s)
              (searchTask_run e) (search_order e) strategies w)
    as (rs & w1 & -> & Hrs & _).
  destruct (Promise_all_map_run (selectionTask e text)
              (fun r v => strategy v = search_strategy r
                          /\ forall g, selectedGif v = Some g -> In g (gifs r))
              (selectionTask_chosen text) (selection_order e) rs w1)
    as (vs & w2 & -> & Hvs & _).
  exists vs, w2. split; [done|].
  clear -Hrs Hvs. revert vs Hvs.
  induction Hrs as [|s r strategies rs [Hs Hc] _ IH]; intros vs Hvs;
    inversion Hvs as [|? v ? vs' [Hv Hn] Hvs']; subst; constructor.
  - split; [done|]. intros g Hg. rewrite <- Hc. by apply Hn.
  - by apply IH.
Qed.

Lemma reaches_chosen w0 userId rl text strategies selections w :
  reaches e w0 userId rl text strategies selections w ->
  Forall2 (chosen_of e) strategies selections.
Proof.
  intros (_ & _ & _ & _ & _ & w1 & _ & Hsel).
  destruct (selectAll_chosen text strategies
              (log (Call_generateStrategies text) (log Call_request_json w1)))
    as (vs & w2 & Hrun & Hvs).
  rewrite Hsel in Hrun. by injection Hrun as <- <-.
Qed.

Lemma reaches_schema w0 userId rl text strategies selections w :
  reaches e w0 userId rl text strategies selections w ->
  generateStrategies e text = Returns strategies
  /\ Forall (fun s => strategy_ok s = true) strategies.
Proof.
  intros (_ & _ & _ & Hstr & _). unfold generateObject in Hstr.
  destruct (generateStrategies e text) as [l|]; [|done].
  destruct (strategiesSchema l) eqn:Hs; [|done].
  injection Hstr as ->. split; [done|].
  unfold strategiesSchema in Hs. apply andb_prop in Hs as [_ Hs].
  apply Forall_forall. intros s Hin. apply list_elem_of_In in Hin.
  by eapply forallb_forall in Hs.
Qed.

(** ** The writes *)

Lemma fire_createTask rows w :
  fire (createTask e) rows w
  = (generation_create e <$> rows,
     {| calls := calls w ++ (Call_generation_create <$> rows);
        generations := generations w |}).
Proof.
  revert w. induction rows as [|d rows IH]; intros w.
  - simpl. rewrite app_nil_r. by destruct w.
  - cbn [fire]. unfold createTask at 1, perform at 1.
    rewrite !fmap_cons, IH. simpl. by rewrite <- !app_assoc.
Qed.

(** The store inserts every row once, in whatever order. *)
Lemma each_once_In i l : In i (each_once l) <-> In i l.
Proof.
  induction l as [|a l IH]; [done|]. simpl.
  rewrite List.filter_In, IH. split.
  - intros [->|[Hin _]]; [by left|by right].
  - intros [->|Hin]; [by left|].
    destruct (Nat.eqb_spec i a) as [->|Hne]; [by left|]. by right.
Qed.

Lemma each_once_NoDup l : NoDup (each_once l).
Proof.
  induction l as [|a l IH]; simpl; [constructor|].
  apply NoDup_cons. split.
  - intros Hin. apply list_elem_of_In, List.filter_In in Hin as [_ Hne].
    by rewrite Nat.eqb_refl in Hne.
  - by apply NoDup_ListNoDup, List.NoDup_filter, NoDup_ListNoDup.
Qed.

Lemma insertion_order_perm sched n : insertion_order sched n ≡ₚ seq 0 n.
Proof.
  apply NoDup_Permutation; [apply each_once_NoDup|apply NoDup_seq|].
  intros i. unfold insertion_order.
  rewrite !list_elem_of_In, each_once_In, in_app_iff, List.filter_In.
  split; [|by right]. intros [[_ Hlt]|Hin]; [|done].
  apply Nat.ltb_lt in Hlt. apply in_seq. lia.
Qed.

Lemma omap_ext_in {A B} (f g : A -> option B) (l : list A) :
  (forall x, In x l -> f x = g x) -> omap f l = omap g l.
Proof.
  induction l as [|a l IH]; intros H; [done|]. csimpl.
  rewrite (H a (or_introl eq_refl)), IH; [done|].
  intros x Hx. apply H. by right.
Qed.

Lemma written_by_index rows :
  omap (fun i =>
          match rows !! i with
          | Some d =>
              match generation_create e d with
              | Returns _ => Some d
              | Throws => None
              end
          | None => None
          end)
       (seq 0 (length rows))
  = written e rows.
Proof.
  unfold written. induction rows as [|d rows IH] using rev_ind; [done|].
  rewrite length_app, Nat.add_comm. simpl length.
  rewrite seq_S, omap_app, List.filter_app. simpl seq. f_equal.
  - rewrite <- IH. apply omap_ext_in. intros i Hi. apply in_seq in Hi.
    by rewrite lookup_app_l by lia.
  - csimpl. rewrite lookup_app_r by lia. rewrite Nat.sub_diag. simpl.
    by destruct (generation_create e d).
Qed.

Lemma inserted_perm rows : inserted e rows ≡ₚ written e rows.
Proof.
  unfold inserted. rewrite <- written_by_index.
  apply omap_Permutation, insertion_order_perm.
Qed.

Lemma join_all {B} (outs : list (outcome B)) :
  (exists vs, join outs = Returns vs)
  <-> Forall (fun o => o <> Throws) outs.
Proof.
  induction outs as [|[v|] outs IH]; simpl.
  - split; [constructor|by eexists].
  - split.
    + intros [vs Hvs]. constructor; [done|]. apply IH.
      destruct (join outs); [by eexists|done].
    + intros H. apply Forall_inv_tail, IH in H as [vs ->]. by eexists.
  - split; [by intros [? ?]|]. intros H. by apply Forall_inv in H.
Qed.

Lemma written_all rows :
  written e rows = rows
  <-> forall row, In row rows -> generation_create e row = Returns tt.
Proof.
  unfold written. induction rows as [|d rows IH]; [by split|].
  cbn [List.filter]. destruct (generation_create e d) as [[]|] eqn:Hd.
  - split.
    + intros [= H] row [<-|Hin]; [done|]. by apply IH.
    + intros H. f_equal. apply IH. intros row Hin. apply H. by right.
  - split.
    + intros H. exfalso.
      pose proof (List.filter_length_le
                    (fun d => match generation_create e d with
                              | Returns _ => true | Throws => false end) rows) as Hle.
      rewrite H in Hle. simpl in Hle. lia.
    + intros H. specialize (H d (or_introl eq_refl)). congruence.
Qed.

Lemma persist_found userId uid dbUser text selections w :
  truthy userId = Some uid ->
  user_findUnique e uid = Returns (Some dbUser) ->
  persist e userId text (successfulSelections selections) w
  = (match join (generation_create e
                   <$> rowsOf dbUser text
                         (generationGroupId (Date_now e) (Math_random_suffix e))
                         selections) with
     | Returns _ => Returns tt
     | Throws => Throws
     end,
     {| calls := calls w ++ Call_user_findUnique uid
                   :: (Call_generation_create
                         <$> rowsOf dbUser text
                               (generationGroupId (Date_now e) (Math_random_suffix e))
                               selections);
        generations := generations w
                       ++ inserted e (rowsOf dbUser text
                            (generationGroupId (Date_now e) (Math_random_suffix e))
                            selections) |}).
Proof.
  intros Huid Hdb. unfold persist. rewrite Huid.
  unfold bind at 1, perform at 1. rewrite Hdb.
  unfold bind at 1. rewrite mapM_deref.
  fold (rowsOf dbUser text (generationGroupId (Date_now e) (Math_random_suffix e))
          selections).
  unfold bind at 1, createAll, Promise_all_map.
  rewrite fire_createTask, Promise_all_join.
  simpl. rewrite <- app_assoc. simpl.
  by destruct (join _).
Qed.

Lemma rows_entries dbUser text groupId selections :
  Forall2 same_gif (rowsOf dbUser text groupId selections) (entriesOf selections).
Proof.
  unfold rowsOf, entriesOf.
  induction selections as [|s selections IH]; [constructor|].
  csimpl. destruct (selectedGif s) as [g|]; simpl; [|exact IH].
  constructor; [|exact IH]. by repeat split.
Qed.

Lemma rows_group dbUser text groupId selections :
  Forall (fun row => data_userId row = user_id dbUser
                     /\ data_inputText row = text
                     /\ data_generationGroupId row = groupId)
         (rowsOf dbUser text groupId selections).
Proof.
  unfold rowsOf.
  induction selections as [|s selections IH]; [constructor|].
  csimpl. destruct (selectedGif s) as [g|]; simpl; [|exact IH].
  constructor; [|exact IH]. by repeat split.
Qed.

(** ** The calls of the two fan-outs *)

Section Trace.
Context {A B X : Type} (task : A -> M B) (pick : call -> option X)
  (g : A -> list X).

Hypothesis task_trace :
  forall a w, exists new,
    calls (task a w).2 = calls w ++ new /\ omap pick new = g a.



End Trace.








(** ** An anonymous caller *)

Lemma persist_anonymous userId text successful w :
  truthy userId = None -> persist e userId text successful w = (Returns tt, w).
Proof. intros Hnone. unfold persist. by rewrite Hnone. Qed.

Lemma generate_anonymous userId rl w :
  truthy userId = None -> adds identity_call w (generate e userId rl w).2.
Proof.
  intros Hnone. unfold generate, bind at 1, perform at 1.
  destruct (request_json e) as [v|]; [|simpl; adds_steps].
  assert (H400 : adds identity_call w (log Call_request_json w)) by adds_steps.
  destruct v as [| | | |t|]; try exact H400.
  destruct (js_not _ || _); [exact H400|].
  unfold bind at 1, perform at 1.
  destruct (generateObject _ _) as [strategies|]; [|simpl; adds_steps].
  destruct (truthy (GIPHY_API_KEY e)); [|simpl; adds_steps].
  unfold bind at 1.
  pose proof (selectAll_stage t strategies
                (log (Call_generateStrategies t) (log Call_request_json w))) as Hs.
  apply (adds_weaken off_stage identity_call) in Hs; [|by intros []].
  assert (Hw : adds identity_call w
                 (selectAll e t strategies
                    (log (Call_generateStrategies t) (log Call_request_json w))).2).
  { eapply adds_trans; [|exact Hs]. adds_steps. }
  clear Hs. destruct (selectAll _ _ _ _) as [[selections|] w1]; [|exact Hw].
  unfold aggregate. destruct (_ =? _)%nat; [exact Hw|].
  unfold bind at 1. rewrite persist_anonymous by done.
  by rewrite respond_run.
Qed.

Lemma POST_anonymous userId w0 :
  auth e = Returns userId -> truthy userId = None ->
  adds identity_call w0 (POST e w0).2.
Proof.
  intros Hauth Hnone. unfold POST, try_catch, bind at 1, perform at 1.
  rewrite Hauth. unfold bind at 1, quota_gate. rewrite Hnone. unfold ret at 1.
  pose proof (generate_anonymous userId
                (10, Date_now_start e + 24 * 60 * 60 * 1000, 0)%Z
                (log Call_auth w0) Hnone) as Hg.
  assert (Hw : adds identity_call w0
                 (generate e userId (10, Date_now_start e + 24 * 60 * 60 * 1000, 0)%Z
                    (log Call_auth w0)).2).
  { eapply adds_trans; [|exact Hg]. adds_steps. }
  clear Hg. destruct (generate _ _ _ _) as [[r|] w1]; [exact Hw|].
  unfold on_error, bind, perform, ret. simpl in *.
  eapply adds_trans; [exact Hw|]. adds_steps.
Qed.

End RouteMore.

Lemma quota_gate_early (e : Generate.Env) userId w r w' :
  Generate.quota_gate e userId w = (r, w') -> adds after_strategies w w'.
Proof.
  unfold Generate.quota_gate. destruct (truthy userId) as [uid|].
  - unfold bind, perform, ret.
    destruct (Generate.ratelimit_limit e uid) as [rr|]; [|intros [= _ <-]; adds_steps].
    destruct (success rr); simpl.
    + destruct (Generate.currentUser e); [|intros [= _ <-]; adds_steps].
      destruct (Generate.user_upsert e uid _); intros [= _ <-]; adds_steps.
    + intros [= _ <-]; adds_steps.
  - intros [= _ <-]; adds_steps.
Qed.

Lemma strategies_rejected (l : list Strategy) :
  length l <> 3%nat
  \/ (exists s, In s l
        /\ (keywords s = [] \/ (3 < length (keywords s))%nat
            \/ ~ In (perspective s) Generate.perspective_enum)) ->
  Generate.strategiesSchema l = false.
Proof.
  intros H. destruct (Generate.strategiesSchema l) eqn:Hs; [exfalso|done].
  unfold Generate.strategiesSchema in Hs. apply andb_prop in Hs as [Hlen Hall].
  apply Nat.eqb_eq in Hlen. destruct H as [H|(s & Hin & H)]; [done|].
  pose proof (proj1 (List.forallb_forall _ _) Hall s Hin) as Hok. clear Hall.
  rename Hok into Hall. unfold Generate.strategy_ok in Hall.
  apply andb_prop in Hall as [Hk Henum]. apply andb_prop in Hk as [Hk1 Hk3].
  apply Nat.leb_le in Hk1, Hk3.
  destruct H as [H|[H|H]].
  - rewrite H in Hk1. simpl in Hk1. lia.
  - lia.
  - apply H. unfold Generate.in_enum in Henum.
    apply existsb_exists in Henum as (x & Hx & Heq).
    apply String.eqb_eq in Heq. by subst.
Qed.

Lemma strategy_ok_spec (s : Strategy) :
  Generate.strategy_ok s = true ->
  In (perspective s) Generate.perspective_enum
  /\ (1 <= length (keywords s) <= 3)%nat.
Proof.
  unfold Generate.strategy_ok. intros H.
  apply andb_prop in H as [Hk Henum]. apply andb_prop in Hk as [Hk1 Hk3].
  apply Nat.leb_le in Hk1, Hk3. split; [|lia].
  unfold Generate.in_enum in Henum.
  apply existsb_exists in Henum as (x & Hx & Heq).
  apply String.eqb_eq in Heq. by subst.
Qed.

Lemma responseOf_fields userId lim rst rem selections :
  status (responseOf userId (lim, rst, rem) selections) = 200%Z
  /\ body (responseOf userId (lim, rst, rem) selections)
     = DataBody
         {| results := entriesOf selections;
            totalFound :=
              Z.of_nat (length (Generate.successfulSelections selections));
            requestedPerspectives := 3;
            rateLimit :=
              match truthy userId with
              | Some _ => Some {| info_remaining := rem; info_limit := lim;
                                  info_reset := rst |}
              | None => None
              end |}
  /\ headers (responseOf userId (lim, rst, rem) selections)
     = match truthy userId with
       | Some _ => [("X-RateLimit-Limit", Number_toString lim);
                    ("X-RateLimit-Remaining", Number_toString rem);
                    ("X-RateLimit-Reset", Number_toString rst)]
       | None => []
       end.
Proof. unfold responseOf. by destruct (truthy userId). Qed.

(** * The generation route: every answer, every call *)

Section GenerationMore.
Import Generate.

(** X11. The generation handler never rejects: whatever the collaborators
    do, it answers, and the answer is one of six. A result set goes with
    200 and is never empty; the quota body goes with 429, [remaining] 0
    and the rate-limit headers; an error body goes with 400, 404 or 500,
    without headers, and its text is one of four fixed strings, so no
    error raised underneath is ever passed on to the caller. *)
Theorem generation_always_answers (e : Env) (w0 : World) :
  exists r w',
    POST e w0 = (Returns r, w')
    /\ match body r with
       | DataBody d => status r = 200%Z /\ results d <> []
       | RateLimitBody _ _ rem _ =>
           status r = 429%Z /\ rem = 0%Z /\ length (headers r) = 3%nat
       | ErrorBody msg =>
           headers r = []
           /\ ((status r = 400%Z /\ msg = "Text input is required")
               \/ (status r = 404%Z
                   /\ msg = "No GIFs found for any perspective. Please try a different description.")
               \/ (status r = 500%Z
                   /\ (msg = "Giphy API key not configured"
                       \/ msg = "Failed to generate GIF recommendation")))
       end.
Proof.
  destruct (POST_total e w0) as (r & w' & H). exists r, w'. split; [done|].
  apply POST_Returns in H
    as [->|[(uid & rr & _ & _ & _ & _ & ->)|[->|[->|[->|
         (userId & [[lim rst] rem] & text & strategies & selections & w
          & _ & Hne & _ & ->)]]]]].
  - simpl. split; [done|]. right. right. split; [done|by right].
  - done.
  - simpl. split; [done|]. by left.
  - simpl. split; [done|]. right. right. split; [done|by left].
  - simpl. split; [done|]. right. by left.
  - destruct (responseOf_fields userId lim rst rem selections) as (Hs & -> & _).
    split; [exact Hs|]. simpl. intros Hnil. apply Hne.
    by rewrite successful_length, Hnil.
Qed.

(** X12. Every result set the handler returns, whatever the run: the
    status is 200, there are between one and three results,
    [totalFound] counts them and [requestedPerspectives] is 3; every
    entry carries a perspective of the enum and one to three keywords,
    as the strategies schema demands. For an anonymous caller the body
    has no rate-limit figures and the response no headers; for an
    identified caller the figures and the three headers are those the
    limiter returned when it admitted this request. *)
Theorem result_set_shape (e : Env) (w0 : World) (r : Response) (w' : World)
  (d : ResponseData) :
  POST e w0 = (Returns r, w') -> body r = DataBody d ->
  status r = 200%Z
  /\ (1 <= length (results d) <= 3)%nat
  /\ totalFound d = Z.of_nat (length (results d))
  /\ requestedPerspectives d = 3%Z
  /\ Forall (fun entry =>
               In (result_perspective entry) perspective_enum
               /\ (1 <= length (result_keywords entry) <= 3)%nat)
            (results d)
  /\ exists userId,
       auth e = Returns userId
       /\ match truthy userId with
          | None => rateLimit d = None /\ headers r = []
          | Some uid =>
              exists rr,
                ratelimit_limit e uid = Returns rr /\ success rr = true
                /\ rateLimit d
                   = Some {| info_remaining := remaining rr;
                             info_limit := limit rr;
                             info_reset := reset rr |}
                /\ headers r
                   = [("X-RateLimit-Limit", Number_toString (limit rr));
                      ("X-RateLimit-Remaining", Number_toString (remaining rr));
                      ("X-RateLimit-Reset", Number_toString (reset rr))]
          end.
Proof.
  intros H Hd.
  apply POST_Returns in H
    as [->|[(uid & rr & _ & _ & _ & _ & ->)|[->|[->|[->|
         (userId & [[lim rst] rem] & text & strategies & selections & w
          & Hreach & Hne & _ & ->)]]]]]; try discriminate.
  destruct (responseOf_fields userId lim rst rem selections) as (Hs & Hb & Hh).
  rewrite Hb in Hd. injection Hd as <-.
  cbn [results totalFound requestedPerspectives rateLimit].
  destruct (reaches_strategies e _ _ _ _ _ _ _ Hreach) as [Hstr Hlen].
  destruct (reaches_schema e _ _ _ _ _ _ _ Hreach) as [_ Hok].
  pose proof (successful_length selections) as Hsl.
  split; [exact Hs|]. split; [|split; [by rewrite Hsl|split; [done|split]]].
  - rewrite <- Hsl. split; [lia|].
    rewrite <- Hlen, <- Hstr, length_fmap.
    apply sublist_length, successful_sublist.
  - apply Forall_forall. intros entry Hin.
    apply list_elem_of_In, entriesOf_In in Hin as (s & g & Hin & _ & ->).
    simpl. apply strategy_ok_spec.
    eapply (proj1 (Forall_forall _ _) Hok).
    rewrite <- Hstr. apply list_elem_of_fmap. exists s.
    split; [done|by apply list_elem_of_In].
  - exists userId. destruct Hreach as (Hauth & _ & _ & _ & _ & w1 & Hgate & _).
    split; [exact Hauth|].
    apply quota_gate_Returns in Hgate
      as [(Hnone & _ & _)|(uid & rr & u & Huid & Hrr & Hsucc & _ & _ & [= -> -> ->] & _)].
    + rewrite Hh, Hnone. done.
    + rewrite Hh, Huid. by exists rr.
Qed.

Lemma result_set_shape_witness :
  exists r w' d,
    POST (Samples.env (Some "user_2a") true Samples.compiled Samples.ranked
            Samples.only_relieved (Samples.pick 1) Samples.writes_ok)
         Samples.fresh = (Returns r, w')
    /\ body r = DataBody d
    /\ status r = 200%Z
    /\ (1 <= length (results d) <= 3)%nat
    /\ totalFound d = Z.of_nat (length (results d)).
Proof.
  eexists _, _, _. split; [vm_compute; reflexivity|]. split; [reflexivity|].
  destruct (result_set_shape
              (Samples.env (Some "user_2a") true Samples.compiled Samples.ranked
                 Samples.only_relieved (Samples.pick 1) Samples.writes_ok)
              Samples.fresh _ _ _ ltac:(vm_compute; reflexivity) eq_refl)
    as (Hs & Hl & Ht & _).
  split; [exact Hs|]. split; [exact Hl|exact Ht].
Defined.

(** X13. Every GIF the handler returns came out of the Giphy search made
    for its own perspective: each entry of a returned result set belongs
    to one of the derived strategies, carries that strategy's
    perspective, keywords and topic, and its url and title are those of
    one of the candidates the search of that strategy came back with. *)
Theorem results_come_from_their_search (e : Env) (w0 : World) (r : Response)
  (w' : World) (d : ResponseData) :
  POST e w0 = (Returns r, w') -> body r = DataBody d ->
  exists text strategies,
    request_json e = Returns (JsString text)
    /\ generateStrategies e text = Returns strategies
    /\ Forall (fun entry =>
                 exists s g,
                   In s strategies /\ In g (candidates e s)
                   /\ result_url entry = url g
                   /\ result_title entry = title g
                   /\ result_perspective entry = perspective s
                   /\ result_keywords entry = keywords s
                   /\ result_topic entry = topic s)
              (results d).
Proof.
  intros H Hd.
  apply POST_Returns in H
    as [->|[(uid & rr & _ & _ & _ & _ & ->)|[->|[->|[->|
         (userId & [[lim rst] rem] & text & strategies & selections & w
          & Hreach & Hne & _ & ->)]]]]]; try discriminate.
  destruct (responseOf_fields userId lim rst rem selections) as (_ & Hb & _).
  rewrite Hb in Hd. injection Hd as <-. cbn [results].
  exists text, strategies.
  destruct (reaches_schema e _ _ _ _ _ _ _ Hreach) as [Hgen _].
  split; [apply Hreach|]. split; [exact Hgen|].
  apply Forall_forall. intros entry Hin.
  apply list_elem_of_In, entriesOf_In in Hin as (v & g & Hin & Hg & ->).
  destruct (Forall2_In_r _ _ _ _ (reaches_chosen e _ _ _ _ _ _ _ Hreach) Hin)
    as (s & Hs & [Hv Hc]).
  exists s, g. subst s. simpl. repeat split; try done. by apply Hc.
Qed.

Lemma results_come_from_their_search_witness :
  exists r w' d,
    POST (Samples.env None true Samples.compiled Samples.unranked
            Samples.two_hits (Samples.pick 1) Samples.writes_ok)
         Samples.fresh = (Returns r, w')
    /\ body r = DataBody d
    /\ result_title <$> results d = ["typing 1"; "relieved 1"; "sure jan 1"]
    /\ exists text strategies,
         request_json
           (Samples.env None true Samples.compiled Samples.unranked
              Samples.two_hits (Samples.pick 1) Samples.writes_ok)
         = Returns (JsString text)
         /\ generateStrategies
              (Samples.env None true Samples.compiled Samples.unranked
                 Samples.two_hits (Samples.pick 1) Samples.writes_ok) text
            = Returns strategies
         /\ Forall (fun entry =>
                      exists s g,
                        In s strategies
                        /\ In g (candidates
                                   (Samples.env None true Samples.compiled
                                      Samples.unranked Samples.two_hits
                                      (Samples.pick 1) Samples.writes_ok) s)
                        /\ result_url entry = url g
                        /\ result_title entry = title g
                        /\ result_perspective entry = perspective s
                        /\ result_keywords entry = keywords s
                        /\ result_topic entry = topic s)
                   (results d).
Proof.
  eexists _, _, _. split; [vm_compute; reflexivity|].
  split; [reflexivity|]. split; [reflexivity|].
  eapply (results_come_from_their_search
            (Samples.env None true Samples.compiled Samples.unranked
               Samples.two_hits (Samples.pick 1) Samples.writes_ok)
            Samples.fresh).
  - vm_compute. reflexivity.
  - reflexivity.
Defined.

(** X14. A caller without identity (no Clerk id, or an empty one) is
    served without any of the per-user steps: the handler answers, and
    on the way it calls neither the limiter nor the Clerk profile, makes
    no upsert, no profile lookup and no write, and leaves the
    [generations] table as it was. The answer is never the 429 one,
    carries no header, and a result set in it has no rate-limit
    figures. *)
Theorem anonymous_generation (e : Env) (w0 : World) (userId : option string) :
  auth e = Returns userId -> truthy userId = None ->
  exists r w',
    POST e w0 = (Returns r, w')
    /\ generations w' = generations w0
    /\ (exists new, calls w' = calls w0 ++ new
                    /\ Forall (fun c => identity_call c = false) new)
    /\ status r <> 429%Z
    /\ headers r = []
    /\ forall d, body r = DataBody d -> rateLimit d = None.
Proof.
  intros Hauth Hnone.
  destruct (POST_total e w0) as (r & w' & H). exists r, w'.
  pose proof (POST_anonymous e userId w0 Hauth Hnone) as [Hg Hc].
  rewrite H in Hg, Hc. split; [done|]. split; [exact Hg|]. split; [exact Hc|].
  apply POST_Returns in H
    as [->|[(uid & rr & Hauth' & Hne & _ & _ & ->)|[->|[->|[->|
         (userId' & [[lim rst] rem] & text & strategies & selections & w
          & Hreach & _ & _ & ->)]]]]]; try done.
  - rewrite Hauth in Hauth'. injection Hauth' as ->.
    by rewrite truthy_nonempty in Hnone.
  - destruct Hreach as (Hauth' & _). rewrite Hauth in Hauth'.
    injection Hauth' as <-.
    destruct (responseOf_fields userId lim rst rem selections) as (Hs & Hb & Hh).
    rewrite Hs, Hh, Hb, Hnone. split; [done|]. split; [done|].
    by intros d [= <-].
Qed.

Lemma anonymous_generation_witness :
  exists r w',
    POST (Samples.env (Some "") true Samples.compiled Samples.ranked
            Samples.two_hits (Samples.pick 0) Samples.writes_ok)
         Samples.fresh = (Returns r, w')
    /\ generations w' = []
    /\ (exists new, calls w' = [] ++ new
                    /\ Forall (fun c => identity_call c = false) new)
    /\ status r <> 429%Z
    /\ headers r = []
    /\ forall d, body r = DataBody d -> rateLimit d = None.
Proof.
  apply (anonymous_generation
           (Samples.env (Some "") true Samples.compiled Samples.ranked
              Samples.two_hits (Samples.pick 0) Samples.writes_ok)
           Samples.fresh (Some "")); reflexivity.
Defined.

(** X15. When the strategies cannot be derived (the reasoning service
    rejects, or what it returns is not three strategies, or one of them
    has no keyword, more than three keywords or a perspective outside
    the enum), the request is answered with the generic 500 body after
    exactly three more steps: the body read, the derivation call and the
    error log. No search, no selection call, no profile lookup and no
    write is made, and the [generations] table is as it was. *)
Theorem strategy_failure_stops_the_pipeline (e : Env) (w0 w1 : World)
  (userId : option string) (rl : Z * Z * Z) (text : string) :
  auth e = Returns userId ->
  quota_gate e userId (log Call_auth w0) = (Returns (inr rl), w1) ->
  request_json e = Returns (JsString text) -> text <> "" ->
  generateStrategies e text = Throws
  \/ (exists l,
        generateStrategies e text = Returns l
        /\ (length l <> 3%nat
            \/ exists s, In s l
                 /\ (keywords s = [] \/ (3 < length (keywords s))%nat
                     \/ ~ In (perspective s) perspective_enum))) ->
  POST e w0
  = (Returns failed_500,
     log (Call_console_error "Error generating GIF:")
       (log (Call_generateStrategies text) (log Call_request_json w1)))
  /\ adds after_strategies w0
       (log (Call_console_error "Error generating GIF:")
          (log (Call_generateStrategies text) (log Call_request_json w1))).
Proof.
  intros Hauth Hgate Hjson Htext Hfail.
  assert (Hgo : generateObject strategiesSchema (generateStrategies e text) = Throws).
  { destruct Hfail as [->|(l & -> & Hbad)]; [done|].
    unfold generateObject. by rewrite strategies_rejected. }
  split.
  - unfold POST, try_catch at 1. unfold bind at 1. unfold perform at 1.
    rewrite Hauth. unfold bind at 1. rewrite Hgate.
    unfold generate, bind at 1, perform at 1. rewrite Hjson. simpl.
    apply String.eqb_neq in Htext. rewrite Htext. simpl.
    unfold bind at 1, perform at 1. rewrite Hgo. done.
  - apply quota_gate_early in Hgate.
    eapply adds_trans; [|apply adds_log; reflexivity].
    eapply adds_trans; [|apply adds_log; reflexivity].
    eapply adds_trans; [|apply adds_log; reflexivity].
    eapply adds_trans; [|exact Hgate]. adds_steps.
Qed.

Lemma strategy_failure_stops_the_pipeline_witness :
  exists w',
    POST (Samples.env (Some "user_2a") true Samples.compiled
            [Samples.strat "emotional" "relieved"; Samples.strat "literal" "typing"]
            Samples.two_hits (Samples.pick 0) Samples.writes_ok)
         Samples.fresh
    = (Returns failed_500, w')
    /\ calls w' = [Call_auth; Call_ratelimit "user_2a"; Call_currentUser;
                   Call_user_upsert "user_2a" None; Call_request_json;
                   Call_generateStrategies "my code finally compiled";
                   Call_console_error "Error generating GIF:"]
    /\ generations w' = [].
Proof.
  destruct (strategy_failure_stops_the_pipeline
              (Samples.env (Some "user_2a") true Samples.compiled
                 [Samples.strat "emotional" "relieved";
                  Samples.strat "literal" "typing"]
                 Samples.two_hits (Samples.pick 0) Samples.writes_ok)
              Samples.fresh
              (log (Call_user_upsert "user_2a" None)
                 (log Call_currentUser
                    (log (Call_ratelimit "user_2a") (log Call_auth Samples.fresh))))
              (Some "user_2a") (10, 1764410000000, 2)%Z
              "my code finally compiled"
              eq_refl eq_refl eq_refl ltac:(discriminate)
              ltac:(right; eexists; split; [reflexivity|left; simpl; lia]))
    as [HP _].
  eexists. split; [exact HP|]. split; reflexivity.
Defined.

(** X16. The Giphy key is looked at only after the strategies are
    derived. With the key unset or empty, a request with a valid text is
    answered with the 500 body that names the missing key, and by then
    the reasoning service has been called once; no search, no selection
    call, no profile lookup and no write follows, and nothing is
    logged. *)
Theorem missing_giphy_key (e : Env) (w0 w1 : World)
  (userId : option string) (rl : Z * Z * Z) (text : string)
  (strategies : list Strategy) :
  auth e = Returns userId ->
  quota_gate e userId (log Call_auth w0) = (Returns (inr rl), w1) ->
  request_json e = Returns (JsString text) -> text <> "" ->
  generateObject strategiesSchema (generateStrategies e text) = Returns strategies ->
  GIPHY_API_KEY e = None \/ GIPHY_API_KEY e = Some "" ->
  POST e w0
  = (Returns no_key_500,
     log (Call_generateStrategies text) (log Call_request_json w1))
  /\ adds after_strategies w0
       (log (Call_generateStrategies text) (log Call_request_json w1)).
Proof.
  intros Hauth Hgate Hjson Htext Hstr Hkey.
  assert (Hnone : truthy (GIPHY_API_KEY e) = None)
    by (destruct Hkey as [->| ->]; reflexivity).
  split.
  - unfold POST, try_catch at 1. unfold bind at 1. unfold perform at 1.
    rewrite Hauth. unfold bind at 1. rewrite Hgate.
    unfold generate, bind at 1, perform at 1. rewrite Hjson. simpl.
    apply String.eqb_neq in Htext. rewrite Htext. simpl.
    unfold bind at 1, perform at 1. rewrite Hstr, Hnone. done.
  - apply quota_gate_early in Hgate.
    eapply adds_trans; [|apply adds_log; reflexivity].
    eapply adds_trans; [|apply adds_log; reflexivity].
    eapply adds_trans; [|exact Hgate]. adds_steps.
Qed.

Lemma missing_giphy_key_witness :
  exists w',
    POST (with_key
            (Samples.env None true Samples.compiled Samples.ranked
               Samples.two_hits (Samples.pick 0) Samples.writes_ok)
            (Some ""))
         Samples.fresh
    = (Returns no_key_500, w')
    /\ calls w' = [Call_auth; Call_request_json;
                   Call_generateStrategies "my code finally compiled"].
Proof.
  destruct (missing_giphy_key
              (with_key
                 (Samples.env None true Samples.compiled Samples.ranked
                    Samples.two_hits (Samples.pick 0) Samples.writes_ok)
                 (Some ""))
              Samples.fresh (log Call_auth Samples.fresh)
              None (10, 1764323600000 + 24 * 60 * 60 * 1000, 0)%Z
              "my code finally compiled" Samples.ranked
              eq_refl eq_refl eq_refl ltac:(discriminate) eq_refl
              (or_intror eq_refl))
    as [HP _].
  eexists. split; [exact HP|reflexivity].
Defined.

(** X17. When an identified caller with a profile row gets a result set
    and every write fulfils, what is stored is what is returned: the rows
    added to the [generations] table are, in the order the store gives
    them, the rows handed to it, and these are one per result, each
    with the url, title, perspective, reasoning, keywords and topic of
    its result; all of them carry the profile's id, the request text and
    one and the same group id. *)
Theorem persisted_rows_match_results (e : Env) (w0 : World) (uid : string)
  (rl : Z * Z * Z) (text : string) (strategies : list Strategy)
  (selections : list Selection) (w : World) (dbUser : DbUser) :
  reaches e w0 (Some uid) rl text strategies selections w ->
  uid <> "" ->
  user_findUnique e uid = Returns (Some dbUser) ->
  length (successfulSelections selections) <> 0%nat ->
  (forall row,
      In row (rowsOf dbUser text
                (generationGroupId (Date_now e) (Math_random_suffix e)) selections) ->
      generation_create e row = Returns tt) ->
  exists r w' d rows stored,
    POST e w0 = (Returns r, w')
    /\ status r = 200%Z /\ body r = DataBody d
    /\ generations w' = generations w0 ++ stored
    /\ stored ≡ₚ rows
    /\ Forall2 same_gif rows (results d)
    /\ Forall (fun row =>
                 data_userId row = user_id dbUser
                 /\ data_inputText row = text
                 /\ data_generationGroupId row
                    = generationGroupId (Date_now e) (Math_random_suffix e))
              rows.
Proof.
  intros Hreach Huid Hdb Hne Hok.
  rewrite (POST_reaches e _ _ _ _ _ _ _ Hreach). unfold try_catch.
  rewrite aggregate_some by done.
  rewrite (persist_found e (Some uid) uid dbUser) by (by try apply truthy_nonempty).
  pose proof (proj2 (written_all e _) Hok) as Hw.
  pose proof (inserted_perm e
                (rowsOf dbUser text
                   (generationGroupId (Date_now e) (Math_random_suffix e))
                   selections)) as Hperm.
  rewrite Hw in Hperm.
  assert (Hj : exists vs,
             join (generation_create e
                     <$> rowsOf dbUser text
                           (generationGroupId (Date_now e) (Math_random_suffix e))
                           selections) = Returns vs).
  { apply join_all. apply Forall_fmap, Forall_forall. intros row Hin.
    simpl. rewrite Hok; [done|by apply list_elem_of_In]. }
  destruct Hj as [vs ->]. destruct rl as [[lim rst] rem].
  destruct (responseOf_fields (Some uid) lim rst rem selections) as (Hs & Hb & _).
  eexists _, _, _, _, _. split; [reflexivity|]. split; [exact Hs|].
  split; [exact Hb|]. simpl.
  split; [by rewrite (proj1 (reaches_quiet e _ _ _ _ _ _ _ Hreach))|].
  split; [exact Hperm|].
  split; [apply rows_entries|apply rows_group].
Qed.

Lemma persisted_rows_match_results_witness :
  exists r w' d rows,
    POST (Samples.env (Some "user_2a") true Samples.compiled Samples.ranked
            Samples.only_relieved (Samples.pick 1) Samples.writes_ok)
         Samples.fresh = (Returns r, w')
    /\ body r = DataBody d
    /\ (fun row => (data_userId row, data_gifTitle row, data_perspective row))
         <$> generations w'
       = [("db-user_2a", "relieved 1", "emotional")]
    /\ generations w' ≡ₚ rows
    /\ Forall2 same_gif rows (results d).
Proof.
  eassert (Hreach : reaches
             (Samples.env (Some "user_2a") true Samples.compiled Samples.ranked
                Samples.only_relieved (Samples.pick 1) Samples.writes_ok)
             Samples.fresh (Some "user_2a") (10, 1764410000000, 2)%Z
             "my code finally compiled" Samples.ranked _ _).
  { unfold reaches. repeat (split; [first [reflexivity | discriminate]|]).
    eexists. split; vm_compute; reflexivity. }
  destruct (persisted_rows_match_results _ _ _ _ _ _ _ _
              {| user_id := "db-user_2a" |} Hreach)
    as (r & w' & d & rows & stored & HP & _ & Hd & Hg & Hperm & Hsame & _);
    [discriminate|reflexivity|vm_compute; lia|reflexivity|].
  exists r, w', d, rows. split; [exact HP|]. split; [exact Hd|].
  simpl in Hg. subst stored. split; [|split; [exact Hperm|exact Hsame]].
  vm_compute in HP. injection HP as <- <-. reflexivity.
Defined.

(** X18. The writes of one group are not atomic. For an identified
    caller with a profile row and at least one successful selection,
    every row of the group is handed to the store, whether or not
    another write fails, and the rows whose write fulfilled are in the
    [generations] table afterwards, behind what was there and in the
    order the store gives them. The answer is the result set when all
    rows are in, and the generic 500 body when some row is missing: the
    rows that did get written stay. *)
Theorem writes_are_not_atomic (e : Env) (w0 : World) (uid : string)
  (rl : Z * Z * Z) (text : string) (strategies : list Strategy)
  (selections : list Selection) (w : World) (dbUser : DbUser) :
  reaches e w0 (Some uid) rl text strategies selections w ->
  uid <> "" ->
  user_findUnique e uid = Returns (Some dbUser) ->
  length (successfulSelections selections) <> 0%nat ->
  let rows :=
    rowsOf dbUser text (generationGroupId (Date_now e) (Math_random_suffix e))
      selections in
  exists r w' stored,
    POST e w0 = (Returns r, w')
    /\ generations w' = generations w0 ++ stored
    /\ stored ≡ₚ written e rows
    /\ (exists tail,
          calls w' = calls w ++ Call_user_findUnique uid
                       :: (Call_generation_create <$> rows) ++ tail)
    /\ ((r = responseOf (Some uid) rl selections /\ written e rows = rows)
        \/ (r = failed_500 /\ written e rows <> rows)).
Proof.
  intros Hreach Huid Hdb Hne rows.
  rewrite (POST_reaches e _ _ _ _ _ _ _ Hreach). unfold try_catch.
  rewrite aggregate_some by done.
  rewrite (persist_found e (Some uid) uid dbUser) by (by try apply truthy_nonempty).
  fold rows. pose proof (proj1 (reaches_quiet e _ _ _ _ _ _ _ Hreach)) as Hg.
  pose proof (inserted_perm e rows) as Hperm.
  destruct (join (generation_create e <$> rows)) as [vs|] eqn:Hj.
  - eexists _, _, _. split; [reflexivity|]. simpl. rewrite Hg.
    split; [done|]. split; [exact Hperm|].
    split; [exists []; by rewrite app_nil_r|].
    left. split; [done|]. apply written_all. intros row Hin.
    assert (Hall : Forall (fun o : outcome unit => o <> Throws)
                     (generation_create e <$> rows))
      by (apply join_all; by exists vs).
    assert (Hrow : generation_create e row <> Throws).
    { eapply (proj1 (Forall_forall _ _) Hall).
      apply list_elem_of_fmap_2. by apply list_elem_of_In. }
    by destruct (generation_create e row) as [[]|].
  - unfold on_error, bind, perform, ret. eexists _, _, _. split; [reflexivity|].
    simpl. rewrite Hg. split; [done|]. split; [exact Hperm|].
    split; [exists [Call_console_error "Error generating GIF:"];
            by rewrite <- app_assoc|].
    right. split; [done|]. intros Hall.
    assert (Hex : exists vs, join (generation_create e <$> rows) = Returns vs).
    { apply join_all. apply Forall_fmap, Forall_forall. intros row Hin. simpl.
      rewrite (proj1 (written_all e rows) Hall row); [done|].
      by apply list_elem_of_In. }
    destruct Hex as [vs Hvs]. congruence.
Qed.

Lemma writes_are_not_atomic_witness :
  exists r w',
    POST (with_store_order
            (Samples.env (Some "user_2a") true Samples.compiled Samples.ranked
               Samples.two_hits (Samples.pick 1) Samples.literal_write_fails)
            [2; 0]%nat)
         Samples.fresh = (Returns r, w')
    /\ status r = 500%Z
    /\ data_perspective <$> generations w' = ["sarcastic"; "emotional"]
    /\ creates (calls w') = ["emotional"; "literal"; "sarcastic"].
Proof.
  eassert (Hreach : reaches
             (with_store_order
                (Samples.env (Some "user_2a") true Samples.compiled Samples.ranked
                   Samples.two_hits (Samples.pick 1) Samples.literal_write_fails)
                [2; 0]%nat)
             Samples.fresh (Some "user_2a") (10, 1764410000000, 2)%Z
             "my code finally compiled" Samples.ranked _ _).
  { unfold reaches. repeat (split; [first [reflexivity | discriminate]|]).
    eexists. split; vm_compute; reflexivity. }
  destruct (writes_are_not_atomic _ _ _ _ _ _ _ _
              {| user_id := "db-user_2a" |} Hreach)
    as (r & w' & stored & HP & _);
    [discriminate|reflexivity|vm_compute; lia|].
  exists r, w'. split; [exact HP|].
  vm_compute in HP. injection HP as <- <-.
  split; [reflexivity|]. split; reflexivity.
Defined.



(** X20. An identified caller whose profile row is missing when the
    results are about to be stored still gets the result set, with
    status 200 and the rate-limit figures, but nothing is stored: after
    the profile lookup the handler makes no write and the
    [generations] table is as it was, so the generation will not show in
    the caller's history. *)
Theorem missing_profile_skips_persistence (e : Env) (w0 : World) (uid : string)
  (rl : Z * Z * Z) (text : string) (strategies : list Strategy)
  (selections : list Selection) (w : World) :
  reaches e w0 (Some uid) rl text strategies selections w ->
  uid <> "" ->
  user_findUnique e uid = Returns None ->
  length (successfulSelections selections) <> 0%nat ->
  exists r d,
    POST e w0 = (Returns r, log (Call_user_findUnique uid) w)
    /\ status r = 200%Z /\ body r = DataBody d
    /\ results d = entriesOf selections /\ rateLimit d <> None
    /\ generations (log (Call_user_findUnique uid) w) = generations w0.
Proof.
  intros Hreach Huid Hdb Hne.
  rewrite (POST_reaches e _ _ _ _ _ _ _ Hreach). unfold try_catch.
  rewrite aggregate_some by done.
  unfold persist. rewrite truthy_nonempty by done.
  unfold bind, perform, ret. rewrite Hdb.
  destruct rl as [[lim rst] rem].
  destruct (responseOf_fields (Some uid) lim rst rem selections) as (Hs & Hb & _).
  rewrite truthy_nonempty in Hb by done.
  eexists _, _. split; [reflexivity|]. split; [exact Hs|]. split; [exact Hb|].
  simpl. split; [done|]. split; [done|].
  apply (reaches_quiet e _ _ _ _ _ _ _ Hreach).
Qed.

Lemma missing_profile_skips_persistence_witness :
  exists r w',
    POST (without_profile
            (Samples.env (Some "user_2a") true Samples.compiled Samples.ranked
               Samples.two_hits (Samples.pick 0) Samples.writes_ok))
         Samples.fresh = (Returns r, w')
    /\ status r = 200%Z
    /\ generations w' = []
    /\ last (calls w') = Some (Call_user_findUnique "user_2a").
Proof.
  eassert (Hreach : reaches
             (without_profile
                (Samples.env (Some "user_2a") true Samples.compiled Samples.ranked
                   Samples.two_hits (Samples.pick 0) Samples.writes_ok))
             Samples.fresh (Some "user_2a") (10, 1764410000000, 2)%Z
             "my code finally compiled" Samples.ranked _ _).
  { unfold reaches. repeat (split; [first [reflexivity | discriminate]|]).
    eexists. split; vm_compute; reflexivity. }
  destruct (missing_profile_skips_persistence _ _ _ _ _ _ _ _ Hreach)
    as (r & d & HP & Hs & _ & _ & _ & Hg);
    [discriminate|reflexivity|vm_compute; lia|].
  eexists _, _. split; [exact HP|]. split; [exact Hs|].
  split; [exact Hg|reflexivity].
Defined.

End GenerationMore.

(** * The client: history pager, generator form, share action *)

Section ClientClaims.

(** X21. The pager keeps the page number in range. From a page between 1
    and the number of pages, Previous and Next land on a page between 1
    and the number of pages; Previous does nothing on page 1 and Next
    nothing on the last page; anywhere else each moves by exactly one
    page and the other one undoes it. *)
Theorem pager_stays_in_range (s : HistoryPage.State) :
  (1 <= HistoryPage.page s <= HistoryPage.totalPages s)%Z ->
  (1 <= HistoryPage.page (HistoryPage.previous s)
   <= HistoryPage.totalPages (HistoryPage.previous s))%Z
  /\ (1 <= HistoryPage.page (HistoryPage.next s)
      <= HistoryPage.totalPages (HistoryPage.next s))%Z
  /\ (HistoryPage.page s = 1%Z -> HistoryPage.previous s = s)
  /\ (HistoryPage.page s = HistoryPage.totalPages s -> HistoryPage.next s = s)
  /\ ((1 < HistoryPage.page s)%Z ->
      HistoryPage.page (HistoryPage.previous s) = (HistoryPage.page s - 1)%Z
      /\ HistoryPage.next (HistoryPage.previous s) = s)
  /\ ((HistoryPage.page s < HistoryPage.totalPages s)%Z ->
      HistoryPage.page (HistoryPage.next s) = (HistoryPage.page s + 1)%Z
      /\ HistoryPage.previous (HistoryPage.next s) = s).
Proof.
  destruct s as [gens loading p tp].
  unfold HistoryPage.previous, HistoryPage.next. simpl. intros Hp.
  split; [lia|]. split; [lia|].
  split; [intros ->; f_equal; lia|].
  split; [intros ->; f_equal; lia|].
  split; intros Hlt; (split; [lia|f_equal; lia]).
Qed.

Lemma pager_stays_in_range_witness :
  HistoryPage.page
    (HistoryPage.next
       {| HistoryPage.generations := []; HistoryPage.isLoading := false;
          HistoryPage.page := 2; HistoryPage.totalPages := 3 |}) = 3%Z
  /\ HistoryPage.previous
       (HistoryPage.next
          {| HistoryPage.generations := []; HistoryPage.isLoading := false;
             HistoryPage.page := 2; HistoryPage.totalPages := 3 |})
     = {| HistoryPage.generations := []; HistoryPage.isLoading := false;
          HistoryPage.page := 2; HistoryPage.totalPages := 3 |}.
Proof.
  destruct (pager_stays_in_range
              {| HistoryPage.generations := []; HistoryPage.isLoading := false;
                 HistoryPage.page := 2; HistoryPage.totalPages := 3 |}
              ltac:(simpl; lia))
    as (_ & _ & _ & _ & _ & Hnext).
  apply Hnext. simpl. lia.
Defined.

(** X22. The history page against the history route. The page asks for
    its current page with a page size of 12 and takes whatever comes
    back: loading ends, the page number stays, the number of pages is at
    least 1 and at most 12 groups are listed. When the route answers an
    error the list is empty and the number of pages is 1. When the
    caller has a profile and the records are read, the list is the
    window of 12 groups at the current page and the number of pages is
    the number of groups divided by 12, rounded up, and never below
    1. *)
Theorem history_page_shows_server_page (e : History.Env) (w0 : World)
  (s : HistoryPage.State) :
  History.page_param e = Some (HistoryPage.page s) ->
  History.limit_param e = Some 12%Z ->
  (1 <= HistoryPage.page s)%Z ->
  exists r w' s',
    History.GET e w0 = (Returns r, w')
    /\ s' = HistoryPage.fetchHistory (Returns (History.body r)) s
    /\ HistoryPage.isLoading s' = false
    /\ HistoryPage.page s' = HistoryPage.page s
    /\ (1 <= HistoryPage.totalPages s')%Z
    /\ (length (HistoryPage.generations s') <= 12)%nat
    /\ (History.status r <> 200%Z ->
        HistoryPage.generations s' = [] /\ HistoryPage.totalPages s' = 1%Z)
    /\ forall uid user all groups,
         History.auth e = Returns (Some uid) -> uid <> "" ->
         History.user_findUnique e uid = Returns (Some user) ->
         History.generation_findMany e (user_id user) = Returns all ->
         History.groupedArray all = Returns groups ->
         HistoryPage.generations s'
         = take 12 (drop (Z.to_nat ((HistoryPage.page s - 1) * 12)) groups)
         /\ HistoryPage.totalPages s'
            = Z.max 1 (pages (Z.of_nat (length groups)) 12).
Proof.
  intros Hp HL Hp1.
  unfold History.GET, try_catch, bind at 1, perform at 1.
  destruct (History.auth e) as [[uid|]|] eqn:Hauth; simpl.
  2,3: eexists _, _, _; split; [reflexivity|]; split; [reflexivity|]; simpl;
       repeat (split; [first [done|lia]|]); intros; congruence.
  destruct (String.eqb uid "") eqn:Huid.
  { eexists _, _, _. split; [reflexivity|]. split; [reflexivity|]. simpl.
    repeat (split; [first [done|lia]|]).
    intros uid' user all groups [= <-] Hne.
    by apply String.eqb_neq in Hne; rewrite Hne in Huid. }
  unfold bind at 1, perform at 1.
  destruct (History.user_findUnique e uid) as [[user|]|] eqn:Huser.
  2,3: eexists _, _, _; split; [reflexivity|]; split; [reflexivity|]; simpl;
       repeat (split; [first [done|lia]|]); intros; congruence.
  unfold bind at 1, perform at 1.
  destruct (History.generation_findMany e (user_id user)) as [all|] eqn:Hall.
  2: eexists _, _, _; split; [reflexivity|]; split; [reflexivity|]; simpl;
     repeat (split; [first [done|lia]|]); intros; congruence.
  destruct (groupedArray_run all) as (groups & Hrun & _).
  unfold bind. rewrite Hrun, Hp, HL. cbn [History.num2].
  rewrite slice_window by nia. rewrite ceil_div_pages by lia.
  eexists _, _, _. split; [reflexivity|]. split; [reflexivity|].
  unfold History.Response_json. change (Z.to_nat 12) with 12%nat.
  cbn [History.body HistoryPage.fetchHistory HistoryPage.isLoading
       HistoryPage.page HistoryPage.totalPages HistoryPage.generations
       History.totalPages History.status ret fst snd].
  destruct (pages_bounds (Z.of_nat (length groups)) 12 ltac:(lia) ltac:(lia))
    as (Hpos & _).
  assert (Hor : HistoryPage.or_one (Some (pages (Z.of_nat (length groups)) 12))
                = Z.max 1 (pages (Z.of_nat (length groups)) 12)).
  { unfold HistoryPage.or_one.
    destruct (Z.eqb_spec (pages (Z.of_nat (length groups)) 12) 0); lia. }
  rewrite Hor.
  split; [done|]. split; [done|]. split; [lia|].
  split; [rewrite length_take; apply Nat.le_min_l|]. split; [done|].
  intros uid' user' all' groups' [= <-] _ Hu Hall' Hrun'.
  rewrite Huser in Hu. injection Hu as <-.
  rewrite Hall in Hall'. injection Hall' as <-.
  rewrite Hrun in Hrun'. by injection Hrun' as <-.
Qed.

Lemma history_page_shows_server_page_witness :
  exists r w' s',
    History.GET (Samples.history_env (Some {| user_id := "db-user_2a" |}))
      Samples.fresh = (Returns r, w')
    /\ s' = HistoryPage.fetchHistory (Returns (History.body r))
              {| HistoryPage.generations := []; HistoryPage.isLoading := true;
                 HistoryPage.page := 1; HistoryPage.totalPages := 1 |}
    /\ History.groupId <$> HistoryPage.generations s' = ["g"; "c"]
    /\ HistoryPage.totalPages s' = 1%Z
    /\ HistoryPage.isLoading s' = false.
Proof.
  destruct (history_page_shows_server_page
              (Samples.history_env (Some {| user_id := "db-user_2a" |}))
              Samples.fresh
              {| HistoryPage.generations := []; HistoryPage.isLoading := true;
                 HistoryPage.page := 1; HistoryPage.totalPages := 1 |}
              eq_refl eq_refl ltac:(simpl; lia))
    as (r & w' & s' & HGET & Hs' & Hload & _ & _ & _ & _ & Hwin).
  exists r, w', s'. split; [exact HGET|]. split; [exact Hs'|].
  destruct (Hwin "user_2a" {| user_id := "db-user_2a" |}
              [Samples.a; Samples.b; Samples.c] _
              eq_refl ltac:(discriminate) eq_refl eq_refl
              ltac:(vm_compute; reflexivity))
    as [Hg Ht].
  rewrite Hg, Ht. split; [reflexivity|]. split; [reflexivity|exact Hload].
Defined.

End ClientClaims.

Section FormClaims.
Import GifGenerator.

(** X23. What one submit of the generator form does. With a blank input
    or a request in flight it does nothing at all: no request, same
    state, same storage. Otherwise, whether or not the free trial is
    spent, it posts the input exactly once, and when it is over the
    pending flag is down, the input is untouched and the form holds a
    result or an error message, never neither. The trial entry of the
    storage is written only by a successful request of a visitor who is
    not signed in, and then the form holds the result and no error. *)
Theorem submit_outcome (e : Env) (s s' : State) (b b' : Browser) :
  handleSubmit e s b = (s', b') ->
  input s' = input s
  /\ ((blank e (input s) || isPending s = true /\ s' = s /\ b' = b)
      \/ (blank e (input s) || isPending s = false
          /\ posted b' = posted b ++ [input s]
          /\ isPending s' = false
          /\ (result s' <> None \/ error s' <> None)
          /\ (trial_used b' = trial_used b /\ trialUsed s' = trialUsed s
              \/ user e = false /\ trial_used b' = Some "true"
                 /\ trialUsed s' = true /\ error s' = None
                 /\ result s' <> None))).
Proof.
  unfold handleSubmit.
  destruct (blank e (input s) || isPending s) eqn:Hguard.
  { intros [= <- <-]. split; [done|]. by left. }
  destruct (answer e) as [err|st err|st data].
  1,2: intros [= <- <-]; simpl; split; [done|]; right;
       repeat (split; [done|]); split; [by right|by left].
  destruct (negb (ok st)).
  { intros [= <- <-]. simpl. split; [done|]. right.
    repeat (split; [done|]). split; [by right|by left]. }
  destruct (negb (user e)) eqn:Huser.
  - apply negb_true_iff in Huser. destruct (setItem e) as [err|].
    + intros [= <- <-]. simpl. split; [done|]. right.
      repeat (split; [done|]). split; [by left|by left].
    + intros [= <- <-]. simpl. split; [done|]. right.
      repeat (split; [done|]). split; [by left|by right].
  - intros [= <- <-]. simpl. split; [done|]. right.
    repeat (split; [done|]). split; [by left|by left].
Qed.

Lemma submit_outcome_witness :
  exists s' b',
    handleSubmit
      {| user := false; blank := fun t => String.eqb t "";
         toLocaleTimeString := fun _ => "11:00:00 PM";
         answer := Answered 404 not_found_404.(body);
         setItem := None |}
      {| input := "monday again"; result := None; error := None;
         isPending := false; trialUsed := true |}
      {| trial_used := Some "true"; posted := [] |}
    = (s', b')
    /\ posted b' = ["monday again"]
    /\ input s' = "monday again"
    /\ isPending s' = false.
Proof.
  eexists _, _. split; [reflexivity|].
  destruct (submit_outcome
              {| user := false; blank := fun t => String.eqb t "";
                 toLocaleTimeString := fun _ => "11:00:00 PM";
                 answer := Answered 404 not_found_404.(body);
                 setItem := None |}
              {| input := "monday again"; result := None; error := None;
                 isPending := false; trialUsed := true |}
              _
              {| trial_used := Some "true"; posted := [] |} _ eq_refl)
    as (Hin & [(Hg & _)|(_ & Hposted & Hpend & _)]); [discriminate|].
  split; [exact Hposted|]. split; [exact Hin|exact Hpend].
Defined.

(** X24. The free trial of a visitor who is not signed in is spent by
    one successful generation and stays spent: after a request that the
    server answers with a 2xx status, with the storage accepting the
    write, the form can no longer generate and shows the sign-in prompt,
    and the same holds for any later mount of the form over that
    storage. *)
Theorem trial_is_spent_by_one_success (e : Env) (s : State) (b : Browser)
  (st : Z) (data : Body) :
  user e = false -> blank e (input s) = false -> isPending s = false ->
  answer e = Answered st data -> (200 <= st <= 299)%Z -> setItem e = None ->
  canGenerate e (handleSubmit e s b).1 = false
  /\ showTrialPrompt e true (handleSubmit e s b).1 = true
  /\ result (handleSubmit e s b).1 = Some data
  /\ forall s0,
       canGenerate e (mount (handleSubmit e s b).2 s0) = false
       /\ showTrialPrompt e true (mount (handleSubmit e s b).2 s0) = true.
Proof.
  intros Huser Hblank Hpend Hans Hst Hset.
  unfold handleSubmit. rewrite Hblank, Hpend, Hans. simpl.
  assert (Hok : ok st = true).
  { unfold ok. apply andb_true_intro. split; apply Z.leb_le; lia. }
  rewrite Hok, Huser, Hset. simpl.
  unfold canGenerate, showTrialPrompt. rewrite Huser. simpl.
  repeat (split; [done|]). done.
Qed.

Lemma trial_is_spent_by_one_success_witness :
  canGenerate
    {| user := false; blank := fun t => String.eqb t "";
       toLocaleTimeString := fun _ => "11:00:00 PM";
       answer := Answered 200 (DataBody {| results := []; totalFound := 0;
                                           requestedPerspectives := 3;
                                           rateLimit := None |});
       setItem := None |}
    (mount
       (handleSubmit
          {| user := false; blank := fun t => String.eqb t "";
             toLocaleTimeString := fun _ => "11:00:00 PM";
             answer := Answered 200 (DataBody {| results := []; totalFound := 0;
                                                 requestedPerspectives := 3;
                                                 rateLimit := None |});
             setItem := None |}
          {| input := "monday again"; result := None; error := None;
             isPending := false; trialUsed := false |}
          {| trial_used := None; posted := [] |}).2
       {| input := ""; result := None; error := None;
          isPending := false; trialUsed := false |})
  = false.
Proof.
  destruct (trial_is_spent_by_one_success
              {| user := false; blank := fun t => String.eqb t "";
                 toLocaleTimeString := fun _ => "11:00:00 PM";
                 answer := Answered 200 (DataBody {| results := []; totalFound := 0;
                                                     requestedPerspectives := 3;
                                                     rateLimit := None |});
                 setItem := None |}
              {| input := "monday again"; result := None; error := None;
                 isPending := false; trialUsed := false |}
              {| trial_used := None; posted := [] |}
              200 _ eq_refl eq_refl eq_refl eq_refl ltac:(lia) eq_refl)
    as (_ & _ & _ & Hmount).
  apply Hmount.
Defined.

(** X25. The form against the generation route. Whatever the route
    answers to a submitted text, the form ends up showing it: a result
    set is held as the result, with no error unless the visitor is not
    signed in and the storage refuses the trial entry; the quota body
    becomes the message that names the reset time, with no result; any
    error body becomes its own text, with no result. *)
Theorem form_shows_server_answer (ge : Generate.Env) (w0 w' : World)
  (r : Response) (e : Env) (s : State) (b : Browser) :
  Generate.POST ge w0 = (Returns r, w') ->
  answer e = Answered (status r) (body r) ->
  blank e (input s) = false -> isPending s = false ->
  match body r with
  | DataBody d =>
      result (handleSubmit e s b).1 = Some (DataBody d)
      /\ (error (handleSubmit e s b).1 = None
          \/ user e = false /\ setItem e <> None)
  | RateLimitBody _ _ _ rst =>
      result (handleSubmit e s b).1 = None
      /\ error (handleSubmit e s b).1
         = Some ("Rate limit exceeded. Resets at "
                 +:+ toLocaleTimeString e (Some rst))
  | ErrorBody msg =>
      result (handleSubmit e s b).1 = None
      /\ error (handleSubmit e s b).1 = Some msg
  end.
Proof.
  intros HP Hans Hblank Hpend.
  unfold handleSubmit. rewrite Hblank, Hpend, Hans. cbn [orb].
  apply POST_Returns in HP
    as [->|[(uid & rr & _ & _ & _ & _ & ->)|[->|[->|[->|
         (userId & [[lim rst] rem] & text & strategies & selections & w
          & _ & _ & _ & ->)]]]]]; try (by simpl).
  destruct (responseOf_fields userId lim rst rem selections) as (-> & -> & _).
  simpl. destruct (user e); simpl; [by split; [|left]|].
  destruct (setItem e); simpl; (split; [done|]); [by right|by left].
Qed.

Lemma form_shows_server_answer_witness :
  error
    (handleSubmit
       {| user := true; blank := fun t => String.eqb t "";
          toLocaleTimeString := fun _ => "11:00:00 PM";
          answer :=
            Answered 429
              (RateLimitBody
                 "Rate limit exceeded. You've used all 10 generations for today."
                 10 0 1764410000000);
          setItem := None |}
       {| input := "monday again"; result := None; error := None;
          isPending := false; trialUsed := false |}
       {| trial_used := None; posted := [] |}).1
  = Some "Rate limit exceeded. Resets at 11:00:00 PM".
Proof.
  eassert (HP : Generate.POST
                  (Samples.env (Some "user_2a") false Samples.compiled
                     Samples.ranked Samples.two_hits (Samples.pick 0)
                     Samples.writes_ok)
                  Samples.fresh = (Returns _, _))
    by (vm_compute; reflexivity).
  apply (form_shows_server_answer _ _ _ _
           {| user := true; blank := fun t => String.eqb t "";
              toLocaleTimeString := fun _ => "11:00:00 PM";
              answer :=
                Answered 429
                  (RateLimitBody
                     "Rate limit exceeded. You've used all 10 generations for today."
                     10 0 1764410000000);
              setItem := None |}
           {| input := "monday again"; result := None; error := None;
              isPending := false; trialUsed := false |}
           {| trial_used := None; posted := [] |}
           HP eq_refl eq_refl eq_refl).
Defined.

End FormClaims.

Section ShareClaims.
Import GifActions.

(** X26. Sharing shows at most one toast, and an error toast only with
    the text "Share failed". When the awaited steps reject only with the
    user's cancellation (an error named AbortError) or with values that
    are no errors, nothing is shown at all. Without the Web Share API the
    GIF is not fetched and the url goes to the clipboard; with it the
    GIF is fetched first and the clipboard is left alone, and the GIF
    itself is shared as a file only where the device says it can share
    files, under the name built from the perspective and the clock. *)
Theorem share_toasts (e : Env) (url title perspective : string) :
  (length (toasts (shareGif e url title perspective)) <= 1)%nat
  /\ (forall msg,
        In (ToastError msg) (shareGif e url title perspective) ->
        msg = "Share failed")
  /\ ((forall err,
         fetch e url = Rejects err \/ share e = Some (Rejects err)
         \/ writeText e = Rejects err ->
         instanceofError err = false \/ name err = "AbortError") ->
      forall msg, ~ In (ToastError msg) (shareGif e url title perspective))
  /\ (share e = None ->
      head (shareGif e url title perspective) = Some (WriteText url)
      /\ ~ In (Fetch url) (shareGif e url title perspective))
  /\ (share e <> None ->
      head (shareGif e url title perspective) = Some (Fetch url)
      /\ ~ In (WriteText url) (shareGif e url title perspective))
  /\ (forall f t x,
        In (ShareFiles f t x) (shareGif e url title perspective) ->
        canShare e = Some true /\ f = fileName perspective (Date_now e)).
Proof.
  assert (Hsf : forall err,
             share_failed err = [ToastError "Share failed"]
             /\ instanceofError err = true /\ name err <> "AbortError"
             \/ share_failed err = []).
  { intros err. unfold share_failed.
    destruct (instanceofError err); simpl; [|by right].
    destruct (String.eqb_spec (name err) "AbortError"); simpl; [by right|by left]. }
  unfold shareGif.
  destruct (share e) as [shared|] eqn:Hshare.
  - destruct (fetch e url) as [blob|ferr] eqn:Hfetch.
    + destruct (canShare e) as [[]|] eqn:Hcan;
        destruct shared as [[]|serr];
        try destruct (Hsf serr) as [(-> & Hi & Hn)| ->]; simpl;
        (split; [lia|]); (split; [intros msg; intuition congruence|]);
        (split; [intros Hsilent msg;
                 try (destruct (Hsilent serr) as [?|?]; [auto|congruence|congruence]);
                 intuition congruence|]);
        (split; [done|]); (split; [intros _; split; [done|intuition congruence]|]);
        intros f t x; intuition congruence.
    + destruct (Hsf ferr) as [(-> & Hi & Hn)| ->]; simpl;
        (split; [lia|]); (split; [intros msg; intuition congruence|]);
        (split; [intros Hsilent msg;
                 try (destruct (Hsilent ferr) as [?|?]; [auto|congruence|congruence]);
                 intuition congruence|]);
        (split; [done|]); (split; [intros _; split; [done|intuition congruence]|]);
        intros f t x; intuition congruence.
  - destruct (writeText e) as [[]|werr] eqn:Hwrite;
      try destruct (Hsf werr) as [(-> & Hi & Hn)| ->]; simpl;
      (split; [lia|]); (split; [intros msg; intuition congruence|]);
      (split; [intros Hsilent msg;
               try (destruct (Hsilent werr) as [?|?]; [auto|congruence|congruence]);
               intuition congruence|]);
      (split; [intros _; split; [done|intuition congruence]|]);
      (split; [done|]);
      intros f t x; intuition congruence.
Qed.

End ShareClaims.
